(** * Minimap character rendering and the Git content provider

    A shallow embedding of two TypeScript sources of the editor:

    - the minimap colour tracker and character renderer ([ParsedColor],
      [MinimapTokensColorTracker], [Constants], [MinimapCharRenderer]);
    - the source-control content provider ([GitContentProvider]).

    Every class of the sources is a module of the same name; a method is a
    function of the same name that takes the receiver [this] first and, where
    the method mutates an object, returns the object after the call.

    Numbers are held exactly, as rationals: integers stay integers, a
    quotient is the exact quotient, and the rounding of binary64 arithmetic
    is left out. The exact value and the value that binary64 computes give
    the same results where the channels of the colours and the samples of
    the atlases are bytes (integers from 0 to 255), which is what the colour
    parser, the colour table and a [Uint8ClampedArray] hold: the theorems
    on [isLight] and on the rendered bytes are stated there. Module
    [Binary64] holds the same expressions with the operations of binary64;
    the flag [isLight] is proved on it directly, for channels that are
    multiples of 1/2, and [soften] is proved to store the same bytes.
    Outside the bytes the two can differ, see [isLightOf_rounds_the_sum]
    and [rendered_differs_off_bytes]. *)

From Stdlib Require Import ZArith Zpower QArith Qround Qabs List String Ascii Bool Lia Lqa.
From Stdlib Require Import HexadecimalString HexadecimalN SpecFloat.
From stdpp Require Import base list.
Import ListNotations.

Local Open Scope Z_scope.

(** * JavaScript values *)

Module JS.

(** A reference-typed value: [undefined], [null] or an object. *)
Inductive ref (A : Type) : Type :=
| undefined
| null
| obj (a : A).
Arguments undefined {A}.
Arguments null {A}.
Arguments obj {A} a.

(** A completion: the call returns normally or throws. *)
Inductive completion (A : Type) : Type :=
| Normal (a : A)
| Throw (message : string).
Arguments Normal {A} a.
Arguments Throw {A} message.

(** A string is its sequence of UTF-16 code units. *)
Definition jsstring : Type := list Z.

(** A string literal of the sources, and the empty string. *)
Definition lit (s : string) : jsstring :=
  map (fun a => Z.of_N (N_of_ascii a)) (list_ascii_of_string s).

Definition empty : jsstring := [].

(** [s.charCodeAt(i)]; [None] is the NaN returned outside the string. *)
Definition charCodeAt (s : jsstring) (i : nat) : option Z := s !! i.

(** [s.substr(start, len)] for non-negative arguments. *)
Definition substr (s : jsstring) (start len : nat) : jsstring :=
  take len (drop start s).

(** [x === k] for a char code [x] that may be NaN and a constant [k]. *)
Definition strictEq (x : option Z) (k : Z) : bool :=
  match x with
  | Some c => c =? k
  | None => false
  end.

(** [x > y] on exact rationals. *)
Definition Qgtb (x y : Q) : bool := negb (Qle_bool x y).

(** The lowercase hexadecimal digit of a value below 16, as a code unit. *)
Definition hexChar (d : Z) : Z := if d <? 10 then 48 + d else 87 + d.

(** The hexadecimal digits of a fraction [f] in [0, 1), at most [fuel] of
    them. *)
Fixpoint fractionDigits (fuel : nat) (f : Q) : jsstring :=
  match fuel with
  | O => []
  | S fuel' =>
      if Qeq_bool f 0 then []
      else
        let d := Qfloor (16 * f) in
        hexChar d :: fractionDigits fuel' (16 * f - inject_Z d)
  end.

(** [n.toString(16)]: a minus sign for a negative number, the lowercase
    hexadecimal digits of the integer part and, for a number that is not an
    integer, a point and the digits of the fraction. The fuel covers every
    digit of a dyadic fraction, which is what a finite float has. *)
Definition toString16 (n : Q) : jsstring :=
  let a := Qabs n in
  let whole := Qfloor a in
  let fraction := (a - inject_Z whole)%Q in
  (if Qgtb 0 n then lit "-" else [])
  ++ lit (NilZero.string_of_uint (N.to_hex_uint (Z.to_N whole)))
  ++ (if Qeq_bool fraction 0 then []
      else lit "." ++ fractionDigits (Pos.to_nat (Qden n)) fraction).

(** [a[i]] on an array: [undefined] outside the array. *)
Definition index {A : Type} (a : list (ref A)) (i : Z) : ref A :=
  if i <? 0 then undefined
  else match a !! Z.to_nat i with
       | Some v => v
       | None => undefined
       end.

(** [a[i] = v] on an ordinary array: writing at or past the end extends the
    array, the skipped slots read as [undefined]. *)
Definition arraySet {A : Type} (a : list (ref A)) (i : nat) (v : ref A)
  : list (ref A) :=
  if (i <? length a)%nat then <[i := v]> a
  else a ++ replicate (i - length a) undefined ++ [v].

(** A number that a computation may produce: NaN, an infinity or a finite
    value, held exactly. *)
Inductive number : Type :=
| NaN
| Infinity (negative : bool)
| Finite (q : Q).

(** [sample / 255] for an element read from a typed array, [undefined]
    ([None]) giving NaN. *)
Definition div255 (sample : option Z) : number :=
  match sample with
  | Some v => Finite (inject_Z v / 255)
  | None => NaN
  end.

(** [background + delta * c] for finite [background] and [delta], exactly.
    Between byte channels the exact value is a multiple of 1/255, at least
    1/510 away from every tie of the rounding to a byte, and binary64 stores
    the same byte. *)
Definition blend (background delta : Q) (c : number) : number :=
  match c with
  | NaN => NaN
  | Infinity s =>
      if Qeq_bool delta 0 then NaN else Infinity (xorb s (Qgtb 0 delta))
  | Finite q => Finite (background + delta * q)
  end.

(** The conversion applied by a store into a [Uint8ClampedArray]
    (ToUint8Clamp): NaN becomes 0, the value is clamped to 0..255 and rounded
    to the nearest integer, a tie going to the even neighbour. *)
Definition toUint8Clamp (x : number) : Z :=
  match x with
  | NaN => 0
  | Infinity s => if s then 0 else 255
  | Finite q =>
      if Qle_bool q 0 then 0
      else if Qle_bool 255 q then 255
      else
        let f := Qfloor q in
        if Qgtb q (inject_Z f + 0.5) then f + 1
        else if Qgtb (inject_Z f + 0.5) q then f
        else if Z.even f then f else f + 1
  end.

(** [a[i]] on a typed array: [undefined] outside it. *)
Definition typedGet (a : list Z) (i : Z) : option Z :=
  if i <? 0 then None else a !! Z.to_nat i.

(** [a[i] = x] on a [Uint8ClampedArray]: the store converts [x] with
    [toUint8Clamp]; a store outside the array has no effect. *)
Definition typedSet (a : list Z) (i : Z) (x : number) : list Z :=
  if i <? 0 then a else <[Z.to_nat i := toUint8Clamp x]> a.

(** [/^p/.test(s)] for a literal [p]: [s] starts with [p]. *)
Fixpoint startsWith (p s : jsstring) : bool :=
  match p, s with
  | [], _ => true
  | a :: p', b :: s' => (a =? b) && startsWith p' s'
  | _ :: _, [] => false
  end.

(** [/p$/.test(s)] for a literal [p]: [s] ends with [p]. *)
Definition endsWith (p s : jsstring) : bool :=
  startsWith (rev p) (rev s).

(** A [Set] of objects: its members in insertion order. Membership is by
    identity, which is the equality of the type of the objects. *)
Definition Set_add {A : Type} `{EqDecision A} (x : A) (s : list A) : list A :=
  if decide (x ∈ s) then s else s ++ [x].

Definition Set_delete {A : Type} `{EqDecision A} (x : A) (s : list A) : list A :=
  filter (fun y => y <> x) s.

(** How a promise settles. *)
Inductive settled (A : Type) : Type :=
| Fulfilled (value : A)
| Rejected (reason : jsstring).
Arguments Fulfilled {A} value.
Arguments Rejected {A} reason.

(** ** IEEE 754 binary64 *)

Definition prec : Z := 53.
Definition emax : Z := 1024.

Definition float_of_Z (n : Z) : spec_float := binary_normalize prec emax n 0 false.

(** The value of a float, exactly. *)
Definition number_of_float (f : spec_float) : number :=
  match f with
  | S754_zero _ => Finite 0
  | S754_infinity s => Infinity s
  | S754_nan => NaN
  | S754_finite s m e =>
      let v := (inject_Z (Z.pos m) * Qpower 2 e)%Q in
      Finite (if s then Qopp v else v)
  end.

End JS.

Import JS.

(** * The [CharCode] enumeration *)

(** Modelled from the spec: the [CharCode] enumeration of
    vs/base/common/charCode is not among the sources. Each member is the
    UTF-16 code unit of the character it names: the optional leading "#" and
    the hexadecimal digits that the colour parser accepts. *)
Module CharCode.
Definition Hash : Z := 35.
Definition Digit0 : Z := 48.
Definition Digit1 : Z := 49.
Definition Digit2 : Z := 50.
Definition Digit3 : Z := 51.
Definition Digit4 : Z := 52.
Definition Digit5 : Z := 53.
Definition Digit6 : Z := 54.
Definition Digit7 : Z := 55.
Definition Digit8 : Z := 56.
Definition Digit9 : Z := 57.
Definition A : Z := 65.
Definition B : Z := 66.
Definition C : Z := 67.
Definition D : Z := 68.
Definition E : Z := 69.
Definition F : Z := 70.
Definition a : Z := 97.
Definition b : Z := 98.
Definition c : Z := 99.
Definition d : Z := 100.
Definition e : Z := 101.
Definition f : Z := 102.
End CharCode.

(** * [ParsedColor] *)

Module ParsedColor.

Record t : Type := mk {
  r : Q;
  g : Q;
  b : Q;
  isLight : bool
}.

(** [new ParsedColor(r, g, b)]. The quotient of [isLight] is the exact
    one; [Binary64.isLightOf] is the same test in binary64, and the two
    agree on channels that are multiples of 1/2 from 0 to 255. *)
Definition new (r g b : Q) : t :=
  {| r := r;
     g := g;
     b := b;
     isLight := Qgtb ((r + g + b) / (3 * 255)) 0.5 |}.

Definition _toTwoDigitHex (n : Q) : jsstring :=
  let r := toString16 n in
  if negb (length r =? 2)%nat then lit "0" ++ r else r.

Definition toCSSHex (this : t) : jsstring :=
  lit "#" ++ _toTwoDigitHex (r this) ++ _toTwoDigitHex (g this)
          ++ _toTwoDigitHex (b this).

End ParsedColor.

(** * [MinimapTokensColorTracker] *)

Module MinimapTokensColorTracker.

(** What [Color.toRGBA()] returns. The [Color] class of
    vs/base/common/color is a collaborator of the host; the tracker only
    calls [toRGBA] on it, so the colour type and that method are parameters
    of [_setColorMap]. *)
Record RGBA : Type := { rgba_r : Z; rgba_g : Z; rgba_b : Z; rgba_a : Z }.

(** The tracker: its colour table and the number of times its
    [_onDidChange] emitter has fired. The singleton of [getInstance] and the
    subscription to the registry in the constructor are wiring of the host:
    each change of the colour map is a call of [_setColorMap]. *)
Record t : Type := mk {
  _colors : list (ref ParsedColor.t);
  _onDidChange_fired : nat
}.

(** The [for] loop of [_setColorMap], [n] iterations being left. *)
Fixpoint _setColorMap_loop {Color : Type} (toRGBA : Color -> RGBA)
    (colorMap : list Color) (colorId n : nat) (colors : list (ref ParsedColor.t))
  : list (ref ParsedColor.t) :=
  match n with
  | O => colors
  | S n' =>
      match colorMap !! colorId with
      | Some entry =>
          let color := toRGBA entry in
          _setColorMap_loop toRGBA colorMap (S colorId) n'
            (arraySet colors colorId
               (obj (ParsedColor.new (inject_Z (rgba_r color))
                                     (inject_Z (rgba_g color))
                                     (inject_Z (rgba_b color)))))
      | None => colors
      end
  end.

Definition _setColorMap {Color : Type} (toRGBA : Color -> RGBA)
    (this : t) (colorMap : list Color) : t :=
  {| _colors := _setColorMap_loop toRGBA colorMap 1 (length colorMap - 1) [null];
     _onDidChange_fired := S (_onDidChange_fired this) |}.

Definition getColor (this : t) (colorId : Z) : ref ParsedColor.t :=
  let colorId :=
    if (colorId <? 1) || (colorId >=? Z.of_nat (length (_colors this)))
    then 2 (* background color (basically invisible) *)
    else colorId in
  index (_colors this) colorId.

(** The [switch] of [_parseHexDigit]: the first matching case returns. *)
Definition _parseHexDigit_cases : list (Z * Z) :=
  [ (CharCode.Digit0, 0); (CharCode.Digit1, 1); (CharCode.Digit2, 2);
    (CharCode.Digit3, 3); (CharCode.Digit4, 4); (CharCode.Digit5, 5);
    (CharCode.Digit6, 6); (CharCode.Digit7, 7); (CharCode.Digit8, 8);
    (CharCode.Digit9, 9);
    (CharCode.a, 10); (CharCode.A, 10);
    (CharCode.b, 11); (CharCode.B, 11);
    (CharCode.c, 12); (CharCode.C, 12);
    (CharCode.d, 13); (CharCode.D, 13);
    (CharCode.e, 14); (CharCode.E, 14);
    (CharCode.f, 15); (CharCode.F, 15) ].

Definition _parseHexDigit (charCode : option Z) : Z :=
  match List.find (fun kv => strictEq charCode (fst kv)) _parseHexDigit_cases with
  | Some kv => snd kv
  | None => 0
  end.

Definition _parseColor (color : ref jsstring) : ParsedColor.t :=
  match color with
  | obj color =>
      if (length color =? 0)%nat then ParsedColor.new 0 0 0
      else
        let color :=
          if strictEq (charCodeAt color 0) CharCode.Hash then substr color 1 6
          else substr color 0 6 in
        if negb (length color =? 6)%nat then ParsedColor.new 0 0 0
        else
          let r := 16 * _parseHexDigit (charCodeAt color 0)
                   + _parseHexDigit (charCodeAt color 1) in
          let g := 16 * _parseHexDigit (charCodeAt color 2)
                   + _parseHexDigit (charCodeAt color 3) in
          let b := 16 * _parseHexDigit (charCodeAt color 4)
                   + _parseHexDigit (charCodeAt color 5) in
          ParsedColor.new (inject_Z r) (inject_Z g) (inject_Z b)
  | _ => ParsedColor.new 0 0 0
  end.

(** The [TokenizationRegistry] of the host: its current colour map, and the
    event it emits on a change. *)
Record TokenizationRegistry (Color : Type) : Type := {
  getColorMap : list Color
}.
Arguments getColorMap {Color} _.

Record TokenizationRegistryChangedEvent : Type := {
  changedColorMap : bool
}.

(** [new MinimapTokensColorTracker()]: the emitter is new, the table is
    built from the colour map of the registry. *)
Definition new {Color : Type} (toRGBA : Color -> RGBA)
    (registry : TokenizationRegistry Color) : t :=
  _setColorMap toRGBA {| _colors := []; _onDidChange_fired := 0 |}
    (getColorMap registry).

(** The listener that the constructor attaches to
    [TokenizationRegistry.onDidChange]; [registry] is the registry at the
    time of the event. *)
Definition onRegistryChange {Color : Type} (toRGBA : Color -> RGBA)
    (registry : TokenizationRegistry Color)
    (e : TokenizationRegistryChangedEvent) (this : t) : t :=
  if changedColorMap e then _setColorMap toRGBA this (getColorMap registry)
  else this.

(** [getInstance()]: [_INSTANCE] is the static field, before and after. *)
Definition getInstance {Color : Type} (toRGBA : Color -> RGBA)
    (registry : TokenizationRegistry Color) (_INSTANCE : ref t) : t * ref t :=
  match _INSTANCE with
  | obj instance => (instance, _INSTANCE)
  | _ => let instance := new toRGBA registry in (instance, obj instance)
  end.

(** A run of the tracker after its construction: each event of the
    registry with the registry at that time. *)
Definition listen {Color : Type} (toRGBA : Color -> RGBA) (this : t)
    (events : list (TokenizationRegistry Color * TokenizationRegistryChangedEvent))
  : t :=
  fold_left (fun this ev => onRegistryChange toRGBA (fst ev) (snd ev) this)
    events this.

End MinimapTokensColorTracker.

(** * [Constants] *)

Module Constants.
Definition START_CH_CODE : Z := 32. (* Space *)
Definition END_CH_CODE : Z := 126. (* Tilde (~) *)
Definition CHAR_COUNT : Z := END_CH_CODE - START_CH_CODE + 1.

Definition SAMPLED_CHAR_HEIGHT : Z := 16.
Definition SAMPLED_CHAR_WIDTH : Z := 10.
Definition SAMPLED_HALF_CHAR_WIDTH : Z := SAMPLED_CHAR_WIDTH / 2.

Definition x2_CHAR_HEIGHT : Z := 4.
Definition x2_CHAR_WIDTH : Z := 2.

Definition x1_CHAR_HEIGHT : Z := 2.
Definition x1_CHAR_WIDTH : Z := 1.

Definition RGBA_CHANNELS_CNT : Z := 4.
End Constants.

(** * [ImageData] and the console *)

(** The target of a rendering call: [data] is a [Uint8ClampedArray] of
    [width * height] pixels of four bytes each (red, green, blue, alpha). *)
Record ImageData : Type := {
  width : Z;
  height : Z;
  data : list Z
}.

(** * [MinimapCharRenderer] *)

Module MinimapCharRenderer.
Import Constants.

Record t : Type := mk {
  x2charData : list Z;
  x1charData : list Z;
  x2charDataLight : list Z;
  x1charDataLight : list Z
}.

(** The loop of [soften], [n] iterations being left. *)
Fixpoint soften_loop (input : list Z) (ratio : Q) (i n : nat)
    (result : list Z) : list Z :=
  match n with
  | O => result
  | S n' =>
      let product :=
        match typedGet input (Z.of_nat i) with
        | Some v => Finite (inject_Z v * ratio)
        | None => NaN
        end in
      soften_loop input ratio (S i) n' (typedSet result (Z.of_nat i) product)
  end.

Definition soften (input : list Z) (ratio : Q) : list Z :=
  let result := replicate (length input) 0 in
  soften_loop input ratio 0 (length input) result.

(** [new MinimapCharRenderer(x2CharData, x1CharData)] *)
Definition new (x2CharData x1CharData : list Z) : completion t :=
  let x2ExpectedLen := x2_CHAR_HEIGHT * x2_CHAR_WIDTH * CHAR_COUNT in
  if negb (Z.of_nat (length x2CharData) =? x2ExpectedLen) then
    Throw "Invalid x2CharData"
  else
    let x1ExpectedLen := x1_CHAR_HEIGHT * x1_CHAR_WIDTH * CHAR_COUNT in
    if negb (Z.of_nat (length x1CharData) =? x1ExpectedLen) then
      Throw "Invalid x1CharData"
    else
      Normal
        {| x2charData := x2CharData;
           x1charData := x1CharData;
           x2charDataLight :=
             soften x2CharData (12 / 15);
           x1charDataLight :=
             soften x1CharData (50 / 60) |}.

Definition _getChIndex (chCode : Z) : Z :=
  let chCode := chCode - START_CH_CODE in
  let chCode := if chCode <? 0 then chCode + CHAR_COUNT else chCode in
  Z.rem chCode CHAR_COUNT.

(** The rendering methods write into [target.data] in place and return
    nothing; here they return the target after the call and the lines
    written with [console.warn]. *)
Definition x2RenderChar (this : t) (target : ImageData) (dx dy chCode : Z)
    (color backgroundColor : ParsedColor.t) : ImageData * list string :=
  if (dx + x2_CHAR_WIDTH >? width target) || (dy + x2_CHAR_HEIGHT >? height target)
  then (target, ["bad render request outside image data"%string])
  else
    let x2CharData :=
      if ParsedColor.isLight backgroundColor then x2charDataLight this
      else x2charData this in
    let chIndex := _getChIndex chCode in

    let outWidth := width target * RGBA_CHANNELS_CNT in

    let backgroundR := ParsedColor.r backgroundColor in
    let backgroundG := ParsedColor.g backgroundColor in
    let backgroundB := ParsedColor.b backgroundColor in

    let deltaR := (ParsedColor.r color - backgroundR)%Q in
    let deltaG := (ParsedColor.g color - backgroundG)%Q in
    let deltaB := (ParsedColor.b color - backgroundB)%Q in

    let dest := data target in
    let sourceOffset := chIndex * x2_CHAR_HEIGHT * x2_CHAR_WIDTH in
    let destOffset := dy * outWidth + dx * RGBA_CHANNELS_CNT in

    let c := div255 (typedGet x2CharData sourceOffset) in
    let dest := typedSet dest (destOffset + 0) (blend backgroundR deltaR c) in
    let dest := typedSet dest (destOffset + 1) (blend backgroundG deltaG c) in
    let dest := typedSet dest (destOffset + 2) (blend backgroundB deltaB c) in

    let c := div255 (typedGet x2CharData (sourceOffset + 1)) in
    let dest := typedSet dest (destOffset + 4) (blend backgroundR deltaR c) in
    let dest := typedSet dest (destOffset + 5) (blend backgroundG deltaG c) in
    let dest := typedSet dest (destOffset + 6) (blend backgroundB deltaB c) in

    let destOffset := destOffset + outWidth in
    let c := div255 (typedGet x2CharData (sourceOffset + 2)) in
    let dest := typedSet dest (destOffset + 0) (blend backgroundR deltaR c) in
    let dest := typedSet dest (destOffset + 1) (blend backgroundG deltaG c) in
    let dest := typedSet dest (destOffset + 2) (blend backgroundB deltaB c) in

    let c := div255 (typedGet x2CharData (sourceOffset + 3)) in
    let dest := typedSet dest (destOffset + 4) (blend backgroundR deltaR c) in
    let dest := typedSet dest (destOffset + 5) (blend backgroundG deltaG c) in
    let dest := typedSet dest (destOffset + 6) (blend backgroundB deltaB c) in

    let destOffset := destOffset + outWidth in
    let c := div255 (typedGet x2CharData (sourceOffset + 4)) in
    let dest := typedSet dest (destOffset + 0) (blend backgroundR deltaR c) in
    let dest := typedSet dest (destOffset + 1) (blend backgroundG deltaG c) in
    let dest := typedSet dest (destOffset + 2) (blend backgroundB deltaB c) in

    let c := div255 (typedGet x2CharData (sourceOffset + 5)) in
    let dest := typedSet dest (destOffset + 4) (blend backgroundR deltaR c) in
    let dest := typedSet dest (destOffset + 5) (blend backgroundG deltaG c) in
    let dest := typedSet dest (destOffset + 6) (blend backgroundB deltaB c) in

    let destOffset := destOffset + outWidth in
    let c := div255 (typedGet x2CharData (sourceOffset + 6)) in
    let dest := typedSet dest (destOffset + 0) (blend backgroundR deltaR c) in
    let dest := typedSet dest (destOffset + 1) (blend backgroundG deltaG c) in
    let dest := typedSet dest (destOffset + 2) (blend backgroundB deltaB c) in

    let c := div255 (typedGet x2CharData (sourceOffset + 7)) in
    let dest := typedSet dest (destOffset + 4) (blend backgroundR deltaR c) in
    let dest := typedSet dest (destOffset + 5) (blend backgroundG deltaG c) in
    let dest := typedSet dest (destOffset + 6) (blend backgroundB deltaB c) in

    ({| width := width target; height := height target; data := dest |}, []).

Definition x1RenderChar (this : t) (target : ImageData) (dx dy chCode : Z)
    (color backgroundColor : ParsedColor.t) : ImageData * list string :=
  if (dx + x1_CHAR_WIDTH >? width target) || (dy + x1_CHAR_HEIGHT >? height target)
  then (target, ["bad render request outside image data"%string])
  else
    let x1CharData :=
      if ParsedColor.isLight backgroundColor then x1charDataLight this
      else x1charData this in
    let chIndex := _getChIndex chCode in

    let outWidth := width target * RGBA_CHANNELS_CNT in

    let backgroundR := ParsedColor.r backgroundColor in
    let backgroundG := ParsedColor.g backgroundColor in
    let backgroundB := ParsedColor.b backgroundColor in

    let deltaR := (ParsedColor.r color - backgroundR)%Q in
    let deltaG := (ParsedColor.g color - backgroundG)%Q in
    let deltaB := (ParsedColor.b color - backgroundB)%Q in

    let dest := data target in
    let sourceOffset := chIndex * x1_CHAR_HEIGHT * x1_CHAR_WIDTH in
    let destOffset := dy * outWidth + dx * RGBA_CHANNELS_CNT in

    let c := div255 (typedGet x1CharData sourceOffset) in
    let dest := typedSet dest (destOffset + 0) (blend backgroundR deltaR c) in
    let dest := typedSet dest (destOffset + 1) (blend backgroundG deltaG c) in
    let dest := typedSet dest (destOffset + 2) (blend backgroundB deltaB c) in

    let destOffset := destOffset + outWidth in
    let c := div255 (typedGet x1CharData (sourceOffset + 1)) in
    let dest := typedSet dest (destOffset + 0) (blend backgroundR deltaR c) in
    let dest := typedSet dest (destOffset + 1) (blend backgroundG deltaG c) in
    let dest := typedSet dest (destOffset + 2) (blend backgroundB deltaB c) in

    ({| width := width target; height := height target; data := dest |}, []).

End MinimapCharRenderer.

(** * [GitContentProvider] *)

Module GitContentProvider.

(** The [Uri] objects of the host. Two [Uri] objects are equal when they are
    the same object: a [Set] of them compares by identity. *)
Class UriApi (Uri : Type) : Type := {
  Uri_eq_dec :: EqDecision Uri;
  fsPath : Uri -> jsstring;
  query : Uri -> jsstring
}.

(** The [workspace] of the host. *)
Class Workspace (Uri : Type) : Type := {
  asRelativePath : Uri -> jsstring
}.

(** The version-control model: how the promise of [show(ref, uri)] settles in
    the current state of the repository. *)
Record Model (Uri : Type) : Type := {
  show : jsstring -> Uri -> settled jsstring
}.
Arguments show {Uri} _ _ _.

(** An event over a state [S]: given a listener, what an occurrence of the
    underlying host event does. *)
Definition Event (T S : Type) : Type := (T -> S -> S) -> T -> S -> S.

(** Modelled from the spec: [filterEvent] of ./util is not among the sources.
    The filtered event passes on to its listener the occurrences that
    satisfy the filter and drops the others ("filters to changes under a
    version-control metadata directory while excluding lock files"). *)
Definition filterEvent {T S : Type} (event : Event T S) (filter : T -> bool)
  : Event T S :=
  fun listener => event (fun e s => if filter e then listener e s else s).

Section Provider.
Context {Uri : Type} `{UriApi Uri} `{Workspace Uri}.

(** The provider: its fields, and the values fired so far by
    [onDidChangeEmitter], oldest first. *)
Record t : Type := mk {
  model : Model Uri;
  uris : list Uri;
  onDidChange_fired : list Uri
}.

Definition onDidChangeEmitter_fire (uri : Uri) (this : t) : t :=
  {| model := model this;
     uris := uris this;
     onDidChange_fired := onDidChange_fired this ++ [uri] |}.

Definition fireChangeEvents (arg : Uri) (this : t) : t :=
  fold_left (fun this uri => onDidChangeEmitter_fire uri this) (uris this) this.

(** The constructor: the new provider, and the listener it attaches to
    [onWorkspaceChange]. The registration of the provider for the scheme
    "git" and the list of disposables belong to the host. *)
Definition new (model : Model Uri) : t :=
  {| model := model; uris := []; onDidChange_fired := [] |}.

Definition subscription (onWorkspaceChange : Event Uri t) : Uri -> t -> t :=
  let onGitChange :=
    filterEvent onWorkspaceChange
      (fun uri => startsWith (lit ".git/") (asRelativePath uri)) in
  let onRelevantGitChange :=
    filterEvent onGitChange
      (fun uri => negb (endsWith (lit "/.git/index.lock") (fsPath uri))) in
  onRelevantGitChange fireChangeEvents.

(** The file-system change event of the host delivers every occurrence. *)
Definition onWorkspaceChange : Event Uri t := fun listener => listener.

(** The asynchronous method, taken at the moment the awaited promise
    settles: until then the call has not touched the provider. The result
    is how the returned promise settles. *)
Definition provideTextDocumentContent (this : t) (uri : Uri)
  : settled jsstring * t :=
  match show (model this) (query uri) uri with
  | Fulfilled result =>
      (Fulfilled result,
       {| model := model this;
          uris := Set_add uri (uris this);
          onDidChange_fired := onDidChange_fired this |})
  | Rejected err =>
      (Fulfilled empty,
       {| model := model this;
          uris := Set_delete uri (uris this);
          onDidChange_fired := onDidChange_fired this |})
  end.

(** ** Runs of the provider *)

(** What the host does to a provider: a file-system change, a content
    request, and a change of the repository behind [model]. *)
Inductive action : Type :=
| FileChanged (uri : Uri)
| ContentRequested (uri : Uri)
| RepositoryChanged (m : Model Uri).

Definition step (this : t) (a : action) : t :=
  match a with
  | FileChanged uri => subscription onWorkspaceChange uri this
  | ContentRequested uri => snd (provideTextDocumentContent this uri)
  | RepositoryChanged m =>
      {| model := m; uris := uris this; onDidChange_fired := onDidChange_fired this |}
  end.

Definition run (this : t) (actions : list action) : t :=
  fold_left step actions this.

(** Whether the latest content request for [uri] in a run had [model.show]
    resolve; [None] when the run has no request for it. *)
Fixpoint lastResolution (this : t) (actions : list action) (uri : Uri)
  : option bool :=
  match actions with
  | [] => None
  | a :: rest =>
      match lastResolution (step this a) rest uri with
      | Some later => Some later
      | None =>
          match a with
          | ContentRequested u =>
              if decide (u = uri) then
                match show (model this) (query u) u with
                | Fulfilled _ => Some true
                | Rejected _ => Some false
                end
              else None
          | _ => None
          end
      end
  end.

(** The change notifications that an action causes: what
    [onDidChangeEmitter] fires during it. *)
Definition firedBy (this : t) (a : action) : list Uri :=
  drop (length (onDidChange_fired this)) (onDidChange_fired (step this a)).

(** How many of the notifications in [fired] are for [uri]. *)
Definition notificationsFor (uri : Uri) (fired : list Uri) : nat :=
  count_occ (fun x y => decide (x = y)) fired uri.

End Provider.

Arguments t Uri : clear implicits.

End GitContentProvider.

(** * Notions of the specification *)

Module Spec.

(** The colour black. *)
Definition black : ParsedColor.t := ParsedColor.new 0 0 0.

(** A hexadecimal digit, by its code unit. *)
Definition isHexDigit (c : Z) : bool :=
  ((48 <=? c) && (c <=? 57)) || ((65 <=? c) && (c <=? 70))
  || ((97 <=? c) && (c <=? 102)).

(** The value of a hexadecimal digit. *)
Definition hexValue (c : Z) : Z :=
  if c <=? 57 then c - 48 else if c <=? 70 then c - 55 else c - 87.

(** The normalized form of a colour string: an optional leading "#"
    removed, then truncated to 6 characters. *)
Definition normalized (s : jsstring) : jsstring :=
  match s with
  | c :: rest => if c =? 35 then take 6 rest else take 6 s
  | [] => []
  end.

(** Exactly 6 hexadecimal digits. *)
Definition sixHexDigits (s : jsstring) : bool :=
  (length s =? 6)%nat && forallb isHexDigit s.

(** The digit value the parser gives a character: a character that is not
    a hexadecimal digit reads as 0. *)
Definition lenientValue (c : Z) : Z :=
  if isHexDigit c then hexValue c else 0.

(** Manual channel decomposition of six characters. *)
Definition channels (value : Z -> Z) (s : jsstring) : ParsedColor.t :=
  let d (i : nat) := value (nth i s 0) in
  ParsedColor.new (inject_Z (16 * d 0%nat + d 1%nat))
                  (inject_Z (16 * d 2%nat + d 3%nat))
                  (inject_Z (16 * d 4%nat + d 5%nat)).

(** The glyph of a character code: codes wrap modulo the number of
    supported characters. *)
Definition glyphIndex (chCode : Z) : Z :=
  (chCode - Constants.START_CH_CODE) mod Constants.CHAR_COUNT.

(** A target whose buffer holds [width * height] pixels of four bytes. *)
Definition wellFormed (target : ImageData) : Prop :=
  0 <= width target /\ 0 <= height target
  /\ Z.of_nat (length (data target)) = width target * height target * 4.

(** The offset in [data] of a byte of the pixel at column [x] and row [y]:
    channel 0 is red, 1 green, 2 blue and 3 alpha. *)
Definition byteOffset (target : ImageData) (x y channel : Z) : Z :=
  (y * width target + x) * 4 + channel.

Definition pixelByte (target : ImageData) (x y channel : Z) : option Z :=
  typedGet (data target) (byteOffset target x y channel).

(** A channel of a colour, by its number. *)
Definition channel (ch : Z) (c : ParsedColor.t) : Q :=
  if ch =? 0 then ParsedColor.r c
  else if ch =? 1 then ParsedColor.g c
  else ParsedColor.b c.

(** The linear interpolation between a background and a foreground channel
    by a sample intensity of 0..255; a missing sample gives NaN. *)
Definition interpolate (background foreground : Q) (intensity : option Z)
  : number :=
  match intensity with
  | Some v => Finite (background + (foreground - background) * (inject_Z v / 255))
  | None => NaN
  end.

(** The diagnostic of a rejected rendering request. *)
Definition rejected (target : ImageData) : ImageData * list string :=
  (target, ["bad render request outside image data"%string]).

End Spec.

(** * Further notions *)

Module Notion.

(** The ASCII letters of a string in lower and in upper case. *)
Definition lowerCase (c : Z) : Z :=
  if (65 <=? c) && (c <=? 90) then c + 32 else c.

Definition upperCase (c : Z) : Z :=
  if (97 <=? c) && (c <=? 122) then c - 32 else c.

(** A digit or a lowercase letter a to f. *)
Definition isLowerHexDigit (c : Z) : bool :=
  ((48 <=? c) && (c <=? 57)) || ((97 <=? c) && (c <=? 102)).

(** The table that [_setColorMap] builds from a colour map. *)
Definition table {Color : Type} (toRGBA : Color -> MinimapTokensColorTracker.RGBA)
    (colorMap : list Color) : list (ref ParsedColor.t) :=
  null
  :: map (fun entry =>
            obj (ParsedColor.new
                   (inject_Z (MinimapTokensColorTracker.rgba_r (toRGBA entry)))
                   (inject_Z (MinimapTokensColorTracker.rgba_g (toRGBA entry)))
                   (inject_Z (MinimapTokensColorTracker.rgba_b (toRGBA entry)))))
         (drop 1 colorMap).

(** The colour map in force after a run of registry events: the one of the
    latest event that announced a change of the colour map. *)
Definition latestColorMap {Color : Type} (initial : list Color)
    (events : list (MinimapTokensColorTracker.TokenizationRegistry Color
                    * MinimapTokensColorTracker.TokenizationRegistryChangedEvent))
  : list Color :=
  fold_left
    (fun current ev =>
       if MinimapTokensColorTracker.changedColorMap (snd ev)
       then MinimapTokensColorTracker.getColorMap (fst ev) else current)
    events initial.

(** The number of events that announced a change of the colour map. *)
Definition announced {Color : Type}
    (events : list (MinimapTokensColorTracker.TokenizationRegistry Color
                    * MinimapTokensColorTracker.TokenizationRegistryChangedEvent))
  : nat :=
  length (List.filter
            (fun ev => MinimapTokensColorTracker.changedColorMap (snd ev))
            events).

(** A sequence of stores into a [Uint8ClampedArray], each an offset and the
    number stored, and the array after them. *)
Definition applyStores (a : list Z) (stores : list (Z * number)) : list Z :=
  fold_left (fun a store => typedSet a (fst store) (snd store)) stores a.

(** The number that the latest store at offset [k] puts into an array of
    length [len]; [None] when no store of the sequence reaches [k]. *)
Fixpoint lastStore (len : nat) (stores : list (Z * number)) (k : Z)
  : option number :=
  match stores with
  | [] => None
  | store :: rest =>
      match lastStore len rest k with
      | Some x => Some x
      | None =>
          if (k =? fst store)
             && ((0 <=? fst store) && (fst store <? Z.of_nat len))
          then Some (snd store) else None
      end
  end.

(** The stores of an accepted call of [x2RenderChar], pixel by pixel: the
    rows of the character, the two columns of a row, the three colour
    channels of a pixel. *)
Definition x2Stores (this : MinimapCharRenderer.t) (target : ImageData)
    (dx dy chCode : Z) (color backgroundColor : ParsedColor.t)
  : list (Z * number) :=
  let atlas :=
    if ParsedColor.isLight backgroundColor
    then MinimapCharRenderer.x2charDataLight this
    else MinimapCharRenderer.x2charData this in
  flat_map
    (fun row =>
       flat_map
         (fun col =>
            map (fun ch =>
                   (Spec.byteOffset target (dx + col) (dy + row) ch,
                    Spec.interpolate (Spec.channel ch backgroundColor)
                      (Spec.channel ch color)
                      (typedGet atlas
                         (MinimapCharRenderer._getChIndex chCode * 8
                          + (row * 2 + col)))))
                [0; 1; 2])
         [0; 1])
    [0; 1; 2; 3].

(** The stores of an accepted call of [x1RenderChar]. *)
Definition x1Stores (this : MinimapCharRenderer.t) (target : ImageData)
    (dx dy chCode : Z) (color backgroundColor : ParsedColor.t)
  : list (Z * number) :=
  let atlas :=
    if ParsedColor.isLight backgroundColor
    then MinimapCharRenderer.x1charDataLight this
    else MinimapCharRenderer.x1charData this in
  flat_map
    (fun row =>
       map (fun ch =>
              (Spec.byteOffset target dx (dy + row) ch,
               Spec.interpolate (Spec.channel ch backgroundColor)
                 (Spec.channel ch color)
                 (typedGet atlas
                    (MinimapCharRenderer._getChIndex chCode * 2 + row))))
           [0; 1; 2])
    [0; 1].

(** A colour whose channels are bytes. *)
Definition byteColor (c : ParsedColor.t) : Prop :=
  exists x y z : Z,
    (0 <= x <= 255 /\ 0 <= y <= 255 /\ 0 <= z <= 255)
    /\ c = ParsedColor.new (inject_Z x) (inject_Z y) (inject_Z z).

(** An array of bytes, as every [Uint8ClampedArray] is. *)
Definition bytes (a : list Z) : Prop := Forall (fun v => 0 <= v <= 255) a.

End Notion.

(** * The same arithmetic in binary64 *)

(** The flag of [ParsedColor], the product of [soften] and the value of a
    rendered byte, evaluated with the operations of IEEE 754 binary64. *)
Module Binary64.

Definition add : spec_float -> spec_float -> spec_float := SFadd prec emax.
Definition sub : spec_float -> spec_float -> spec_float := SFsub prec emax.
Definition mul : spec_float -> spec_float -> spec_float := SFmul prec emax.
Definition div : spec_float -> spec_float -> spec_float := SFdiv prec emax.

(** Whether two floats are the same float. *)
Definition eqb (x y : spec_float) : bool :=
  match x, y with
  | S754_zero s, S754_zero s' => Bool.eqb s s'
  | S754_infinity s, S754_infinity s' => Bool.eqb s s'
  | S754_nan, S754_nan => true
  | S754_finite s m e, S754_finite s' m' e' =>
      Bool.eqb s s' && (m =? m')%positive && (e =? e')
  | _, _ => false
  end.

(** The number [n / 2], which binary64 holds exactly for a small [n]. *)
Definition half_of (n : Z) : spec_float :=
  binary_normalize prec emax n (-1) false.

(** The literal 0.5. *)
Definition half : spec_float := binary_normalize prec emax 1 (-1) false.

(** [total / (3 * 255) > 0.5], where [total] is [r + g + b]: a sum of
    integers below 2^53 is an integer that binary64 holds exactly. *)
Definition isLight (total : Z) : bool :=
  SFltb half (div (float_of_Z total) (mul (float_of_Z 3) (float_of_Z 255))).

(** [input[i] * ratio], stored into a [Uint8ClampedArray], for the ratio
    [numerator / denominator]. *)
Definition softened (sample numerator denominator : Z) : Z :=
  toUint8Clamp
    (number_of_float
       (mul (float_of_Z sample)
            (div (float_of_Z numerator) (float_of_Z denominator)))).

(** [(r + g + b) / (3 * 255) > 0.5] of the [ParsedColor] constructor, each
    operation rounding as binary64 does. *)
Definition isLightOf (r g b : spec_float) : bool :=
  SFltb half (div (add (add r g) b) (mul (float_of_Z 3) (float_of_Z 255))).

(** [dest[i] = background + delta * c] of the rendering methods, where
    [delta = foreground - background] and [c = sample / 255]: the byte that
    the store leaves. *)
Definition rendered (background foreground : spec_float) (sample : Z) : Z :=
  let delta := sub foreground background in
  let c := div (float_of_Z sample) (float_of_Z 255) in
  toUint8Clamp (number_of_float (add background (mul delta c))).

End Binary64.

(** * A renderer, targets and colours to evaluate the methods on *)

Module Fixture.

Definition x2CharData : list Z := map (fun i => Z.of_nat i mod 256) (seq 0 760).
Definition x1CharData : list Z := map (fun i => Z.of_nat i mod 256) (seq 0 190).

Definition renderer : MinimapCharRenderer.t :=
  match MinimapCharRenderer.new x2CharData x1CharData with
  | Normal this => this
  | Throw _ => MinimapCharRenderer.mk [] [] [] []
  end.

(** A target of the given size, every byte being 7. *)
Definition canvas (w h : Z) : ImageData :=
  {| width := w; height := h; data := replicate (Z.to_nat (w * h * 4)) 7 |}.

Definition white : ParsedColor.t := ParsedColor.new 255 255 255.
Definition black : ParsedColor.t := ParsedColor.new 0 0 0.

(** Channel values on which the rendered byte is compared with binary64. *)
Definition palette : list Z := [0; 1; 100; 127; 128; 255].

End Fixture.

(** * A repository to evaluate the content provider on *)

Module GitFixture.
Import GitContentProvider.

(** A [Uri] object: its identity, its file-system path and its query. *)
Record Uri : Type := {
  object : nat;
  path : jsstring;
  revision : jsstring
}.

#[global] Instance Uri_eq : EqDecision Uri.
Proof. solve_decision. Defined.

#[global] Instance api : UriApi Uri :=
  {| fsPath := path; query := revision |}.

(** The workspace is rooted at /repo. *)
#[global] Instance workspace : Workspace Uri :=
  {| asRelativePath uri :=
       if startsWith (lit "/repo/") (path uri) then drop 6 (path uri)
       else path uri |}.

(** A repository that knows the revision HEAD only. *)
Definition repository : Model Uri :=
  {| show ref uri :=
       if startsWith (lit "HEAD") ref && (length ref =? 4)%nat
       then Fulfilled (lit "content at HEAD")
       else Rejected (lit "bad revision") |}.

Definition readme : Uri :=
  {| object := 1; path := lit "/repo/README.md"; revision := lit "HEAD" |}.
Definition stale : Uri :=
  {| object := 2; path := lit "/repo/README.md"; revision := lit "deadbeef" |}.
Definition head : Uri :=
  {| object := 3; path := lit "/repo/.git/HEAD"; revision := [] |}.
Definition lock : Uri :=
  {| object := 4; path := lit "/repo/.git/index.lock"; revision := [] |}.

(** A second object for the resource of [readme], and a repository that
    has lost every revision. *)
Definition readmeAgain : Uri :=
  {| object := 5; path := lit "/repo/README.md"; revision := lit "HEAD" |}.
Definition emptied : Model Uri :=
  {| show ref uri := Rejected (lit "bad revision") |}.

End GitFixture.

(** * Proofs *)

(** ** Bounded enumeration *)

Lemma Z_range_forallb (p : Z -> bool) (lo : Z) (n : nat) :
  forallb p (map (fun i => lo + Z.of_nat i) (seq 0 n)) = true ->
  forall z, lo <= z < lo + Z.of_nat n -> p z = true.
Proof.
  intros Hall z Hz.
  rewrite forallb_forall in Hall. apply Hall.
  apply in_map_iff. exists (Z.to_nat (z - lo)). split; [lia|].
  apply in_seq. lia.
Qed.

(** ** [ParsedColor] *)

Lemma Qgtb_lt (x y : Q) : Qgtb x y = true <-> (y < x)%Q.
Proof.
  unfold Qgtb. rewrite negb_true_iff, <- not_true_iff_false, Qle_bool_iff.
  split; [apply Qnot_le_lt | apply Qlt_not_le].
Qed.

Lemma Qgtb_false_le (x y : Q) : Qgtb x y = false <-> (x <= y)%Q.
Proof.
  unfold Qgtb. rewrite negb_false_iff. apply Qle_bool_iff.
Qed.

(** On integer channels the flag is a threshold on the sum: 383 is the
    least sum above half of 765. *)
Lemma isLight_threshold (cr cg cb : Z) :
  ParsedColor.isLight
    (ParsedColor.new (inject_Z cr) (inject_Z cg) (inject_Z cb)) = true
  <-> 383 <= cr + cg + cb.
Proof.
  unfold ParsedColor.new; simpl. rewrite Qgtb_lt.
  unfold Qlt, Qdiv, Qmult, Qplus, Qinv, inject_Z; simpl. lia.
Qed.

(** *** The constructor in binary64 *)








(** Outside those channels the sum is rounded: a channel of 2^-70 beside
    382.5 is lost, the quotient comes out as 0.5 and the flag is false,
    though the exact quotient is above 0.5. *)
Lemma isLightOf_rounds_the_sum :
  Binary64.isLightOf (Binary64.half_of 765)
    (binary_normalize prec emax 1 (-70) false) (S754_zero false) = false
  /\ ((inject_Z 765 / 2 + Qpower 2 (-70) + 0) / (3 * 255) > 0.5)%Q.
Proof. split; [vm_compute; reflexivity | reflexivity]. Qed.



(** ** [MinimapTokensColorTracker._parseColor] *)

Import MinimapTokensColorTracker.

Lemma hexValue_range (c : Z) :
  Spec.isHexDigit c = true -> 0 <= Spec.hexValue c <= 15.
Proof.
  unfold Spec.isHexDigit, Spec.hexValue. intros Hc.
  destruct (Z.leb_spec c 57), (Z.leb_spec c 70); lia.
Qed.

Lemma lenientValue_range (c : Z) : 0 <= Spec.lenientValue c <= 15.
Proof.
  unfold Spec.lenientValue. destruct (Spec.isHexDigit c) eqn:Hc; [|lia].
  now apply hexValue_range.
Qed.

(** The [switch] returns the value of a hexadecimal digit and 0 for every
    other code unit. *)
Lemma _parseHexDigit_lenient (c : Z) :
  _parseHexDigit (Some c) = Spec.lenientValue c.
Proof.
  destruct (Z_lt_le_dec c 48) as [Hlo|Hlo];
    [|destruct (Z_lt_le_dec 102 c) as [Hhi|Hhi]].
  - unfold Spec.lenientValue, Spec.isHexDigit.
    replace (48 <=? c) with false by lia. replace (65 <=? c) with false by lia.
    replace (97 <=? c) with false by lia. cbv -[Z.eqb].
    repeat match goal with
           | |- context [c =? ?k] => destruct (Z.eqb_spec c k); [lia|]
           end.
    reflexivity.
  - unfold Spec.lenientValue, Spec.isHexDigit.
    replace (c <=? 57) with false by lia. replace (c <=? 70) with false by lia.
    replace (c <=? 102) with false by lia. rewrite !andb_false_r.
    cbv -[Z.eqb].
    repeat match goal with
           | |- context [c =? ?k] => destruct (Z.eqb_spec c k); [lia|]
           end.
    reflexivity.
  - apply Z.eqb_eq.
    apply (Z_range_forallb
             (fun z => _parseHexDigit (Some z) =? Spec.lenientValue z) 48 55);
      [vm_compute; reflexivity | lia].
Qed.

Lemma _parseHexDigit_NaN : _parseHexDigit None = 0.
Proof. reflexivity. Qed.

(** The normalisation of the parser is the one of the specification. *)
Lemma _parseColor_normalizes (s : jsstring) :
  (if strictEq (charCodeAt s 0) CharCode.Hash then substr s 1 6 else substr s 0 6)
  = Spec.normalized s.
Proof.
  destruct s as [|c rest]; [reflexivity|].
  unfold charCodeAt, substr, Spec.normalized, CharCode.Hash; cbn.
  destruct (c =? 35); reflexivity.
Qed.

Lemma _parseColor_missing (color : ref jsstring) :
  color = undefined \/ color = null \/ color = obj [] ->
  _parseColor color = Spec.black.
Proof. intros [->|[->| ->]]; reflexivity. Qed.

Lemma _parseColor_short (s : jsstring) :
  length (Spec.normalized s) <> 6%nat -> _parseColor (obj s) = Spec.black.
Proof.
  intros Hlen. unfold _parseColor.
  destruct (Nat.eqb_spec (length s) 0) as [_|_]; [reflexivity|].
  rewrite _parseColor_normalizes.
  destruct (Nat.eqb_spec (length (Spec.normalized s)) 6) as [Heq|_];
    [contradiction | reflexivity].
Qed.

Lemma _parseColor_six (s : jsstring) :
  length (Spec.normalized s) = 6%nat ->
  _parseColor (obj s) = Spec.channels Spec.lenientValue (Spec.normalized s).
Proof.
  intros Hlen. unfold _parseColor.
  destruct (Nat.eqb_spec (length s) 0) as [Hs|_].
  { destruct s; [discriminate Hlen | discriminate Hs]. }
  rewrite _parseColor_normalizes.
  destruct (Spec.normalized s) as [|d0 [|d1 [|d2 [|d3 [|d4 [|d5 [|]]]]]]];
    try discriminate Hlen.
  cbn [length Nat.eqb negb]. unfold Spec.channels, charCodeAt.
  cbn [lookup list_lookup nth].
  now rewrite !_parseHexDigit_lenient.
Qed.

Lemma new_eq_black (x y z : Z) :
  ParsedColor.new (inject_Z x) (inject_Z y) (inject_Z z) = Spec.black
  <-> x = 0 /\ y = 0 /\ z = 0.
Proof.
  split.
  - intros Heq. unfold Spec.black, ParsedColor.new, inject_Z in Heq.
    injection Heq as Hx Hy Hz _. auto.
  - intros (-> & -> & ->). reflexivity.
Qed.

(** The input ["gg00ff"] has a normalized form that is not six hexadecimal
    digits, and it parses to blue. *)
Lemma C1_not_black_on_non_hex :
  let s := lit "gg00ff" in
  ~ (Spec.sixHexDigits (Spec.normalized s) = false
     -> _parseColor (obj s) = Spec.black).
Proof.
  intros s Hblack. specialize (Hblack eq_refl). discriminate Hblack.
Qed.

(** C1 (amended): an input that is missing or empty, or whose normalized
    form has fewer than 6 characters, parses to black (0,0,0). In a
    normalized form of 6 characters each character that is not a hexadecimal
    digit is read as the digit 0, so the result is black exactly when all six
    characters read as 0. *)
Theorem C1_parseColor_black_or_lenient (color : ref jsstring) :
  ((color = undefined \/ color = null \/ color = obj []
    \/ exists s, color = obj s /\ length (Spec.normalized s) <> 6%nat)
   -> _parseColor color = Spec.black)
  /\ (forall s, color = obj s -> length (Spec.normalized s) = 6%nat ->
        _parseColor color = Spec.channels Spec.lenientValue (Spec.normalized s)
        /\ (_parseColor color = Spec.black
            <-> Forall (fun c => Spec.lenientValue c = 0) (Spec.normalized s))).
Proof.
  split.
  - intros [Hu|[Hn|[He|(s & -> & Hlen)]]].
    + apply _parseColor_missing; auto.
    + apply _parseColor_missing; auto.
    + apply _parseColor_missing; auto.
    + now apply _parseColor_short.
  - intros s -> Hlen. split; [now apply _parseColor_six|].
    rewrite (_parseColor_six s Hlen).
    destruct (Spec.normalized s) as [|d0 [|d1 [|d2 [|d3 [|d4 [|d5 [|]]]]]]];
      try discriminate Hlen.
    unfold Spec.channels; cbn [nth]. rewrite new_eq_black.
    pose proof (lenientValue_range d0). pose proof (lenientValue_range d1).
    pose proof (lenientValue_range d2). pose proof (lenientValue_range d3).
    pose proof (lenientValue_range d4). pose proof (lenientValue_range d5).
    split.
    + intros (Hr & Hg & Hb). repeat constructor; lia.
    + intros HF.
      repeat match goal with
             | H : Forall _ (_ :: _) |- _ => inversion H; subst; clear H
             end.
      lia.
Qed.

(** C1 at concrete inputs: a short form is black, ["gg00ff"] is blue. *)
Lemma C1_parseColor_black_or_lenient_witness :
  _parseColor (obj (lit "#12345")) = Spec.black
  /\ _parseColor (obj (lit "gg00ff"))
     = ParsedColor.new 0 0 255.
Proof.
  split.
  - apply (proj1 (C1_parseColor_black_or_lenient (obj (lit "#12345")))).
    right; right; right. exists (lit "#12345"). split; [reflexivity|].
    vm_compute. discriminate.
  - apply (proj2 (C1_parseColor_black_or_lenient (obj (lit "gg00ff")))
             (lit "gg00ff") eq_refl eq_refl).
Defined.

(** Every result of the parser has integer channels between 0 and 255. *)
Lemma _parseColor_byte_channels (color : ref jsstring) :
  exists x y z : Z,
    (0 <= x <= 255 /\ 0 <= y <= 255 /\ 0 <= z <= 255)
    /\ _parseColor color = ParsedColor.new (inject_Z x) (inject_Z y) (inject_Z z).
Proof.
  assert (Hblack : exists x y z : Z,
             (0 <= x <= 255 /\ 0 <= y <= 255 /\ 0 <= z <= 255)
             /\ Spec.black
                = ParsedColor.new (inject_Z x) (inject_Z y) (inject_Z z)).
  { exists 0, 0, 0. split; [lia | reflexivity]. }
  destruct color as [| |s]; try exact Hblack.
  destruct (Nat.eq_dec (length (Spec.normalized s)) 6%nat) as [Hlen|Hlen].
  - rewrite (_parseColor_six s Hlen). unfold Spec.channels.
    set (d := fun i : nat => Spec.lenientValue (nth i (Spec.normalized s) 0)).
    assert (Hd : forall i, 0 <= d i <= 15) by (intros i; apply lenientValue_range).
    exists (16 * d 0%nat + d 1%nat), (16 * d 2%nat + d 3%nat),
           (16 * d 4%nat + d 5%nat).
    split; [|reflexivity].
    pose proof (Hd 0%nat). pose proof (Hd 1%nat). pose proof (Hd 2%nat).
    pose proof (Hd 3%nat). pose proof (Hd 4%nat). pose proof (Hd 5%nat). lia.
  - rewrite (_parseColor_short s Hlen). exact Hblack.
Qed.

(** A byte is serialized to two digits that read back as the byte. *)
Lemma _toTwoDigitHex_byte (n : Z) :
  0 <= n <= 255 ->
  exists hi lo : Z,
    ParsedColor._toTwoDigitHex (inject_Z n) = [hi; lo]
    /\ 16 * Spec.lenientValue hi + Spec.lenientValue lo = n.
Proof.
  intros Hn.
  pose (p := fun z : Z =>
               match ParsedColor._toTwoDigitHex (inject_Z z) with
               | [hi; lo] => 16 * Spec.lenientValue hi + Spec.lenientValue lo =? z
               | _ => false
               end).
  assert (Hp : p n = true).
  { apply (Z_range_forallb p 0 256); [vm_compute; reflexivity | lia]. }
  unfold p in Hp.
  destruct (ParsedColor._toTwoDigitHex (inject_Z n)) as [|hi [|lo [|]]];
    try discriminate Hp.
  exists hi, lo. split; [reflexivity | now apply Z.eqb_eq].
Qed.

Lemma toCSSHex_parses_back (x y z : Z) :
  0 <= x <= 255 -> 0 <= y <= 255 -> 0 <= z <= 255 ->
  let c := ParsedColor.new (inject_Z x) (inject_Z y) (inject_Z z) in
  _parseColor (obj (ParsedColor.toCSSHex c)) = c.
Proof.
  intros Hx Hy Hz c.
  destruct (_toTwoDigitHex_byte x Hx) as (x1 & x0 & Ex & Vx).
  destruct (_toTwoDigitHex_byte y Hy) as (y1 & y0 & Ey & Vy).
  destruct (_toTwoDigitHex_byte z Hz) as (z1 & z0 & Ez & Vz).
  unfold ParsedColor.toCSSHex, c. cbn [ParsedColor.r ParsedColor.g ParsedColor.b ParsedColor.new].
  rewrite Ex, Ey, Ez.
  change (lit "#" ++ [x1; x0] ++ [y1; y0] ++ [z1; z0])
    with (35 :: [x1; x0; y1; y0; z1; z0]).
  rewrite _parseColor_six by reflexivity.
  unfold Spec.channels, Spec.normalized. cbn [Z.eqb Pos.eqb take firstn nth].
  now rewrite Vx, Vy, Vz.
Qed.

(** Parsing is idempotent through the serialization, for every input. *)
Lemma _parseColor_toCSSHex_idempotent (color : ref jsstring) :
  _parseColor (obj (ParsedColor.toCSSHex (_parseColor color))) = _parseColor color.
Proof.
  destruct (_parseColor_byte_channels color) as (x & y & z & (Hx & Hy & Hz) & ->).
  now apply toCSSHex_parses_back.
Qed.

Lemma sixHexDigits_inv (ds : jsstring) :
  Spec.sixHexDigits ds = true ->
  length ds = 6%nat /\ Forall (fun c => Spec.isHexDigit c = true) ds.
Proof.
  unfold Spec.sixHexDigits. rewrite andb_true_iff, Nat.eqb_eq, forallb_forall.
  intros [Hlen Hall]. split; [exact Hlen|].
  apply List.Forall_forall. exact Hall.
Qed.

Lemma channels_hex (ds : jsstring) :
  Spec.sixHexDigits ds = true ->
  Spec.channels Spec.lenientValue ds = Spec.channels Spec.hexValue ds.
Proof.
  intros Hds. destruct (sixHexDigits_inv ds Hds) as [Hlen Hall].
  destruct ds as [|d0 [|d1 [|d2 [|d3 [|d4 [|d5 [|]]]]]]]; try discriminate Hlen.
  repeat match goal with
         | H : Forall _ (_ :: _) |- _ => inversion H; subst; clear H
         end.
  unfold Spec.channels, Spec.lenientValue; cbn [nth].
  repeat match goal with
         | H : Spec.isHexDigit _ = true |- _ => rewrite H; clear H
         end.
  reflexivity.
Qed.

(** C9: a string of exactly 6 hexadecimal digits d0..d5, with or without a
    leading "#", parses to a colour whose fields are r = 16*hex(d0)+hex(d1),
    g = 16*hex(d2)+hex(d3) and b = 16*hex(d4)+hex(d5); and parsing the
    toCSSHex serialization of the result gives the same r, g and b, indeed
    the same colour, again. *)
Theorem C9_parseColor_hex_decomposition (ds : jsstring) :
  Spec.sixHexDigits ds = true ->
  let hex (i : nat) := Spec.hexValue (nth i ds 0) in
  let decomposed (c : ParsedColor.t) :=
    ParsedColor.r c = inject_Z (16 * hex 0%nat + hex 1%nat)
    /\ ParsedColor.g c = inject_Z (16 * hex 2%nat + hex 3%nat)
    /\ ParsedColor.b c = inject_Z (16 * hex 4%nat + hex 5%nat) in
  let parsed := _parseColor (obj ds) in
  decomposed parsed
  /\ decomposed (_parseColor (obj (lit "#" ++ ds)))
  /\ decomposed (_parseColor (obj (ParsedColor.toCSSHex parsed)))
  /\ _parseColor (obj (lit "#" ++ ds)) = parsed
  /\ _parseColor (obj (ParsedColor.toCSSHex parsed)) = parsed
  /\ parsed = Spec.channels Spec.hexValue ds.
Proof.
  intros Hds hex decomposed parsed.
  destruct (sixHexDigits_inv ds Hds) as [Hlen Hall].
  assert (Htake : take 6 ds = ds) by (apply firstn_all2; lia).
  assert (Hplain : Spec.normalized ds = ds).
  { destruct ds as [|d0 rest]; [reflexivity|].
    unfold Spec.normalized. inversion Hall as [|? ? Hd0 _]; subst.
    destruct (Z.eqb_spec d0 35) as [->|_]; [discriminate Hd0 | exact Htake]. }
  assert (Hhash : Spec.normalized (lit "#" ++ ds) = ds) by exact Htake.
  assert (Hparse : parsed = Spec.channels Spec.hexValue ds).
  { unfold parsed. rewrite <- (channels_hex ds Hds).
    rewrite _parseColor_six; rewrite Hplain; [reflexivity | exact Hlen]. }
  assert (Hprefixed : _parseColor (obj (lit "#" ++ ds)) = parsed).
  { rewrite Hparse, <- (channels_hex ds Hds).
    rewrite _parseColor_six; rewrite Hhash; [reflexivity | exact Hlen]. }
  assert (Hagain : _parseColor (obj (ParsedColor.toCSSHex parsed)) = parsed)
    by apply _parseColor_toCSSHex_idempotent.
  assert (Hfields : decomposed parsed).
  { rewrite Hparse. unfold decomposed, hex, Spec.channels, ParsedColor.new.
    cbn [ParsedColor.r ParsedColor.g ParsedColor.b]. now repeat split. }
  rewrite Hprefixed, Hagain.
  split; [exact Hfields|]. split; [exact Hfields|]. split; [exact Hfields|].
  split; [reflexivity|]. split; [reflexivity | exact Hparse].
Qed.

(** C9 at ["1a2B3c"]: the channels are 26, 43 and 60, with and without the
    "#", and again after the serialization "#1a2b3c". *)
Lemma C9_parseColor_hex_decomposition_witness :
  let parsed := _parseColor (obj (lit "1a2B3c")) in
  let prefixed := _parseColor (obj (lit "#1a2B3c")) in
  let again := _parseColor (obj (ParsedColor.toCSSHex parsed)) in
  (ParsedColor.r parsed = 26%Q /\ ParsedColor.g parsed = 43%Q
   /\ ParsedColor.b parsed = 60%Q)
  /\ (ParsedColor.r prefixed = 26%Q /\ ParsedColor.g prefixed = 43%Q
      /\ ParsedColor.b prefixed = 60%Q)
  /\ (ParsedColor.r again = 26%Q /\ ParsedColor.g again = 43%Q
      /\ ParsedColor.b again = 60%Q)
  /\ ParsedColor.toCSSHex parsed = lit "#1a2b3c".
Proof.
  intros parsed prefixed again.
  pose proof (C9_parseColor_hex_decomposition (lit "1a2B3c") eq_refl)
    as (Hparsed & Hprefixed & Hagain & _).
  split; [exact Hparsed|]. split; [exact Hprefixed|]. split; [exact Hagain|].
  reflexivity.
Defined.

(** ** [MinimapTokensColorTracker]: the colour table *)

Lemma arraySet_at_end {A : Type} (a : list (ref A)) (v : ref A) :
  arraySet a (length a) v = a ++ [v].
Proof.
  unfold arraySet. rewrite Nat.ltb_irrefl, Nat.sub_diag. reflexivity.
Qed.

Lemma _setColorMap_loop_appends {Color : Type} (toRGBA : Color -> RGBA)
    (colorMap : list Color) (n colorId : nat) (colors : list (ref ParsedColor.t)) :
  length colors = colorId ->
  (colorId + n)%nat = length colorMap ->
  _setColorMap_loop toRGBA colorMap colorId n colors
  = colors
    ++ map (fun entry =>
              obj (ParsedColor.new (inject_Z (rgba_r (toRGBA entry)))
                                   (inject_Z (rgba_g (toRGBA entry)))
                                   (inject_Z (rgba_b (toRGBA entry)))))
           (drop colorId colorMap).
Proof.
  revert colorId colors.
  induction n as [|n IH]; intros colorId colors Hlen Hsum; cbn [_setColorMap_loop].
  - rewrite drop_ge by lia. now rewrite app_nil_r.
  - destruct (colorMap !! colorId) as [entry|] eqn:Hentry.
    + subst colorId. rewrite arraySet_at_end.
      rewrite IH; [|rewrite length_app; cbn; lia|lia].
      rewrite (drop_S colorMap entry (length colors) Hentry). cbn [map].
      now rewrite <- app_assoc.
    + apply lookup_ge_None in Hentry. lia.
Qed.

(** The table built by [_setColorMap]: [null] at identifier 0, then one
    colour for each entry of the colour map after the first. *)
Lemma _setColorMap_table {Color : Type} (toRGBA : Color -> RGBA)
    (this : t) (colorMap : list Color) :
  _colors (_setColorMap toRGBA this colorMap)
  = null
    :: map (fun entry =>
              obj (ParsedColor.new (inject_Z (rgba_r (toRGBA entry)))
                                   (inject_Z (rgba_g (toRGBA entry)))
                                   (inject_Z (rgba_b (toRGBA entry)))))
           (drop 1 colorMap).
Proof.
  unfold _setColorMap; cbn [_colors].
  destruct colorMap as [|first rest]; [reflexivity|].
  rewrite _setColorMap_loop_appends; [reflexivity | reflexivity | cbn; lia].
Qed.

(** C4: for every colour table and every colorId below 1 or at least the
    length of the table, getColor returns the entry at the background
    identifier 2; for 1 <= colorId < length it returns the entry at colorId. *)
Theorem C4_getColor_clamps_to_background (this : t) (colorId : Z) :
  ((colorId < 1 \/ colorId >= Z.of_nat (length (_colors this)))
   -> getColor this colorId = index (_colors this) 2)
  /\ (1 <= colorId < Z.of_nat (length (_colors this))
      -> getColor this colorId = index (_colors this) colorId
         /\ _colors this !! Z.to_nat colorId = Some (getColor this colorId)).
Proof.
  unfold getColor. split.
  - intros Hout.
    replace ((colorId <? 1) || (colorId >=? Z.of_nat (length (_colors this))))
      with true; [reflexivity|].
    symmetry. apply orb_true_iff. destruct Hout; [left|right]; lia.
  - intros Hin.
    replace ((colorId <? 1) || (colorId >=? Z.of_nat (length (_colors this))))
      with false by (symmetry; apply orb_false_iff; split; lia).
    split; [reflexivity|].
    unfold index. replace (colorId <? 0) with false by lia.
    destruct (lookup_lt_is_Some_2 (_colors this) (Z.to_nat colorId)) as [v Hv];
      [lia|].
    now rewrite Hv.
Qed.

(** C4 on the table of a three-colour map: identifiers 0, 3 and -1 give the
    colour at 2, identifier 1 gives its own. *)
Lemma C4_getColor_clamps_to_background_witness :
  let toRGBA (v : Z) := {| rgba_r := v; rgba_g := v; rgba_b := v; rgba_a := 255 |} in
  let this := _setColorMap toRGBA (mk [] 0) [0; 10; 200] in
  getColor this 0 = obj (ParsedColor.new 200 200 200)
  /\ getColor this 3 = obj (ParsedColor.new 200 200 200)
  /\ getColor this (-1) = obj (ParsedColor.new 200 200 200)
  /\ getColor this 1 = obj (ParsedColor.new 10 10 10).
Proof.
  intros toRGBA this. split; [|split; [|split]].
  - apply (proj1 (C4_getColor_clamps_to_background this 0)). left. reflexivity.
  - apply (proj1 (C4_getColor_clamps_to_background this 3)). right. vm_compute.
    discriminate.
  - apply (proj1 (C4_getColor_clamps_to_background this (-1))). left. reflexivity.
  - apply (proj2 (C4_getColor_clamps_to_background this 1)). vm_compute.
    split; [discriminate | reflexivity].
Defined.

(** ** Typed arrays *)

Lemma length_typedSet (a : list Z) (i : Z) (x : number) :
  length (typedSet a i x) = length a.
Proof.
  unfold typedSet. destruct (i <? 0); [reflexivity | apply length_insert].
Qed.

Lemma typedGet_typedSet_eq (a : list Z) (i : Z) (x : number) :
  0 <= i < Z.of_nat (length a) ->
  typedGet (typedSet a i x) i = Some (toUint8Clamp x).
Proof.
  intros Hi. unfold typedGet, typedSet.
  replace (i <? 0) with false by lia.
  apply list_lookup_insert_eq. lia.
Qed.

Lemma typedGet_typedSet_ne (a : list Z) (i k : Z) (x : number) :
  k <> i -> typedGet (typedSet a i x) k = typedGet a k.
Proof.
  intros Hne. unfold typedGet, typedSet.
  destruct (Z.ltb_spec k 0); [reflexivity|].
  destruct (Z.ltb_spec i 0); [reflexivity|].
  apply list_lookup_insert_ne. lia.
Qed.

Lemma typedSet_outside (a : list Z) (i : Z) (x : number) :
  i < 0 \/ Z.of_nat (length a) <= i -> typedSet a i x = a.
Proof.
  intros Hi. unfold typedSet.
  destruct (Z.ltb_spec i 0); [reflexivity|].
  apply list_insert_ge. lia.
Qed.

Lemma typedGet_ext (a a' : list Z) :
  length a = length a' ->
  (forall k, typedGet a k = typedGet a' k) -> a = a'.
Proof.
  intros Hlen Hget. apply list_eq. intros i.
  specialize (Hget (Z.of_nat i)). unfold typedGet in Hget.
  destruct (Z.ltb_spec (Z.of_nat i) 0) as [Hneg|_]; [lia|].
  now rewrite Nat2Z.id in Hget.
Qed.

(** The stored byte: between 0 and 255, and within one half of a value
    that already lies between 0 and 255. *)
Lemma toUint8Clamp_byte (x : number) : 0 <= toUint8Clamp x <= 255.
Proof.
  destruct x as [|s|q]; cbn; [lia | destruct s; lia |].
  destruct (Qle_bool q 0) eqn:H0; [lia|].
  destruct (Qle_bool 255 q) eqn:H255; [lia|].
  apply not_true_iff_false in H0, H255. rewrite Qle_bool_iff in H0, H255.
  apply Qnot_le_lt in H0, H255.
  assert (Hlo : 0 <= Qfloor q).
  { apply (Qfloor_resp_le 0 q), Qlt_le_weak, H0. }
  assert (Hhi : Qfloor q < 255).
  { destruct (Z_lt_le_dec (Qfloor q) 255) as [Hlt|Hge]; [exact Hlt|].
    exfalso. apply (Qlt_not_le _ _ H255).
    apply Qle_trans with (inject_Z (Qfloor q)); [|apply Qfloor_le].
    change 255%Q with (inject_Z 255). rewrite <- Zle_Qle. exact Hge. }
  destruct (Qgtb q (inject_Z (Qfloor q) + 0.5)); [lia|].
  destruct (Qgtb (inject_Z (Qfloor q) + 0.5) q); [lia|].
  destruct (Z.even (Qfloor q)); lia.
Qed.

Lemma toUint8Clamp_nearest (q : Q) :
  (0 <= q <= 255)%Q ->
  (Qabs (inject_Z (toUint8Clamp (Finite q)) - q) <= 0.5)%Q.
Proof.
  intros [Hq0 Hq255]. unfold toUint8Clamp.
  pose proof (Qfloor_le q) as Hfl. pose proof (Qlt_floor q) as Hfu.
  rewrite inject_Z_plus in Hfu. change (inject_Z 1) with 1%Q in Hfu.
  set (f := Qfloor q) in *.
  apply (proj2 (Qabs_Qle_condition _ _)).
  destruct (Qle_bool q 0) eqn:H0.
  { apply Qle_bool_iff in H0. change (inject_Z 0) with 0%Q. split; lra. }
  destruct (Qle_bool 255 q) eqn:H255.
  { apply Qle_bool_iff in H255. change (inject_Z 255) with 255%Q. split; lra. }
  destruct (Qgtb q (inject_Z f + 0.5)) eqn:Hup.
  { apply Qgtb_lt in Hup. rewrite inject_Z_plus. change (inject_Z 1) with 1%Q.
    split; lra. }
  apply Qgtb_false_le in Hup.
  destruct (Qgtb (inject_Z f + 0.5) q) eqn:Hdown.
  { split; lra. }
  apply Qgtb_false_le in Hdown.
  destruct (Z.even f).
  - split; lra.
  - rewrite inject_Z_plus. change (inject_Z 1) with 1%Q. split; lra.
Qed.

(** ** [MinimapCharRenderer]: the rendering methods *)

Import MinimapCharRenderer.

Lemma typedGet_typedSet (a : list Z) (i k : Z) (x : number) :
  typedGet (typedSet a i x) k
  = if (k =? i) && ((0 <=? i) && (i <? Z.of_nat (length a)))
    then Some (toUint8Clamp x) else typedGet a k.
Proof.
  destruct (Z.eqb_spec k i) as [->|Hne]; cbn [andb].
  - destruct (Z.leb_spec 0 i), (Z.ltb_spec i (Z.of_nat (length a))); cbn [andb];
      try (rewrite typedSet_outside by lia; reflexivity).
    apply typedGet_typedSet_eq. lia.
  - now apply typedGet_typedSet_ne.
Qed.

Lemma blend_interpolates (background foreground : Q) (sample : option Z) :
  blend background (foreground - background) (div255 sample)
  = Spec.interpolate background foreground sample.
Proof. destruct sample; reflexivity. Qed.

(** Decides the tests that a chain of stores leaves in a read. *)
Ltac decide_stores :=
  repeat match goal with
         | |- context [Z.eqb ?a ?b] => replace (Z.eqb a b) with false by lia
         end;
  try match goal with
      | |- context [Z.eqb ?a ?b] => replace (Z.eqb a b) with true by lia
      end;
  cbn [andb];
  repeat match goal with
         | |- context [Z.leb ?a ?b] => replace (Z.leb a b) with true by lia
         | |- context [Z.ltb ?a ?b] => replace (Z.ltb a b) with true by lia
         end;
  cbn [andb].

Lemma x1RenderChar_rejects (this : MinimapCharRenderer.t) (target : ImageData)
    (dx dy chCode : Z) (color backgroundColor : ParsedColor.t) :
  dx + 1 > width target \/ dy + 2 > height target ->
  x1RenderChar this target dx dy chCode color backgroundColor
  = Spec.rejected target.
Proof.
  intros Hout. unfold x1RenderChar, Constants.x1_CHAR_WIDTH, Constants.x1_CHAR_HEIGHT.
  replace ((dx + 1 >? width target) || (dy + 2 >? height target)) with true;
    [reflexivity|].
  symmetry. apply orb_true_iff. destruct Hout; [left|right]; lia.
Qed.

Lemma x2RenderChar_rejects (this : MinimapCharRenderer.t) (target : ImageData)
    (dx dy chCode : Z) (color backgroundColor : ParsedColor.t) :
  dx + 2 > width target \/ dy + 4 > height target ->
  x2RenderChar this target dx dy chCode color backgroundColor
  = Spec.rejected target.
Proof.
  intros Hout. unfold x2RenderChar, Constants.x2_CHAR_WIDTH, Constants.x2_CHAR_HEIGHT.
  replace ((dx + 2 >? width target) || (dy + 4 >? height target)) with true;
    [reflexivity|].
  symmetry. apply orb_true_iff. destruct Hout; [left|right]; lia.
Qed.

Section X1.
Variables (this : MinimapCharRenderer.t) (target : ImageData).
Variables (dx dy chCode : Z) (color backgroundColor : ParsedColor.t).
Hypothesis Hwidth : dx + 1 <= width target.
Hypothesis Hheight : dy + 2 <= height target.

Let out : ImageData :=
  fst (x1RenderChar this target dx dy chCode color backgroundColor).
Let atlas : list Z :=
  if ParsedColor.isLight backgroundColor then x1charDataLight this
  else x1charData this.
Let value (row ch : Z) : number :=
  Spec.interpolate (Spec.channel ch backgroundColor) (Spec.channel ch color)
    (typedGet atlas (_getChIndex chCode * 2 * 1 + row)).
Let offset (row ch : Z) : Z :=
  dy * (width target * 4) + dx * 4 + row * (width target * 4) + ch.

Lemma x1RenderChar_accepts :
  snd (x1RenderChar this target dx dy chCode color backgroundColor) = []
  /\ width out = width target /\ height out = height target
  /\ length (data out) = length (data target).
Proof.
  unfold out, x1RenderChar, Constants.x1_CHAR_WIDTH, Constants.x1_CHAR_HEIGHT.
  replace ((dx + 1 >? width target) || (dy + 2 >? height target)) with false
    by (symmetry; apply orb_false_iff; split; lia).
  cbn [fst snd width height data]. rewrite !length_typedSet. auto.
Qed.

(** The buffer after an accepted call: six stores, in the order of the
    source. *)
Lemma x1RenderChar_data :
  let d := dy * (width target * 4) + dx * 4 in
  let ow := width target * 4 in
  let src := _getChIndex chCode * 2 * 1 in
  let v (n : Z) (ch : Z) :=
    Spec.interpolate (Spec.channel ch backgroundColor) (Spec.channel ch color)
      (typedGet atlas n) in
  data out
  = typedSet (typedSet (typedSet (typedSet (typedSet (typedSet (data target)
      (d + 0) (v src 0)) (d + 1) (v src 1)) (d + 2) (v src 2))
      (d + ow + 0) (v (src + 1) 0)) (d + ow + 1) (v (src + 1) 1))
      (d + ow + 2) (v (src + 1) 2).
Proof.
  unfold out, x1RenderChar, Constants.x1_CHAR_WIDTH, Constants.x1_CHAR_HEIGHT,
    Constants.RGBA_CHANNELS_CNT.
  replace ((dx + 1 >? width target) || (dy + 2 >? height target)) with false
    by (symmetry; apply orb_false_iff; split; lia).
  cbv zeta. cbn [fst data]. fold atlas.
  rewrite !blend_interpolates. reflexivity.
Qed.

(** A store of an accepted call lands at the offset computed from [dx] and
    [dy], whenever that offset lies in the buffer. *)
Lemma x1RenderChar_lands (row ch : Z) :
  1 <= width target ->
  0 <= row < 2 -> 0 <= ch < 3 ->
  0 <= offset row ch < Z.of_nat (length (data target)) ->
  typedGet (data out) (offset row ch) = Some (toUint8Clamp (value row ch)).
Proof.
  intros Hw Hrow Hch. unfold offset, value.
  rewrite x1RenderChar_data. cbv zeta.
  rewrite !typedGet_typedSet, !length_typedSet.
  set (w := width target) in *. set (len := Z.of_nat (length (data target))).
  set (src := _getChIndex chCode * 2 * 1).
  assert (Hcases : (row = 0 \/ row = 1) /\ (ch = 0 \/ ch = 1 \/ ch = 2)) by lia.
  destruct Hcases as [[-> | ->] [-> | [-> | ->]]]; intros Hin;
    decide_stores; rewrite ?Z.add_0_r; reflexivity.
Qed.

(** Every other byte of the buffer is left as it was. *)
Lemma x1RenderChar_frame (k : Z) :
  (forall row ch, 0 <= row < 2 -> 0 <= ch < 3 -> k <> offset row ch) ->
  typedGet (data out) k = typedGet (data target) k.
Proof.
  intros Hk. unfold offset in Hk.
  pose proof (Hk 0 0). pose proof (Hk 0 1). pose proof (Hk 0 2).
  pose proof (Hk 1 0). pose proof (Hk 1 1). pose proof (Hk 1 2).
  rewrite x1RenderChar_data. cbv zeta.
  rewrite !typedGet_typedSet_ne by lia. reflexivity.
Qed.

End X1.

Section X2.
Variables (this : MinimapCharRenderer.t) (target : ImageData).
Variables (dx dy chCode : Z) (color backgroundColor : ParsedColor.t).
Hypothesis Hwidth : dx + 2 <= width target.
Hypothesis Hheight : dy + 4 <= height target.

Let out : ImageData :=
  fst (x2RenderChar this target dx dy chCode color backgroundColor).
Let atlas : list Z :=
  if ParsedColor.isLight backgroundColor then x2charDataLight this
  else x2charData this.
Let value (row col ch : Z) : number :=
  Spec.interpolate (Spec.channel ch backgroundColor) (Spec.channel ch color)
    (typedGet atlas (_getChIndex chCode * 4 * 2 + (row * 2 + col))).
Let offset (row col ch : Z) : Z :=
  dy * (width target * 4) + dx * 4 + row * (width target * 4) + col * 4 + ch.

Lemma x2RenderChar_accepts :
  snd (x2RenderChar this target dx dy chCode color backgroundColor) = []
  /\ width out = width target /\ height out = height target
  /\ length (data out) = length (data target).
Proof.
  unfold out, x2RenderChar, Constants.x2_CHAR_WIDTH, Constants.x2_CHAR_HEIGHT.
  replace ((dx + 2 >? width target) || (dy + 4 >? height target)) with false
    by (symmetry; apply orb_false_iff; split; lia).
  cbn [fst snd width height data]. rewrite !length_typedSet. auto.
Qed.

(** The buffer after an accepted call: twenty-four stores, in the order of
    the source. *)
Lemma x2RenderChar_data :
  let d := dy * (width target * 4) + dx * 4 in
  let ow := width target * 4 in
  let src := _getChIndex chCode * 4 * 2 in
  let v (n : Z) (ch : Z) :=
    Spec.interpolate (Spec.channel ch backgroundColor) (Spec.channel ch color)
      (typedGet atlas n) in
  data out
  = typedSet (typedSet (typedSet (typedSet (typedSet (typedSet (typedSet (typedSet (typedSet (typedSet (typedSet (typedSet (typedSet (typedSet (typedSet (typedSet (typedSet (typedSet (typedSet (typedSet (typedSet (typedSet (typedSet (typedSet (data target)
      (d + 0) (v src 0))
      (d + 1) (v src 1))
      (d + 2) (v src 2))
      (d + 4) (v (src + 1) 0))
      (d + 5) (v (src + 1) 1))
      (d + 6) (v (src + 1) 2))
      (d + ow + 0) (v (src + 2) 0))
      (d + ow + 1) (v (src + 2) 1))
      (d + ow + 2) (v (src + 2) 2))
      (d + ow + 4) (v (src + 3) 0))
      (d + ow + 5) (v (src + 3) 1))
      (d + ow + 6) (v (src + 3) 2))
      (d + ow + ow + 0) (v (src + 4) 0))
      (d + ow + ow + 1) (v (src + 4) 1))
      (d + ow + ow + 2) (v (src + 4) 2))
      (d + ow + ow + 4) (v (src + 5) 0))
      (d + ow + ow + 5) (v (src + 5) 1))
      (d + ow + ow + 6) (v (src + 5) 2))
      (d + ow + ow + ow + 0) (v (src + 6) 0))
      (d + ow + ow + ow + 1) (v (src + 6) 1))
      (d + ow + ow + ow + 2) (v (src + 6) 2))
      (d + ow + ow + ow + 4) (v (src + 7) 0))
      (d + ow + ow + ow + 5) (v (src + 7) 1))
      (d + ow + ow + ow + 6) (v (src + 7) 2).
Proof.
  unfold out, x2RenderChar, Constants.x2_CHAR_WIDTH, Constants.x2_CHAR_HEIGHT,
    Constants.RGBA_CHANNELS_CNT.
  replace ((dx + 2 >? width target) || (dy + 4 >? height target)) with false
    by (symmetry; apply orb_false_iff; split; lia).
  cbv zeta. cbn [fst data]. fold atlas.
  rewrite !blend_interpolates. reflexivity.
Qed.

Lemma x2RenderChar_lands (row col ch : Z) :
  2 <= width target ->
  0 <= row < 4 -> 0 <= col < 2 -> 0 <= ch < 3 ->
  0 <= offset row col ch < Z.of_nat (length (data target)) ->
  typedGet (data out) (offset row col ch)
  = Some (toUint8Clamp (value row col ch)).
Proof.
  intros Hw Hrow Hcol Hch. unfold offset, value.
  rewrite x2RenderChar_data. cbv zeta.
  rewrite !typedGet_typedSet, !length_typedSet.
  set (w := width target) in *. set (len := Z.of_nat (length (data target))).
  set (src := _getChIndex chCode * 4 * 2).
  assert (Hcases : (row = 0 \/ row = 1 \/ row = 2 \/ row = 3)
                   /\ (col = 0 \/ col = 1) /\ (ch = 0 \/ ch = 1 \/ ch = 2))
    by lia.
  destruct Hcases as [[-> | [-> | [-> | ->]]] [[-> | ->] [-> | [-> | ->]]]];
    intros Hin; decide_stores; rewrite ?Z.add_0_r; reflexivity.
Qed.

Lemma x2RenderChar_frame (k : Z) :
  (forall row col ch,
      0 <= row < 4 -> 0 <= col < 2 -> 0 <= ch < 3 -> k <> offset row col ch) ->
  typedGet (data out) k = typedGet (data target) k.
Proof.
  intros Hk. unfold offset in Hk.
    pose proof (Hk 0 0 0). pose proof (Hk 0 0 1). pose proof (Hk 0 0 2).
  pose proof (Hk 0 1 0). pose proof (Hk 0 1 1). pose proof (Hk 0 1 2).
  pose proof (Hk 1 0 0). pose proof (Hk 1 0 1). pose proof (Hk 1 0 2).
  pose proof (Hk 1 1 0). pose proof (Hk 1 1 1). pose proof (Hk 1 1 2).
  pose proof (Hk 2 0 0). pose proof (Hk 2 0 1). pose proof (Hk 2 0 2).
  pose proof (Hk 2 1 0). pose proof (Hk 2 1 1). pose proof (Hk 2 1 2).
  pose proof (Hk 3 0 0). pose proof (Hk 3 0 1). pose proof (Hk 3 0 2).
  pose proof (Hk 3 1 0). pose proof (Hk 3 1 1). pose proof (Hk 3 1 2).
  rewrite x2RenderChar_data. cbv zeta.
  rewrite !typedGet_typedSet_ne by lia. reflexivity.
Qed.

End X2.

(** The alpha bytes are untouched by every call, accepted or not. *)
Lemma x1RenderChar_alpha (this : MinimapCharRenderer.t) (target : ImageData)
    (dx dy chCode : Z) (color backgroundColor : ParsedColor.t) (k : Z) :
  k mod 4 = 3 ->
  typedGet (data (fst (x1RenderChar this target dx dy chCode color backgroundColor))) k
  = typedGet (data target) k.
Proof.
  intros Hk.
  destruct (Z_le_gt_dec (dx + 1) (width target)) as [Hw|Hw];
    [destruct (Z_le_gt_dec (dy + 2) (height target)) as [Hh|Hh]|].
  - apply x1RenderChar_frame; [exact Hw | exact Hh|].
    intros row ch Hrow Hch. Z.div_mod_to_equations. lia.
  - rewrite x1RenderChar_rejects by auto. reflexivity.
  - rewrite x1RenderChar_rejects by auto. reflexivity.
Qed.

Lemma x2RenderChar_alpha (this : MinimapCharRenderer.t) (target : ImageData)
    (dx dy chCode : Z) (color backgroundColor : ParsedColor.t) (k : Z) :
  k mod 4 = 3 ->
  typedGet (data (fst (x2RenderChar this target dx dy chCode color backgroundColor))) k
  = typedGet (data target) k.
Proof.
  intros Hk.
  destruct (Z_le_gt_dec (dx + 2) (width target)) as [Hw|Hw];
    [destruct (Z_le_gt_dec (dy + 4) (height target)) as [Hh|Hh]|].
  - apply x2RenderChar_frame; [exact Hw | exact Hh|].
    intros row col ch Hrow Hcol Hch. Z.div_mod_to_equations. lia.
  - rewrite x2RenderChar_rejects by auto. reflexivity.
  - rewrite x2RenderChar_rejects by auto. reflexivity.
Qed.

(** ** [MinimapCharRenderer]: construction *)

Lemma soften_loop_maps (input : list Z) (ratio : Q) (n i : nat) (result : list Z) :
  length result = length input ->
  (i + n)%nat = length input ->
  soften_loop input ratio i n result
  = take i result
    ++ map (fun v => toUint8Clamp (Finite (inject_Z v * ratio))) (drop i input).
Proof.
  revert i result. induction n as [|n IH]; intros i result Hlen Hsum;
    cbn [soften_loop].
  - rewrite drop_ge by lia. rewrite take_ge by lia. now rewrite app_nil_r.
  - destruct (lookup_lt_is_Some_2 input i) as [v Hv]; [lia|].
    unfold typedGet, typedSet.
    destruct (Z.ltb_spec (Z.of_nat i) 0) as [Hneg|_]; [lia|].
    rewrite Nat2Z.id, Hv.
    rewrite IH; [|rewrite length_insert; exact Hlen | lia].
    rewrite (drop_S input v i Hv). cbn [map].
    rewrite (take_S_r _ i (toUint8Clamp (Finite (inject_Z v * ratio)))).
    + rewrite take_insert_ge by lia. now rewrite <- app_assoc.
    + apply list_lookup_insert_eq. lia.
Qed.

(** [soften] scales every sample by the ratio and stores it as a byte. *)
Lemma soften_maps (input : list Z) (ratio : Q) :
  soften input ratio
  = map (fun v => toUint8Clamp (Finite (inject_Z v * ratio))) input.
Proof.
  unfold soften. rewrite soften_loop_maps; [reflexivity | | reflexivity].
  apply length_replicate.
Qed.

Lemma length_soften (input : list Z) (ratio : Q) :
  length (soften input ratio) = length input.
Proof. rewrite soften_maps. apply length_map. Qed.

(** What the constructor accepts, and the renderer it builds. *)
Lemma new_Normal (x2CharData x1CharData : list Z) (this : MinimapCharRenderer.t) :
  MinimapCharRenderer.new x2CharData x1CharData = Normal this ->
  length x2CharData = 760%nat /\ length x1CharData = 190%nat
  /\ this = {| x2charData := x2CharData;
               x1charData := x1CharData;
               x2charDataLight := soften x2CharData (12 / 15);
               x1charDataLight := soften x1CharData (50 / 60) |}.
Proof.
  unfold MinimapCharRenderer.new.
  change (Constants.x2_CHAR_HEIGHT * Constants.x2_CHAR_WIDTH * Constants.CHAR_COUNT)
    with 760.
  change (Constants.x1_CHAR_HEIGHT * Constants.x1_CHAR_WIDTH * Constants.CHAR_COUNT)
    with 190.
  destruct (Z.eqb_spec (Z.of_nat (length x2CharData)) 760) as [H2|_];
    [|discriminate].
  destruct (Z.eqb_spec (Z.of_nat (length x1CharData)) 190) as [H1|_];
    [|discriminate].
  cbn [negb]. intros [= <-]. repeat split; lia.
Qed.

Lemma new_Throw (x2CharData x1CharData : list Z) :
  (length x2CharData <> 760%nat \/ length x1CharData <> 190%nat)
  <-> exists message, MinimapCharRenderer.new x2CharData x1CharData = Throw message.
Proof.
  unfold MinimapCharRenderer.new.
  change (Constants.x2_CHAR_HEIGHT * Constants.x2_CHAR_WIDTH * Constants.CHAR_COUNT)
    with 760.
  change (Constants.x1_CHAR_HEIGHT * Constants.x1_CHAR_WIDTH * Constants.CHAR_COUNT)
    with 190.
  destruct (Z.eqb_spec (Z.of_nat (length x2CharData)) 760) as [H2|H2];
    destruct (Z.eqb_spec (Z.of_nat (length x1CharData)) 190) as [H1|H1];
    cbn [negb]; split; try (intros _; eauto; (left + right); lia).
  - intros [?|?]; lia.
  - intros [message [=]].
Qed.

(** ** [MinimapCharRenderer._getChIndex] *)

Lemma _getChIndex_wraps (chCode : Z) :
  0 <= chCode -> _getChIndex chCode = Spec.glyphIndex chCode.
Proof.
  intros Hc. unfold _getChIndex, Spec.glyphIndex, Constants.CHAR_COUNT,
    Constants.START_CH_CODE, Constants.END_CH_CODE.
  change (126 - 32 + 1) with 95.
  destruct (Z.ltb_spec (chCode - 32) 0) as [Hlt|Hge].
  - rewrite Z.rem_mod_nonneg by lia.
    rewrite <- (Z_mod_plus_full (chCode - 32) 1 95). f_equal; lia.
  - now rewrite Z.rem_mod_nonneg by lia.
Qed.

Lemma glyphIndex_range (chCode : Z) : 0 <= Spec.glyphIndex chCode < 95.
Proof. apply Z.mod_pos_bound. reflexivity. Qed.

(** ** Rendering inside the target *)

Lemma x2RenderChar_pixel (this : MinimapCharRenderer.t) (target : ImageData)
    (dx dy chCode : Z) (color backgroundColor : ParsedColor.t) (col row ch : Z) :
  Spec.wellFormed target -> 0 <= dx -> 0 <= dy ->
  dx + 2 <= width target -> dy + 4 <= height target ->
  0 <= col < 2 -> 0 <= row < 4 -> 0 <= ch < 3 ->
  Spec.pixelByte (fst (x2RenderChar this target dx dy chCode color backgroundColor))
    (dx + col) (dy + row) ch
  = Some (toUint8Clamp
            (Spec.interpolate (Spec.channel ch backgroundColor)
               (Spec.channel ch color)
               (typedGet
                  (if ParsedColor.isLight backgroundColor
                   then x2charDataLight this else x2charData this)
                  (_getChIndex chCode * 4 * 2 + (row * 2 + col))))).
Proof.
  intros (Hw0 & Hh0 & Hlen) Hdx Hdy Hw Hh Hcol Hrow Hch.
  destruct (x2RenderChar_accepts this target dx dy chCode color backgroundColor
              Hw Hh) as (_ & Hwidth & _ & _).
  unfold Spec.pixelByte, Spec.byteOffset. rewrite Hwidth.
  replace (((dy + row) * width target + (dx + col)) * 4 + ch)
    with (dy * (width target * 4) + dx * 4 + row * (width target * 4) + col * 4 + ch)
    by ring.
  apply x2RenderChar_lands; try assumption; [lia|].
  rewrite Hlen.
  assert (0 <= (dy + row) * width target) by nia.
  assert ((dy + row + 1) * width target <= height target * width target) by nia.
  lia.
Qed.

Lemma x1RenderChar_pixel (this : MinimapCharRenderer.t) (target : ImageData)
    (dx dy chCode : Z) (color backgroundColor : ParsedColor.t) (row ch : Z) :
  Spec.wellFormed target -> 0 <= dx -> 0 <= dy ->
  dx + 1 <= width target -> dy + 2 <= height target ->
  0 <= row < 2 -> 0 <= ch < 3 ->
  Spec.pixelByte (fst (x1RenderChar this target dx dy chCode color backgroundColor))
    dx (dy + row) ch
  = Some (toUint8Clamp
            (Spec.interpolate (Spec.channel ch backgroundColor)
               (Spec.channel ch color)
               (typedGet
                  (if ParsedColor.isLight backgroundColor
                   then x1charDataLight this else x1charData this)
                  (_getChIndex chCode * 2 * 1 + row)))).
Proof.
  intros (Hw0 & Hh0 & Hlen) Hdx Hdy Hw Hh Hrow Hch.
  destruct (x1RenderChar_accepts this target dx dy chCode color backgroundColor
              Hw Hh) as (_ & Hwidth & _ & _).
  unfold Spec.pixelByte, Spec.byteOffset. rewrite Hwidth.
  replace (((dy + row) * width target + dx) * 4 + ch)
    with (dy * (width target * 4) + dx * 4 + row * (width target * 4) + ch)
    by ring.
  apply x1RenderChar_lands; try assumption; [lia|].
  rewrite Hlen.
  assert (0 <= (dy + row) * width target) by nia.
  assert ((dy + row + 1) * width target <= height target * width target) by nia.
  lia.
Qed.

(** A pixel outside the rectangle of the character keeps all its bytes. *)
Lemma x2RenderChar_outside (this : MinimapCharRenderer.t) (target : ImageData)
    (dx dy chCode : Z) (color backgroundColor : ParsedColor.t) (x y ch : Z) :
  0 <= x < width target -> 0 <= ch < 4 ->
  0 <= dx -> dx + 2 <= width target -> dy + 4 <= height target ->
  ~ (dx <= x < dx + 2 /\ dy <= y < dy + 4) ->
  Spec.pixelByte (fst (x2RenderChar this target dx dy chCode color backgroundColor))
    x y ch
  = Spec.pixelByte target x y ch.
Proof.
  intros Hx Hc Hdx Hw Hh Hout.
  destruct (x2RenderChar_accepts this target dx dy chCode color backgroundColor
              Hw Hh) as (_ & Hwidth & _ & _).
  unfold Spec.pixelByte, Spec.byteOffset. rewrite Hwidth.
  apply x2RenderChar_frame; try assumption.
  intros row col ch' Hrow Hcol Hch' Heq.
  assert (Hpix : y * width target + x = (dy + row) * width target + (dx + col))
    by lia.
  assert (Hy : y = dy + row) by nia.
  subst y. apply Hout. lia.
Qed.

Lemma x1RenderChar_outside (this : MinimapCharRenderer.t) (target : ImageData)
    (dx dy chCode : Z) (color backgroundColor : ParsedColor.t) (x y ch : Z) :
  0 <= x < width target -> 0 <= ch < 4 ->
  0 <= dx -> dx + 1 <= width target -> dy + 2 <= height target ->
  ~ (x = dx /\ dy <= y < dy + 2) ->
  Spec.pixelByte (fst (x1RenderChar this target dx dy chCode color backgroundColor))
    x y ch
  = Spec.pixelByte target x y ch.
Proof.
  intros Hx Hc Hdx Hw Hh Hout.
  destruct (x1RenderChar_accepts this target dx dy chCode color backgroundColor
              Hw Hh) as (_ & Hwidth & _ & _).
  unfold Spec.pixelByte, Spec.byteOffset. rewrite Hwidth.
  apply x1RenderChar_frame; try assumption.
  intros row ch' Hrow Hch' Heq.
  assert (Hpix : y * width target + x = (dy + row) * width target + dx) by lia.
  assert (Hy : y = dy + row) by nia.
  subst y. apply Hout. lia.
Qed.

(** For a character code that is not negative, the samples of a constructed
    renderer are in the atlas. *)
Lemma atlas_sample_defined (a : list Z) (chCode size n : Z) :
  Z.of_nat (length a) = 95 * size -> 0 <= chCode -> 0 <= n < size ->
  exists intensity, typedGet a (Spec.glyphIndex chCode * size + n) = Some intensity.
Proof.
  intros Hlen Hc Hn. pose proof (glyphIndex_range chCode) as Hg.
  unfold typedGet.
  destruct (Z.ltb_spec (Spec.glyphIndex chCode * size + n) 0) as [Hneg|_]; [nia|].
  apply lookup_lt_is_Some_2. nia.
Qed.

(** ** Bytes: the atlases and the colours *)

Lemma lookup_map {A B : Type} (f : A -> B) (l : list A) (i : nat) :
  map f l !! i = option_map f (l !! i).
Proof.
  revert i. induction l as [|a l IH]; intros [|i]; cbn; try reflexivity.
  apply IH.
Qed.

Lemma interpolate_within (cb cf v : Z) :
  0 <= v <= 255 ->
  (inject_Z (Z.min cb cf)
   <= inject_Z cb + (inject_Z cf - inject_Z cb) * (inject_Z v / 255)
   <= inject_Z (Z.max cb cf))%Q.
Proof.
  intros Hv.
  unfold Qle, Qplus, Qminus, Qmult, Qdiv, Qinv, Qopp, inject_Z. cbn.
  destruct (Z.le_ge_cases cb cf) as [Hle|Hge].
  - rewrite Z.min_l, Z.max_r by lia. split; nia.
  - rewrite Z.min_r, Z.max_l by lia. split; nia.
Qed.

Lemma byteColor_channel (c : ParsedColor.t) (ch : Z) :
  Notion.byteColor c ->
  exists z, 0 <= z <= 255 /\ Spec.channel ch c = inject_Z z.
Proof.
  intros (x & y & z & (Hx & Hy & Hz) & ->). unfold Spec.channel.
  destruct (ch =? 0); [now exists x|].
  destruct (ch =? 1); [now exists y | now exists z].
Qed.

Lemma Fixture_bytes (n : nat) :
  Notion.bytes (map (fun i => Z.of_nat i mod 256) (seq 0 n)).
Proof.
  apply Forall_forall. intros v Hin. apply list_elem_of_In, in_map_iff in Hin.
  destruct Hin as (i & <- & _).
  pose proof (Z.mod_pos_bound (Z.of_nat i) 256). lia.
Qed.

Lemma byteColor_new (x y z : Z) :
  0 <= x <= 255 -> 0 <= y <= 255 -> 0 <= z <= 255 ->
  Notion.byteColor (ParsedColor.new (inject_Z x) (inject_Z y) (inject_Z z)).
Proof. intros Hx Hy Hz. exists x, y, z. now repeat split. Qed.

(** A sample of the dimmed atlas is the sample of the plain atlas, scaled
    and stored as a byte. *)
Lemma typedGet_soften (input : list Z) (ratio : Q) (i : Z) :
  typedGet (soften input ratio) i
  = option_map (fun v => toUint8Clamp (Finite (inject_Z v * ratio)))
      (typedGet input i).
Proof.
  unfold typedGet. destruct (i <? 0); [reflexivity|].
  rewrite soften_maps. apply lookup_map.
Qed.

Lemma soften_bytes (input : list Z) (ratio : Q) :
  Notion.bytes (soften input ratio).
Proof.
  rewrite soften_maps. apply Forall_forall. intros v Hin.
  apply list_elem_of_In, in_map_iff in Hin. destruct Hin as (u & <- & _).
  apply toUint8Clamp_byte.
Qed.

Lemma typedGet_bytes (a : list Z) (i v : Z) :
  Notion.bytes a -> typedGet a i = Some v -> 0 <= v <= 255.
Proof.
  unfold Notion.bytes, typedGet. rewrite Forall_forall. intros Ha Hget.
  destruct (i <? 0); [discriminate|].
  apply Ha. eapply list_elem_of_lookup_2. exact Hget.
Qed.

Lemma Fixture_renderer_bytes :
  Notion.bytes (x2charData Fixture.renderer)
  /\ Notion.bytes (x1charData Fixture.renderer)
  /\ Notion.bytes (x2charDataLight Fixture.renderer)
  /\ Notion.bytes (x1charDataLight Fixture.renderer).
Proof.
  assert (Hnew : MinimapCharRenderer.new Fixture.x2CharData Fixture.x1CharData
                 = Normal Fixture.renderer) by reflexivity.
  destruct (new_Normal _ _ _ Hnew) as (_ & _ & ->).
  cbn [x2charData x1charData x2charDataLight x1charDataLight].
  split; [exact (Fixture_bytes 760)|]. split; [exact (Fixture_bytes 190)|].
  split; apply soften_bytes.
Qed.

(** Between byte colours, with a byte sample, the stored byte is an integer
    nearest to the interpolated value. *)
Lemma rendered_byte_near (color backgroundColor : ParsedColor.t) (ch : Z)
    (intensity : option Z) :
  Notion.byteColor color -> Notion.byteColor backgroundColor ->
  (forall v, intensity = Some v -> 0 <= v <= 255) ->
  let byte := toUint8Clamp
                (Spec.interpolate (Spec.channel ch backgroundColor)
                   (Spec.channel ch color) intensity) in
  0 <= byte <= 255
  /\ (forall v, intensity = Some v ->
        (Qabs (inject_Z byte
               - (Spec.channel ch backgroundColor
                  + (Spec.channel ch color - Spec.channel ch backgroundColor)
                    * (inject_Z v / 255))) <= 0.5)%Q).
Proof.
  intros Hcolor Hbackground Hsample byte. split; [apply toUint8Clamp_byte|].
  intros v Hv. pose proof (Hsample v Hv) as Hbyte. unfold byte. subst intensity.
  cbn [Spec.interpolate].
  destruct (byteColor_channel color ch Hcolor) as (cf & Hcf & ->).
  destruct (byteColor_channel backgroundColor ch Hbackground) as (cb & Hcb & ->).
  apply toUint8Clamp_nearest.
  destruct (interpolate_within cb cf v Hbyte) as [Hlo Hhi]. split.
  - apply Qle_trans with (inject_Z (Z.min cb cf)); [|exact Hlo].
    change 0%Q with (inject_Z 0). rewrite <- Zle_Qle. lia.
  - apply Qle_trans with (inject_Z (Z.max cb cf)); [exact Hhi|].
    change 255%Q with (inject_Z 255). rewrite <- Zle_Qle. lia.
Qed.

(** ** Properties of the rendering methods *)

(** C6: for every character code c that is not negative, _getChIndex(c) is
    (c - 32) modulo 95; code 31 maps to the last glyph index 94 and code 127
    to the first glyph index 0; and x1RenderChar and x2RenderChar read the
    atlas at that index: between colours whose channels are bytes, the
    sample of every pixel they write is the atlas entry of that glyph. *)
Theorem C6_getChIndex_wraps_modulo_95 :
  (forall chCode, 0 <= chCode -> _getChIndex chCode = (chCode - 32) mod 95)
  /\ _getChIndex 31 = 94 /\ _getChIndex 127 = 0
  /\ (forall x2CharData x1CharData this target dx dy chCode color backgroundColor,
        MinimapCharRenderer.new x2CharData x1CharData = Normal this ->
        Notion.bytes x2CharData -> Notion.bytes x1CharData ->
        Notion.byteColor color -> Notion.byteColor backgroundColor ->
        Spec.wellFormed target -> 0 <= dx -> 0 <= dy -> 0 <= chCode ->
        let glyph := (chCode - 32) mod 95 in
        (dx + 2 <= width target -> dy + 4 <= height target ->
         forall col row ch, 0 <= col < 2 -> 0 <= row < 4 -> 0 <= ch < 3 ->
           exists intensity,
             typedGet (if ParsedColor.isLight backgroundColor
                       then x2charDataLight this else x2charData this)
                      (glyph * 8 + (row * 2 + col)) = Some intensity
             /\ Spec.pixelByte
                  (fst (x2RenderChar this target dx dy chCode color backgroundColor))
                  (dx + col) (dy + row) ch
                = Some (toUint8Clamp
                          (Spec.interpolate (Spec.channel ch backgroundColor)
                             (Spec.channel ch color) (Some intensity))))
        /\ (dx + 1 <= width target -> dy + 2 <= height target ->
            forall row ch, 0 <= row < 2 -> 0 <= ch < 3 ->
              exists intensity,
                typedGet (if ParsedColor.isLight backgroundColor
                          then x1charDataLight this else x1charData this)
                         (glyph * 2 + row) = Some intensity
                /\ Spec.pixelByte
                     (fst (x1RenderChar this target dx dy chCode color backgroundColor))
                     dx (dy + row) ch
                   = Some (toUint8Clamp
                             (Spec.interpolate (Spec.channel ch backgroundColor)
                                (Spec.channel ch color) (Some intensity))))).
Proof.
  split; [exact _getChIndex_wraps|]. split; [reflexivity|]. split; [reflexivity|].
  intros x2CharData x1CharData this target dx dy chCode color backgroundColor
    Hnew _ _ _ _ Htarget Hdx Hdy Hc glyph.
  destruct (new_Normal _ _ _ Hnew) as (Hlen2 & Hlen1 & ->).
  cbn [x2charData x1charData x2charDataLight x1charDataLight].
  change glyph with (Spec.glyphIndex chCode).
  split.
  - intros Hw Hh col row ch Hcol Hrow Hch.
    destruct (atlas_sample_defined
                (if ParsedColor.isLight backgroundColor
                 then soften x2CharData (12 / 15) else x2CharData)
                chCode 8 (row * 2 + col)) as [intensity Hsample]; [|lia|lia|].
    { destruct (ParsedColor.isLight backgroundColor);
        rewrite ?length_soften, Hlen2; reflexivity. }
    exists intensity. split; [exact Hsample|].
    rewrite x2RenderChar_pixel by assumption.
    cbn [x2charData x2charDataLight].
    rewrite (_getChIndex_wraps chCode Hc).
    replace (Spec.glyphIndex chCode * 4 * 2) with (Spec.glyphIndex chCode * 8)
      by ring.
    now rewrite Hsample.
  - intros Hw Hh row ch Hrow Hch.
    destruct (atlas_sample_defined
                (if ParsedColor.isLight backgroundColor
                 then soften x1CharData (50 / 60) else x1CharData)
                chCode 2 row) as [intensity Hsample]; [|lia|lia|].
    { destruct (ParsedColor.isLight backgroundColor);
        rewrite ?length_soften, Hlen1; reflexivity. }
    exists intensity. split; [exact Hsample|].
    rewrite x1RenderChar_pixel by assumption.
    cbn [x1charData x1charDataLight].
    rewrite (_getChIndex_wraps chCode Hc).
    replace (Spec.glyphIndex chCode * 2 * 1) with (Spec.glyphIndex chCode * 2)
      by ring.
    now rewrite Hsample.
Qed.

(** C6 at the two codes next to the supported range: 31 draws the glyph of
    "~" (126), 127 the glyph of the space (32); and the code 31 drawn white
    on black shows the sample 188 of the single-size atlas, the first of
    glyph 94. *)
Lemma C6_getChIndex_wraps_modulo_95_witness :
  _getChIndex 31 = _getChIndex 126 /\ _getChIndex 127 = _getChIndex 32
  /\ Spec.pixelByte
       (fst (x1RenderChar Fixture.renderer (Fixture.canvas 1 2) 0 0 31
               Fixture.white Fixture.black))
       0 (0 + 0) 0
     = Some 188.
Proof.
  destruct C6_getChIndex_wraps_modulo_95 as (Hwrap & _ & _ & Hrender).
  split; [|split].
  - rewrite (Hwrap 31), (Hwrap 126) by lia. reflexivity.
  - rewrite (Hwrap 127), (Hwrap 32) by lia. reflexivity.
  - assert (Htarget : Spec.wellFormed (Fixture.canvas 1 2))
      by (repeat split; vm_compute; congruence).
    destruct (Hrender Fixture.x2CharData Fixture.x1CharData Fixture.renderer
                (Fixture.canvas 1 2) 0 0 31 Fixture.white Fixture.black
                eq_refl (Fixture_bytes 760) (Fixture_bytes 190)
                (byteColor_new 255 255 255 ltac:(lia) ltac:(lia) ltac:(lia))
                (byteColor_new 0 0 0 ltac:(lia) ltac:(lia) ltac:(lia))
                Htarget ltac:(lia) ltac:(lia) ltac:(lia)) as [_ Hsingle].
    destruct (Hsingle ltac:(vm_compute; congruence) ltac:(vm_compute; congruence)
                0 0 ltac:(lia) ltac:(lia)) as (intensity & Hsample & Hpixel).
    vm_compute in Hsample. injection Hsample as <-.
    refine (eq_trans Hpixel _). vm_compute. reflexivity.
Defined.

(** C7: when dx plus the character width exceeds target.width, or dy plus
    the character height exceeds target.height, x1RenderChar and x2RenderChar
    return normally, having written only the diagnostic: every byte of
    target.data is as before. *)
Theorem C7_render_outside_target_writes_nothing
    (this : MinimapCharRenderer.t) (target : ImageData)
    (dx dy chCode : Z) (color backgroundColor : ParsedColor.t) :
  (dx + Constants.x1_CHAR_WIDTH > width target
   \/ dy + Constants.x1_CHAR_HEIGHT > height target ->
   x1RenderChar this target dx dy chCode color backgroundColor
   = (target, ["bad render request outside image data"%string]))
  /\ (dx + Constants.x2_CHAR_WIDTH > width target
      \/ dy + Constants.x2_CHAR_HEIGHT > height target ->
      x2RenderChar this target dx dy chCode color backgroundColor
      = (target, ["bad render request outside image data"%string])).
Proof.
  split; intros Hout.
  - now apply x1RenderChar_rejects.
  - now apply x2RenderChar_rejects.
Qed.

(** C7 on a target of 2 by 4 pixels: a character at column 1 does not fit
    at double size, nor one at row 3 at single size. *)
Lemma C7_render_outside_target_writes_nothing_witness :
  data (fst (x2RenderChar Fixture.renderer (Fixture.canvas 2 4) 1 0 65
               Fixture.white Fixture.black))
  = data (Fixture.canvas 2 4)
  /\ data (fst (x1RenderChar Fixture.renderer (Fixture.canvas 2 4) 0 3 65
                  Fixture.white Fixture.black))
     = data (Fixture.canvas 2 4).
Proof.
  split.
  - rewrite (proj2 (C7_render_outside_target_writes_nothing Fixture.renderer
                      (Fixture.canvas 2 4) 1 0 65 Fixture.white Fixture.black)).
    + reflexivity.
    + left. reflexivity.
  - rewrite (proj1 (C7_render_outside_target_writes_nothing Fixture.renderer
                      (Fixture.canvas 2 4) 0 3 65 Fixture.white Fixture.black)).
    + reflexivity.
    + right. reflexivity.
Defined.

(** C8: for every call of x2RenderChar or x1RenderChar that lies inside the
    target, on a renderer constructed from byte atlases and between colours
    whose channels are bytes, the red, green and blue bytes of each sample
    pixel are set to background + (foreground - background) * (intensity /
    255), stored as a byte of 0..255: an integer nearest to that value. No
    alpha byte is written. The intensity is the sample of the glyph in the
    atlas given to the constructor when backgroundColor.isLight is false,
    and that sample softened, times 12/15 (double size) or 50/60 (single
    size) and stored as a byte, exactly when backgroundColor.isLight is
    true. *)
Theorem C8_render_interpolates_rgb
    (x2CharData x1CharData : list Z) (this : MinimapCharRenderer.t)
    (target : ImageData) (dx dy chCode : Z)
    (color backgroundColor : ParsedColor.t) :
  MinimapCharRenderer.new x2CharData x1CharData = Normal this ->
  Notion.bytes x2CharData -> Notion.bytes x1CharData ->
  Notion.byteColor color -> Notion.byteColor backgroundColor ->
  Spec.wellFormed target -> 0 <= dx -> 0 <= dy ->
  let softened (ratio : Q) (sample : option Z) : option Z :=
    option_map (fun v => toUint8Clamp (Finite (inject_Z v * ratio))) sample in
  let written (byte : Z) (ch : Z) (intensity : option Z) : Prop :=
    byte = toUint8Clamp
             (Spec.interpolate (Spec.channel ch backgroundColor)
                (Spec.channel ch color) intensity)
    /\ 0 <= byte <= 255
    /\ (forall v, intensity = Some v ->
          (Qabs (inject_Z byte
                 - (Spec.channel ch backgroundColor
                    + (Spec.channel ch color - Spec.channel ch backgroundColor)
                      * (inject_Z v / 255))) <= 0.5)%Q) in
  (dx + Constants.x2_CHAR_WIDTH <= width target ->
   dy + Constants.x2_CHAR_HEIGHT <= height target ->
   let out := fst (x2RenderChar this target dx dy chCode color backgroundColor) in
   let intensity (n : Z) :=
     let sample := typedGet x2CharData (_getChIndex chCode * 8 + n) in
     if ParsedColor.isLight backgroundColor then softened (12 / 15)%Q sample
     else sample in
   (forall col row ch, 0 <= col < 2 -> 0 <= row < 4 -> 0 <= ch < 3 ->
      exists byte,
        Spec.pixelByte out (dx + col) (dy + row) ch = Some byte
        /\ written byte ch (intensity (row * 2 + col)))
   /\ (forall k, k mod 4 = 3 -> typedGet (data out) k = typedGet (data target) k))
  /\ (dx + Constants.x1_CHAR_WIDTH <= width target ->
      dy + Constants.x1_CHAR_HEIGHT <= height target ->
      let out := fst (x1RenderChar this target dx dy chCode color backgroundColor) in
      let intensity (n : Z) :=
        let sample := typedGet x1CharData (_getChIndex chCode * 2 + n) in
        if ParsedColor.isLight backgroundColor then softened (50 / 60)%Q sample
        else sample in
      (forall row ch, 0 <= row < 2 -> 0 <= ch < 3 ->
         exists byte,
           Spec.pixelByte out dx (dy + row) ch = Some byte
           /\ written byte ch (intensity row))
      /\ (forall k, k mod 4 = 3 -> typedGet (data out) k = typedGet (data target) k)).
Proof.
  intros Hnew Hb2 Hb1 Hcolor Hbackground Htarget Hdx Hdy softened written.
  destruct (new_Normal _ _ _ Hnew) as (_ & _ & ->).
  assert (Hsoft : forall (a : list Z) (ratio : Q) (i v : Z),
             Notion.bytes a ->
             (if ParsedColor.isLight backgroundColor
              then softened ratio (typedGet a i) else typedGet a i) = Some v ->
             0 <= v <= 255).
  { intros a ratio i v Ha Hv. destruct (ParsedColor.isLight backgroundColor).
    - unfold softened in Hv. destruct (typedGet a i) as [u|]; [|discriminate].
      cbn [option_map] in Hv.
      replace v with (toUint8Clamp (Finite (inject_Z u * ratio)))
        by congruence.
      apply toUint8Clamp_byte.
    - exact (typedGet_bytes a i v Ha Hv). }
  split; intros Hw Hh out intensity;
    unfold Constants.x2_CHAR_WIDTH, Constants.x2_CHAR_HEIGHT,
      Constants.x1_CHAR_WIDTH, Constants.x1_CHAR_HEIGHT in Hw, Hh;
    (split; [|intros k Hk]).
  - intros col row ch Hcol Hrow Hch.
    exists (toUint8Clamp
              (Spec.interpolate (Spec.channel ch backgroundColor)
                 (Spec.channel ch color) (intensity (row * 2 + col)))).
    split.
    + unfold out. rewrite x2RenderChar_pixel by assumption.
      cbn [x2charData x2charDataLight].
      replace (_getChIndex chCode * 4 * 2) with (_getChIndex chCode * 8) by ring.
      unfold intensity, softened.
      destruct (ParsedColor.isLight backgroundColor);
        [rewrite typedGet_soften|]; reflexivity.
    + split; [reflexivity|].
      apply rendered_byte_near; try assumption.
      intros v Hv. exact (Hsoft x2CharData _ _ v Hb2 Hv).
  - now apply x2RenderChar_alpha.
  - intros row ch Hrow Hch.
    exists (toUint8Clamp
              (Spec.interpolate (Spec.channel ch backgroundColor)
                 (Spec.channel ch color) (intensity row))).
    split.
    + unfold out. rewrite x1RenderChar_pixel by assumption.
      cbn [x1charData x1charDataLight].
      replace (_getChIndex chCode * 2 * 1) with (_getChIndex chCode * 2) by ring.
      unfold intensity, softened.
      destruct (ParsedColor.isLight backgroundColor);
        [rewrite typedGet_soften|]; reflexivity.
    + split; [reflexivity|].
      apply rendered_byte_near; try assumption.
      intros v Hv. exact (Hsoft x1CharData _ _ v Hb1 Hv).
  - now apply x1RenderChar_alpha.
Qed.

(** C8 on a target of 3 by 5 pixels filled with 7, for "A" drawn at (1, 1)
    and the pixel at (2, 4), whose sample is the entry 271 of the atlas,
    15. In white on black its red byte becomes 15. In black on white the
    sample is softened to 12 and the byte becomes 243. In (100, 100, 100) on
    black the value 100 * 15 / 255 is stored as 6. The alpha byte stays 7. *)
Lemma C8_render_interpolates_rgb_witness :
  let draw (color backgroundColor : ParsedColor.t) :=
    fst (x2RenderChar Fixture.renderer (Fixture.canvas 3 5) 1 1 65
           color backgroundColor) in
  let grey := ParsedColor.new (inject_Z 100) (inject_Z 100) (inject_Z 100) in
  Spec.pixelByte (draw Fixture.white Fixture.black) (1 + 1) (1 + 3) 0 = Some 15
  /\ Spec.pixelByte (draw Fixture.black Fixture.white) (1 + 1) (1 + 3) 0 = Some 243
  /\ Spec.pixelByte (draw grey Fixture.black) (1 + 1) (1 + 3) 0 = Some 6
  /\ Spec.pixelByte (draw Fixture.white Fixture.black) 2 4 3 = Some 7.
Proof.
  intros draw grey.
  assert (Htarget : Spec.wellFormed (Fixture.canvas 3 5))
    by (repeat split; vm_compute; discriminate).
  assert (Hwhite : Notion.byteColor Fixture.white)
    by (apply (byteColor_new 255 255 255); lia).
  assert (Hblack : Notion.byteColor Fixture.black)
    by (apply (byteColor_new 0 0 0); lia).
  assert (Hgrey : Notion.byteColor grey)
    by (apply (byteColor_new 100 100 100); lia).
  assert (Hdraw : forall color backgroundColor value,
             Notion.byteColor color -> Notion.byteColor backgroundColor ->
             toUint8Clamp
               (Spec.interpolate (Spec.channel 0 backgroundColor)
                  (Spec.channel 0 color)
                  (if ParsedColor.isLight backgroundColor
                   then option_map
                          (fun v => toUint8Clamp (Finite (inject_Z v * (12 / 15))))
                          (typedGet Fixture.x2CharData (_getChIndex 65 * 8 + (3 * 2 + 1)))
                   else typedGet Fixture.x2CharData (_getChIndex 65 * 8 + (3 * 2 + 1))))
             = value ->
             Spec.pixelByte (draw color backgroundColor) (1 + 1) (1 + 3) 0
             = Some value
             /\ typedGet (data (draw color backgroundColor)) 59 = Some 7).
  { intros color backgroundColor value Hcolor Hbackground Hvalue.
    destruct (C8_render_interpolates_rgb Fixture.x2CharData Fixture.x1CharData
                Fixture.renderer (Fixture.canvas 3 5) 1 1 65
                color backgroundColor eq_refl
                (Fixture_bytes 760) (Fixture_bytes 190) Hcolor Hbackground
                Htarget ltac:(lia) ltac:(lia)) as [Hdouble _].
    destruct Hdouble as [Hrgb Halpha];
      [vm_compute; discriminate | vm_compute; discriminate |].
    split.
    - destruct (Hrgb 1 3 0 ltac:(lia) ltac:(lia) ltac:(lia))
        as (byte & Hpixel & Hbyte & _).
      exact (eq_trans Hpixel (f_equal Some (eq_trans Hbyte Hvalue))).
    - exact (eq_trans (Halpha 59 eq_refl) eq_refl). }
  split; [|split; [|split]].
  - apply (Hdraw Fixture.white Fixture.black 15 Hwhite Hblack).
    vm_compute. reflexivity.
  - apply (Hdraw Fixture.black Fixture.white 243 Hblack Hwhite).
    vm_compute. reflexivity.
  - apply (Hdraw grey Fixture.black 6 Hgrey Hblack). vm_compute. reflexivity.
  - apply (Hdraw Fixture.white Fixture.black 15 Hwhite Hblack).
    vm_compute. reflexivity.
Defined.

(** C10: the guard of x1RenderChar and x2RenderChar tests the upper edges
    only. A call with a negative dx or dy that satisfies
    dx + width <= target.width and dy + height <= target.height is not
    rejected, and each of its stores lands at the offset computed from the
    negative coordinate whenever that offset is inside the buffer; so a
    byte outside the requested rectangle can change. The stored bytes are
    given for atlases of bytes and colours whose channels are bytes. *)
Theorem C10_guard_checks_upper_edges_only :
  (forall this target dx dy chCode color backgroundColor,
      dx < 0 \/ dy < 0 ->
      dx + Constants.x1_CHAR_WIDTH <= width target ->
      dy + Constants.x1_CHAR_HEIGHT <= height target ->
      Notion.bytes (x1charData this) -> Notion.bytes (x1charDataLight this) ->
      Notion.byteColor color -> Notion.byteColor backgroundColor ->
      let result := x1RenderChar this target dx dy chCode color backgroundColor in
      let atlas := if ParsedColor.isLight backgroundColor
                   then x1charDataLight this else x1charData this in
      snd result = []
      /\ (1 <= width target ->
          forall row ch, 0 <= row < 2 -> 0 <= ch < 3 ->
            let offset := (dy + row) * (width target * 4) + dx * 4 + ch in
            0 <= offset < Z.of_nat (length (data target)) ->
            typedGet (data (fst result)) offset
            = Some (toUint8Clamp
                      (Spec.interpolate (Spec.channel ch backgroundColor)
                         (Spec.channel ch color)
                         (typedGet atlas (_getChIndex chCode * 2 + row))))))
  /\ (forall this target dx dy chCode color backgroundColor,
         dx < 0 \/ dy < 0 ->
         dx + Constants.x2_CHAR_WIDTH <= width target ->
         dy + Constants.x2_CHAR_HEIGHT <= height target ->
         Notion.bytes (x2charData this) -> Notion.bytes (x2charDataLight this) ->
         Notion.byteColor color -> Notion.byteColor backgroundColor ->
         let result := x2RenderChar this target dx dy chCode color backgroundColor in
         let atlas := if ParsedColor.isLight backgroundColor
                      then x2charDataLight this else x2charData this in
         snd result = []
         /\ (2 <= width target ->
             forall col row ch, 0 <= col < 2 -> 0 <= row < 4 -> 0 <= ch < 3 ->
               let offset :=
                 (dy + row) * (width target * 4) + (dx + col) * 4 + ch in
               0 <= offset < Z.of_nat (length (data target)) ->
               typedGet (data (fst result)) offset
               = Some (toUint8Clamp
                         (Spec.interpolate (Spec.channel ch backgroundColor)
                            (Spec.channel ch color)
                            (typedGet atlas
                               (_getChIndex chCode * 8 + (row * 2 + col)))))))
  /\ (let target := Fixture.canvas 2 3 in
      let out := fst (x1RenderChar Fixture.renderer target (-1) 1 65
                        Fixture.white Fixture.black) in
      Spec.wellFormed target
      /\ Spec.pixelByte target 1 0 0 = Some 7
      /\ Spec.pixelByte out 1 0 0 = Some 66).
Proof.
  split; [|split].
  - intros this target dx dy chCode color backgroundColor _ Hw Hh _ _ _ _
      result atlas.
    unfold Constants.x1_CHAR_WIDTH, Constants.x1_CHAR_HEIGHT in Hw, Hh.
    split; [apply x1RenderChar_accepts; assumption|].
    intros Hw1 row ch Hrow Hch offset Hin. unfold result, atlas.
    replace (_getChIndex chCode * 2) with (_getChIndex chCode * 2 * 1) by ring.
    rewrite <- (x1RenderChar_lands this target dx dy chCode color backgroundColor
                  Hw Hh row ch Hw1 Hrow Hch).
    + f_equal. unfold offset. ring.
    + unfold offset in Hin. lia.
  - intros this target dx dy chCode color backgroundColor _ Hw Hh _ _ _ _
      result atlas.
    unfold Constants.x2_CHAR_WIDTH, Constants.x2_CHAR_HEIGHT in Hw, Hh.
    split; [apply x2RenderChar_accepts; assumption|].
    intros Hw2 col row ch Hcol Hrow Hch offset Hin. unfold result, atlas.
    replace (_getChIndex chCode * 8) with (_getChIndex chCode * 4 * 2) by ring.
    rewrite <- (x2RenderChar_lands this target dx dy chCode color backgroundColor
                  Hw Hh row col ch Hw2 Hrow Hcol Hch).
    + f_equal. unfold offset. ring.
    + unfold offset in Hin. lia.
  - cbv zeta. split; [|split].
    + repeat split; vm_compute; discriminate.
    + reflexivity.
    + vm_compute. reflexivity.
Qed.

(** C10 on a target of 2 by 3 pixels: a single-size character at column -1
    and row 1 passes the guard, and its first store lands at offset
    (1 * 2 - 1) * 4 = 4, the red byte of the pixel at column 1 of row 0. *)
Lemma C10_guard_checks_upper_edges_only_witness :
  let result := x1RenderChar Fixture.renderer (Fixture.canvas 2 3) (-1) 1 65
                  Fixture.white Fixture.black in
  snd result = [] /\ typedGet (data (fst result)) 4 = Some 66.
Proof.
  intros result.
  destruct (proj1 C10_guard_checks_upper_edges_only Fixture.renderer
              (Fixture.canvas 2 3) (-1) 1 65 Fixture.white Fixture.black)
    as [Hlog Hstore].
  - left. reflexivity.
  - vm_compute. discriminate.
  - vm_compute. discriminate.
  - apply Fixture_renderer_bytes.
  - apply Fixture_renderer_bytes.
  - apply (byteColor_new 255 255 255); lia.
  - apply (byteColor_new 0 0 0); lia.
  - split; [exact Hlog|].
    refine (eq_trans (Hstore _ 0 0 _ _ _) _); [| lia | lia | |].
    + vm_compute. discriminate.
    + change (0 <= 4 < 24). lia.
    + vm_compute. reflexivity.
Defined.

(** ** [GitContentProvider] *)

Section GitContentProviderProofs.
Import GitContentProvider.
Context {Uri : Type} `{UriApi Uri} `{Workspace Uri}.

Lemma elem_of_Set_add (x y : Uri) (s : list Uri) :
  y ∈ Set_add x s <-> y = x \/ y ∈ s.
Proof.
  unfold Set_add. destruct (decide (x ∈ s)) as [Hin|Hnot].
  - split; [auto | intros [-> | ?]; assumption].
  - rewrite elem_of_app, list_elem_of_singleton. tauto.
Qed.

Lemma elem_of_Set_delete (x y : Uri) (s : list Uri) :
  y ∈ Set_delete x s <-> y <> x /\ y ∈ s.
Proof. exact (list_elem_of_filter (fun z => z <> x) s y). Qed.

Lemma NoDup_Set_add (x : Uri) (s : list Uri) : NoDup s -> NoDup (Set_add x s).
Proof.
  intros Hs. unfold Set_add. destruct (decide (x ∈ s)) as [Hin|Hnot];
    [exact Hs|].
  apply NoDup_app. split; [exact Hs|]. split.
  - intros y Hy Hy'. apply list_elem_of_singleton in Hy'. now subst.
  - apply NoDup_singleton.
Qed.

Lemma NoDup_Set_delete (x : Uri) (s : list Uri) :
  NoDup s -> NoDup (Set_delete x s).
Proof. apply NoDup_filter. Qed.

(** [fireChangeEvents] fires once for each member of the refresh set, in
    the order of insertion, and changes nothing else. *)
Lemma fireChangeEvents_fires (arg : Uri) (this : t Uri) :
  fireChangeEvents arg this
  = {| model := model this;
       uris := uris this;
       onDidChange_fired := onDidChange_fired this ++ uris this |}.
Proof.
  unfold fireChangeEvents.
  assert (Hfold : forall (l : list Uri) (st : t Uri),
             fold_left (fun st uri => onDidChangeEmitter_fire uri st) l st
             = {| model := model st;
                  uris := uris st;
                  onDidChange_fired := onDidChange_fired st ++ l |}).
  { induction l as [|u l IH]; intros st; cbn [fold_left].
    - rewrite app_nil_r. now destruct st.
    - rewrite IH. unfold onDidChangeEmitter_fire; cbn.
      now rewrite <- app_assoc. }
  apply Hfold.
Qed.

(** What a file-system change does: nothing unless the path is under .git/
    and is not the index lock. *)
Lemma subscription_filters (uri : Uri) (this : t Uri) :
  subscription onWorkspaceChange uri this
  = if startsWith (lit ".git/") (asRelativePath uri)
       && negb (endsWith (lit "/.git/index.lock") (fsPath uri))
    then fireChangeEvents uri this else this.
Proof.
  unfold subscription, filterEvent, onWorkspaceChange.
  destruct (startsWith (lit ".git/") (asRelativePath uri)); cbn [andb];
    [|reflexivity].
  destruct (endsWith (lit "/.git/index.lock") (fsPath uri)); reflexivity.
Qed.

Lemma firedBy_FileChanged (uri : Uri) (this : t Uri) :
  firedBy this (FileChanged uri)
  = if startsWith (lit ".git/") (asRelativePath uri)
       && negb (endsWith (lit "/.git/index.lock") (fsPath uri))
    then uris this else [].
Proof.
  unfold firedBy. cbn [step]. rewrite subscription_filters.
  destruct (_ && _).
  - rewrite fireChangeEvents_fires. cbn [onDidChange_fired].
    now rewrite drop_app_length.
  - now rewrite drop_all.
Qed.

Lemma uris_step (this : t Uri) (a : action) :
  uris (step this a)
  = match a with
    | ContentRequested uri =>
        match show (model this) (query uri) uri with
        | Fulfilled _ => Set_add uri (uris this)
        | Rejected _ => Set_delete uri (uris this)
        end
    | _ => uris this
    end.
Proof.
  destruct a as [uri|uri|m]; cbn [step].
  - rewrite subscription_filters. destruct (_ && _); [|reflexivity].
    now rewrite fireChangeEvents_fires.
  - unfold provideTextDocumentContent.
    destruct (show (model this) (query uri) uri); reflexivity.
  - reflexivity.
Qed.

Lemma NoDup_uris_run (actions : list action) (this : t Uri) :
  NoDup (uris this) -> NoDup (uris (run this actions)).
Proof.
  revert this. induction actions as [|a rest IH]; intros this Hthis; [exact Hthis|].
  apply IH. rewrite uris_step.
  destruct a as [uri|uri|m]; try exact Hthis.
  destruct (show (model this) (query uri) uri);
    [now apply NoDup_Set_add | now apply NoDup_Set_delete].
Qed.

(** The refresh set after a run: a URI is a member exactly when its latest
    content request resolved, or, without a request, when it was a member. *)
Lemma elem_of_uris_run (actions : list action) (this : t Uri) (uri : Uri) :
  uri ∈ uris (run this actions)
  <-> match lastResolution this actions uri with
      | Some resolved => resolved = true
      | None => uri ∈ uris this
      end.
Proof.
  revert this. induction actions as [|a rest IH]; intros this; [reflexivity|].
  change (run this (a :: rest)) with (run (step this a) rest).
  rewrite IH. cbn [lastResolution].
  destruct (lastResolution (step this a) rest uri) as [later|]; [reflexivity|].
  rewrite uris_step. destruct a as [u|u|m]; try reflexivity.
  destruct (decide (u = uri)) as [->|Hne].
  - destruct (show (model this) (query uri) uri).
    + rewrite elem_of_Set_add. split; auto.
    + rewrite elem_of_Set_delete. split; [intros [Hne _]; congruence | discriminate].
  - destruct (show (model this) (query u) u).
    + rewrite elem_of_Set_add. split; [intros [->|?]; [congruence|assumption] | auto].
    + rewrite elem_of_Set_delete. split; [tauto | intros ?; split; congruence].
Qed.

Lemma notificationsFor_NoDup (uri : Uri) (l : list Uri) :
  NoDup l -> notificationsFor uri l = if decide (uri ∈ l) then 1%nat else 0%nat.
Proof.
  intros Hl. unfold notificationsFor.
  destruct (decide (uri ∈ l)) as [Hin|Hnot].
  - apply NoDup_ListNoDup in Hl.
    apply (proj1 (List.NoDup_count_occ' (fun x y => decide (x = y)) l) Hl).
    now apply list_elem_of_In.
  - apply count_occ_not_In. now rewrite <- list_elem_of_In.
Qed.

(** C2: when model.show resolves with a content, provideTextDocumentContent
    returns that content and afterwards uri is a member of the refresh set;
    when model.show rejects, the call resolves to the empty string and
    afterwards uri is not a member of the refresh set. *)
Theorem C2_provideTextDocumentContent_caches_or_evicts
    (this : t Uri) (uri : Uri) :
  (forall content,
      show (model this) (query uri) uri = Fulfilled content ->
      fst (provideTextDocumentContent this uri) = Fulfilled content
      /\ uri ∈ uris (snd (provideTextDocumentContent this uri)))
  /\ (forall reason,
         show (model this) (query uri) uri = Rejected reason ->
         fst (provideTextDocumentContent this uri) = Fulfilled empty
         /\ uri ∉ uris (snd (provideTextDocumentContent this uri))).
Proof.
  unfold provideTextDocumentContent. split.
  - intros content ->. cbn [fst snd uris]. split; [reflexivity|].
    apply elem_of_Set_add. now left.
  - intros reason ->. cbn [fst snd uris]. split; [reflexivity|].
    rewrite elem_of_Set_delete. intros [Hne _]. now apply Hne.
Qed.

(** C3: a file event under .git/ whose path ends in /.git/index.lock fires
    no change notification; every other file event under .git/ fires one
    change notification for each URI in the refresh set; so after any run
    of a provider, such an event fires one notification for a URI whose
    latest resolution succeeded and none for a URI whose latest resolution
    failed or that was never requested. *)
Theorem C3_git_changes_notify_the_refresh_set :
  (forall (this : t Uri) (uri : Uri),
      startsWith (lit ".git/") (asRelativePath uri) = true ->
      endsWith (lit "/.git/index.lock") (fsPath uri) = true ->
      step this (FileChanged uri) = this
      /\ firedBy this (FileChanged uri) = [])
  /\ (forall (this : t Uri) (uri : Uri),
         startsWith (lit ".git/") (asRelativePath uri) = true ->
         endsWith (lit "/.git/index.lock") (fsPath uri) = false ->
         firedBy this (FileChanged uri) = uris this
         /\ (NoDup (uris this) ->
             forall u, notificationsFor u (firedBy this (FileChanged uri))
                       = if decide (u ∈ uris this) then 1%nat else 0%nat))
  /\ (forall (m : Model Uri) (actions : list action) (uri u : Uri),
         startsWith (lit ".git/") (asRelativePath uri) = true ->
         endsWith (lit "/.git/index.lock") (fsPath uri) = false ->
         notificationsFor u (firedBy (run (new m) actions) (FileChanged uri))
         = match lastResolution (new m) actions u with
           | Some true => 1%nat
           | _ => 0%nat
           end).
Proof.
  split; [|split].
  - intros this uri Hgit Hlock. rewrite firedBy_FileChanged. cbn [step].
    rewrite subscription_filters, Hgit, Hlock. split; reflexivity.
  - intros this uri Hgit Hlock. rewrite firedBy_FileChanged, Hgit, Hlock.
    cbn [andb negb]. split; [reflexivity|].
    intros Hnodup u. now apply notificationsFor_NoDup.
  - intros m actions uri u Hgit Hlock.
    rewrite firedBy_FileChanged, Hgit, Hlock. cbn [andb negb].
    rewrite notificationsFor_NoDup
      by (apply NoDup_uris_run; cbn; apply NoDup_nil_2).
    pose proof (elem_of_uris_run actions (new m) u) as Hmem.
    destruct (decide (u ∈ uris (run (new m) actions))) as [Hin|Hnot].
    + apply Hmem in Hin.
      destruct (lastResolution (new m) actions u) as [[|]|];
        [reflexivity | discriminate Hin |].
      cbn in Hin. now apply elem_of_nil in Hin.
    + destruct (lastResolution (new m) actions u) as [[|]|]; try reflexivity.
      exfalso. apply Hnot, Hmem. reflexivity.
Qed.

End GitContentProviderProofs.

(** C2 on the repository that knows HEAD: the request at HEAD returns the
    content and caches the URI, the request at an unknown revision returns
    the empty string and leaves the URI out. *)
Lemma C2_provideTextDocumentContent_caches_or_evicts_witness :
  let this := GitContentProvider.new GitFixture.repository in
  let ok := GitContentProvider.provideTextDocumentContent this GitFixture.readme in
  let ko := GitContentProvider.provideTextDocumentContent (snd ok) GitFixture.stale in
  (fst ok = Fulfilled (lit "content at HEAD")
   /\ GitFixture.readme ∈ GitContentProvider.uris (snd ok))
  /\ (fst ko = Fulfilled empty
      /\ GitFixture.stale ∉ GitContentProvider.uris (snd ko)).
Proof.
  intros this ok ko. split.
  - apply (proj1 (C2_provideTextDocumentContent_caches_or_evicts
                    this GitFixture.readme)).
    reflexivity.
  - apply (proj2 (C2_provideTextDocumentContent_caches_or_evicts
                    (snd ok) GitFixture.stale) (lit "bad revision")).
    reflexivity.
Defined.

(** The refresh set holds objects, not resources: a failed request made
    through a second [Uri] object of a resource does not evict the first
    object, which is still notified. *)
Lemma refresh_set_is_by_object :
  let this :=
    GitContentProvider.run (GitContentProvider.new GitFixture.repository)
      [GitContentProvider.ContentRequested GitFixture.readme;
       GitContentProvider.RepositoryChanged GitFixture.emptied;
       GitContentProvider.ContentRequested GitFixture.readmeAgain] in
  GitContentProvider.firedBy this (GitContentProvider.FileChanged GitFixture.head)
  = [GitFixture.readme].
Proof. reflexivity. Qed.

(** C3 on that repository, after a request that succeeded and one that
    failed: a change of .git/HEAD notifies the first URI once and the second
    not at all, and a change of .git/index.lock notifies nobody. *)
Lemma C3_git_changes_notify_the_refresh_set_witness :
  let this :=
    GitContentProvider.run (GitContentProvider.new GitFixture.repository)
      [GitContentProvider.ContentRequested GitFixture.readme;
       GitContentProvider.ContentRequested GitFixture.stale] in
  let fired :=
    GitContentProvider.firedBy this (GitContentProvider.FileChanged GitFixture.head) in
  GitContentProvider.notificationsFor GitFixture.readme fired = 1%nat
  /\ GitContentProvider.notificationsFor GitFixture.stale fired = 0%nat
  /\ GitContentProvider.firedBy this
       (GitContentProvider.FileChanged GitFixture.lock) = [].
Proof.
  intros this fired.
  destruct (@C3_git_changes_notify_the_refresh_set GitFixture.Uri _ _)
    as (Hlock & _ & Hrun).
  split; [|split].
  - exact (Hrun GitFixture.repository
             [GitContentProvider.ContentRequested GitFixture.readme;
              GitContentProvider.ContentRequested GitFixture.stale]
             GitFixture.head GitFixture.readme eq_refl eq_refl).
  - exact (Hrun GitFixture.repository
             [GitContentProvider.ContentRequested GitFixture.readme;
              GitContentProvider.ContentRequested GitFixture.stale]
             GitFixture.head GitFixture.stale eq_refl eq_refl).
  - apply (proj2 (Hlock this GitFixture.lock eq_refl eq_refl)).
Defined.

(** ** Agreement with binary64 on byte channels *)

(** On byte channels the flag computed in binary64 is the flag of the
    exact quotient. *)
Lemma isLight_binary64_agrees (cr cg cb : Z) :
  0 <= cr <= 255 -> 0 <= cg <= 255 -> 0 <= cb <= 255 ->
  Binary64.isLight (cr + cg + cb)
  = ParsedColor.isLight
      (ParsedColor.new (inject_Z cr) (inject_Z cg) (inject_Z cb)).
Proof.
  intros Hr Hg Hb.
  assert (Hdiv : Binary64.isLight (cr + cg + cb) = (383 <=? cr + cg + cb)).
  { apply Bool.eqb_prop.
    apply (Z_range_forallb
             (fun z => Bool.eqb (Binary64.isLight z) (383 <=? z)) 0 766);
      [vm_compute; reflexivity | lia]. }
  rewrite Hdiv.
  destruct (Z.leb_spec 383 (cr + cg + cb)) as [Hge|Hlt]; symmetry.
  - now apply isLight_threshold.
  - apply not_true_iff_false. rewrite isLight_threshold. lia.
Qed.

(** On byte samples the product of [soften] rounded in binary64 is stored
    as the same byte as the exact product, for both ratios of the
    constructor. *)
Lemma soften_binary64_agrees (sample : Z) :
  0 <= sample <= 255 ->
  Binary64.softened sample 12 15 = toUint8Clamp (Finite (inject_Z sample * (12 / 15)))
  /\ Binary64.softened sample 50 60
     = toUint8Clamp (Finite (inject_Z sample * (50 / 60))).
Proof.
  intros Hs.
  pose (p := fun z : Z =>
               (Binary64.softened z 12 15
                =? toUint8Clamp (Finite (inject_Z z * (12 / 15))))
               && (Binary64.softened z 50 60
                   =? toUint8Clamp (Finite (inject_Z z * (50 / 60))))).
  assert (Hp : p sample = true).
  { apply (Z_range_forallb p 0 256); [vm_compute; reflexivity | lia]. }
  unfold p in Hp. apply andb_true_iff in Hp. now rewrite <- !Z.eqb_eq.
Qed.

(** The byte that binary64 leaves for a rendered sample is the byte of the
    exact value, for every sample and all pairs of channels of the
    palette. *)
Lemma rendered_binary64_agrees (background foreground sample : Z) :
  In background Fixture.palette -> In foreground Fixture.palette ->
  0 <= sample <= 255 ->
  Binary64.rendered (float_of_Z background) (float_of_Z foreground) sample
  = toUint8Clamp
      (Spec.interpolate (inject_Z background) (inject_Z foreground) (Some sample)).
Proof.
  intros Hbackground Hforeground Hsample.
  pose (same := fun (cb cf v : Z) =>
          Binary64.rendered (float_of_Z cb) (float_of_Z cf) v
          =? toUint8Clamp
               (Spec.interpolate (inject_Z cb) (inject_Z cf) (Some v))).
  pose (p := fun v : Z =>
          forallb (fun cb => forallb (fun cf => same cb cf v) Fixture.palette)
            Fixture.palette).
  assert (Hp : p sample = true).
  { apply (Z_range_forallb p 0 256); [vm_compute; reflexivity | lia]. }
  unfold p in Hp. rewrite forallb_forall in Hp.
  specialize (Hp background Hbackground). rewrite forallb_forall in Hp.
  specialize (Hp foreground Hforeground). now apply Z.eqb_eq.
Qed.

(** Off the bytes the two can part: a foreground of 25.5 on 0 with the
    sample 155 has the exact value 15.5, a tie that is stored as 16, and
    the binary64 value just below it, stored as 15. *)
Lemma rendered_differs_off_bytes :
  Binary64.rendered (S754_zero false) (Binary64.half_of 51) 155 = 15
  /\ toUint8Clamp (Spec.interpolate 0 (inject_Z 51 / 2) (Some 155)) = 16.
Proof. split; vm_compute; reflexivity. Qed.

(** Between integer channels the interpolated value is a multiple of 1/255:
    it is never at a tie of the rounding to a byte, which lies at an odd
    multiple of 1/2. *)
Lemma interpolate_off_ties (background foreground intensity k : Z) :
  ~ (inject_Z background
     + (inject_Z foreground - inject_Z background) * (inject_Z intensity / 255)
     == inject_Z k + 0.5)%Q.
Proof.
  unfold Qeq, Qplus, Qminus, Qmult, Qdiv, Qinv, Qopp, inject_Z. cbn.
  intros Heq. lia.
Qed.

(** * Further properties *)

(** ** Colours and their serialization *)

(** A byte is serialized to two lowercase hexadecimal digits. *)
Lemma _toTwoDigitHex_byte_lowercase (n : Z) :
  0 <= n <= 255 ->
  exists hi lo : Z,
    ParsedColor._toTwoDigitHex (inject_Z n) = [hi; lo]
    /\ Notion.isLowerHexDigit hi = true /\ Notion.isLowerHexDigit lo = true.
Proof.
  intros Hn.
  pose (p := fun z : Z =>
               match ParsedColor._toTwoDigitHex (inject_Z z) with
               | [hi; lo] => Notion.isLowerHexDigit hi && Notion.isLowerHexDigit lo
               | _ => false
               end).
  assert (Hp : p n = true).
  { apply (Z_range_forallb p 0 256); [vm_compute; reflexivity | lia]. }
  unfold p in Hp.
  destruct (ParsedColor._toTwoDigitHex (inject_Z n)) as [|hi [|lo [|]]];
    try discriminate Hp.
  apply andb_true_iff in Hp. exists hi, lo. tauto.
Qed.

(** X1: the serialization of a colour with byte channels is "#" followed by
    six lowercase hexadecimal digits, and _parseColor reads it back to the
    same colour. *)
Theorem X1_toCSSHex_round_trip (x y z : Z) :
  0 <= x <= 255 -> 0 <= y <= 255 -> 0 <= z <= 255 ->
  let c := ParsedColor.new (inject_Z x) (inject_Z y) (inject_Z z) in
  (exists digits,
      ParsedColor.toCSSHex c = 35 :: digits
      /\ length digits = 6%nat
      /\ Forall (fun d => Notion.isLowerHexDigit d = true) digits)
  /\ _parseColor (obj (ParsedColor.toCSSHex c)) = c.
Proof.
  intros Hx Hy Hz c. split; [|now apply toCSSHex_parses_back].
  destruct (_toTwoDigitHex_byte_lowercase x Hx) as (x1 & x0 & Ex & Lx1 & Lx0).
  destruct (_toTwoDigitHex_byte_lowercase y Hy) as (y1 & y0 & Ey & Ly1 & Ly0).
  destruct (_toTwoDigitHex_byte_lowercase z Hz) as (z1 & z0 & Ez & Lz1 & Lz0).
  exists [x1; x0; y1; y0; z1; z0].
  unfold ParsedColor.toCSSHex, c.
  cbn [ParsedColor.r ParsedColor.g ParsedColor.b ParsedColor.new].
  rewrite Ex, Ey, Ez. split; [reflexivity|]. split; [reflexivity|].
  repeat constructor; assumption.
Qed.

(** X1 on the colour (1, 128, 255): it is written "#0180ff". *)
Lemma X1_toCSSHex_round_trip_witness :
  let c := ParsedColor.new 1 128 255 in
  (exists digits,
      ParsedColor.toCSSHex c = 35 :: digits
      /\ length digits = 6%nat
      /\ Forall (fun d => Notion.isLowerHexDigit d = true) digits)
  /\ _parseColor (obj (ParsedColor.toCSSHex c)) = c.
Proof.
  apply (X1_toCSSHex_round_trip 1 128 255); lia.
Defined.

(** The integer part of [toString16] on an integer that is not negative. *)
Lemma toString16_nonneg (n : Z) :
  0 <= n ->
  toString16 (inject_Z n)
  = lit (NilZero.string_of_uint (N.to_hex_uint (Z.to_N n))).
Proof.
  intros Hn. unfold toString16.
  assert (Habs : Qabs (inject_Z n) = inject_Z n).
  { unfold Qabs, inject_Z. now rewrite Z.abs_eq. }
  rewrite Habs, Qfloor_Z.
  replace (Qgtb 0 (inject_Z n)) with false.
  2:{ symmetry. apply Qgtb_false_le. change 0%Q with (inject_Z 0).
      now rewrite <- Zle_Qle. }
  replace (Qeq_bool (inject_Z n - inject_Z n) 0) with true.
  2:{ symmetry. apply Qeq_bool_iff. unfold Qeq, Qminus, Qplus, Qopp, inject_Z.
      cbn. lia. }
  cbn [app]. now rewrite app_nil_r.
Qed.

Lemma length_lit (s : string) : length (lit s) = String.length s.
Proof.
  unfold lit. rewrite length_map.
  induction s as [|a s IH]; cbn; [reflexivity | now rewrite IH].
Qed.

Lemma string_of_uint_empty (u : Hexadecimal.uint) :
  String.length (NilEmpty.string_of_uint u) = 0%nat -> u = Hexadecimal.Nil.
Proof. destruct u; cbn; intros Hlen; [reflexivity | discriminate Hlen ..]. Qed.

(** At most two hexadecimal digits denote at most 255. *)
Lemma two_digits_at_most_255 (u : Hexadecimal.uint) :
  (String.length (NilZero.string_of_uint u) <= 2)%nat ->
  (N.of_hex_uint u <= 255)%N.
Proof.
  destruct u as [|u|u|u|u|u|u|u|u|u|u|u|u|u|u|u|u];
    [intros _; vm_compute; discriminate | ..];
    (destruct u as [|u|u|u|u|u|u|u|u|u|u|u|u|u|u|u|u];
     [intros _; vm_compute; discriminate | ..]);
    cbn [NilZero.string_of_uint NilEmpty.string_of_uint String.length];
    intros Hlen;
    (assert (Hu : u = Hexadecimal.Nil) by (apply string_of_uint_empty; lia));
    subst u; vm_compute; discriminate.
Qed.

(** The digits of [toString16] on a byte and past a byte. *)
Lemma length_toString16 (n : Z) :
  0 <= n ->
  (1 <= length (toString16 (inject_Z n)))%nat
  /\ (255 < n -> (3 <= length (toString16 (inject_Z n)))%nat).
Proof.
  intros Hn. rewrite toString16_nonneg by exact Hn. rewrite length_lit.
  set (u := N.to_hex_uint (Z.to_N n)).
  split.
  - unfold NilZero.string_of_uint. destruct u; cbn; lia.
  - intros Hbig.
    destruct (le_lt_dec (String.length (NilZero.string_of_uint u)) 2)
      as [Hshort|Hlong]; [|lia].
    apply two_digits_at_most_255 in Hshort. unfold u in Hshort.
    rewrite HexadecimalN.Unsigned.of_to in Hshort. lia.
Qed.

(** X2: for an integer channel that is not negative, _toTwoDigitHex gives
    exactly two characters if and only if the channel is at most 255: one
    digit is padded with a zero, three digits or more are padded too and
    give four characters or more. So toCSSHex has the seven characters of
    #rrggbb exactly when every channel is at most 255. *)
Theorem X2_toCSSHex_seven_characters_iff_bytes (x y z : Z) :
  0 <= x -> 0 <= y -> 0 <= z ->
  (length (ParsedColor._toTwoDigitHex (inject_Z x)) = 2%nat <-> x <= 255)
  /\ (255 < x -> (4 <= length (ParsedColor._toTwoDigitHex (inject_Z x)))%nat)
  /\ (length (ParsedColor.toCSSHex
                (ParsedColor.new (inject_Z x) (inject_Z y) (inject_Z z)))
      = 7%nat
      <-> x <= 255 /\ y <= 255 /\ z <= 255).
Proof.
  intros Hx Hy Hz.
  assert (Hpad : forall n, 0 <= n ->
             (n <= 255 -> length (ParsedColor._toTwoDigitHex (inject_Z n)) = 2%nat)
             /\ (255 < n ->
                 (4 <= length (ParsedColor._toTwoDigitHex (inject_Z n)))%nat)).
  { intros n Hn. split.
    - intros Hle. destruct (_toTwoDigitHex_byte n) as (hi & lo & -> & _);
        [lia | reflexivity].
    - intros Hbig. unfold ParsedColor._toTwoDigitHex.
      destruct (length_toString16 n Hn) as [_ Hlong]. specialize (Hlong Hbig).
      destruct (Nat.eqb_spec (length (toString16 (inject_Z n))) 2) as [Heq|_];
        [lia|].
      cbn [negb]. rewrite length_app. cbn. lia. }
  destruct (Hpad x Hx) as [Hx2 Hx4]. destruct (Hpad y Hy) as [Hy2 Hy4].
  destruct (Hpad z Hz) as [Hz2 Hz4].
  split; [|split].
  - split; [|exact Hx2]. intros Hlen.
    destruct (Z_le_gt_dec x 255) as [Hle|Hgt]; [exact Hle|].
    specialize (Hx4 ltac:(lia)). lia.
  - exact Hx4.
  - unfold ParsedColor.toCSSHex.
    cbn [ParsedColor.r ParsedColor.g ParsedColor.b ParsedColor.new].
    rewrite !length_app. change (length (lit "#")) with 1%nat.
    destruct (Z_le_gt_dec x 255) as [Hxle|Hxgt];
      destruct (Z_le_gt_dec y 255) as [Hyle|Hygt];
      destruct (Z_le_gt_dec z 255) as [Hzle|Hzgt];
      repeat match goal with
             | H : ?n <= 255, H2 : ?n <= 255 -> _ |- _ => specialize (H2 H)
             | H : ?n > 255, H4 : 255 < ?n -> _ |- _ => specialize (H4 ltac:(lia))
             end;
      split; intros; lia.
Qed.

(** X2 on the channels 256, 15 and 0: "0100", "0f" and "00", ten characters
    with the "#". *)
Lemma X2_toCSSHex_seven_characters_iff_bytes_witness :
  (4 <= length (ParsedColor._toTwoDigitHex 256))%nat
  /\ length (ParsedColor._toTwoDigitHex 15) = 2%nat
  /\ length (ParsedColor.toCSSHex (ParsedColor.new 256 15 0)) <> 7%nat.
Proof.
  destruct (X2_toCSSHex_seven_characters_iff_bytes 256 15 0)
    as (_ & Hlong & Hseven); [lia | lia | lia |].
  destruct (X2_toCSSHex_seven_characters_iff_bytes 15 0 0)
    as (Htwo & _ & _); [lia | lia | lia |].
  split; [apply Hlong; lia|]. split; [apply Htwo; lia|].
  intros Hlen. apply Hseven in Hlen. lia.
Defined.

(** ** The colour parser *)

Lemma normalized_map (f : Z -> Z) (s : jsstring) :
  (forall c, (f c =? 35) = (c =? 35)) ->
  Spec.normalized (map f s) = map f (Spec.normalized s).
Proof.
  intros Hf. destruct s as [|c rest]; [reflexivity|].
  cbn [map Spec.normalized]. rewrite Hf.
  destruct (c =? 35).
  - apply (firstn_map f 6 rest).
  - apply (firstn_map f 6 (c :: rest)).
Qed.

Lemma channels_map (f : Z -> Z) (s : jsstring) :
  f 0 = 0 ->
  (forall c, Spec.lenientValue (f c) = Spec.lenientValue c) ->
  Spec.channels Spec.lenientValue (map f s) = Spec.channels Spec.lenientValue s.
Proof.
  intros Hf0 Hf. unfold Spec.channels.
  assert (Hnth : forall i, Spec.lenientValue (nth i (map f s) 0)
                           = Spec.lenientValue (nth i s 0)).
  { intros i. rewrite <- Hf0 at 1. now rewrite map_nth, Hf. }
  now rewrite !Hnth.
Qed.

(** The parser reads a string and its image under a map of characters
    alike, when the map keeps "#" apart and the value of every character. *)
Lemma _parseColor_map (f : Z -> Z) (s : jsstring) :
  f 0 = 0 ->
  (forall c, (f c =? 35) = (c =? 35)) ->
  (forall c, Spec.lenientValue (f c) = Spec.lenientValue c) ->
  _parseColor (obj (map f s)) = _parseColor (obj s).
Proof.
  intros Hf0 Hhash Hvalue.
  destruct (Nat.eq_dec (length (Spec.normalized s)) 6%nat) as [Hlen|Hlen].
  - rewrite !_parseColor_six; rewrite ?normalized_map, ?length_map by assumption;
      try assumption.
    now apply channels_map.
  - rewrite !_parseColor_short; rewrite ?normalized_map, ?length_map by assumption;
      try assumption.
    reflexivity.
Qed.

Lemma lenientValue_case (c : Z) :
  Spec.lenientValue (Notion.lowerCase c) = Spec.lenientValue c
  /\ Spec.lenientValue (Notion.upperCase c) = Spec.lenientValue c.
Proof.
  destruct (Z_lt_le_dec c 48) as [Hlo|Hlo];
    [|destruct (Z_lt_le_dec 122 c) as [Hhi|Hhi]].
  - unfold Notion.lowerCase, Notion.upperCase.
    replace (65 <=? c) with false by lia. replace (97 <=? c) with false by lia.
    split; reflexivity.
  - unfold Notion.lowerCase, Notion.upperCase.
    replace (c <=? 90) with false by lia. replace (c <=? 122) with false by lia.
    rewrite !andb_false_r. split; reflexivity.
  - pose (p := fun z : Z =>
                 (Spec.lenientValue (Notion.lowerCase z) =? Spec.lenientValue z)
                 && (Spec.lenientValue (Notion.upperCase z) =? Spec.lenientValue z)).
    assert (Hp : p c = true).
    { apply (Z_range_forallb p 48 75); [vm_compute; reflexivity | lia]. }
    unfold p in Hp. apply andb_true_iff in Hp. now rewrite <- !Z.eqb_eq.
Qed.

Lemma case_keeps_hash (c : Z) :
  (Notion.lowerCase c =? 35) = (c =? 35)
  /\ (Notion.upperCase c =? 35) = (c =? 35).
Proof.
  unfold Notion.lowerCase, Notion.upperCase.
  destruct (Z.leb_spec 65 c), (Z.leb_spec c 90), (Z.leb_spec 97 c),
    (Z.leb_spec c 122); cbn [andb]; split; try reflexivity;
    destruct (Z.eqb_spec c 35); lia.
Qed.

(** X3: the parser does not distinguish the case of the letters: a colour
    string, the string in lower case and the string in upper case parse to
    the same colour. *)
Theorem X3_parseColor_ignores_case (s : jsstring) :
  _parseColor (obj (map Notion.lowerCase s)) = _parseColor (obj s)
  /\ _parseColor (obj (map Notion.upperCase s)) = _parseColor (obj s).
Proof.
  split; apply _parseColor_map; try reflexivity; intros c.
  - apply case_keeps_hash.
  - apply lenientValue_case.
  - apply case_keeps_hash.
  - apply lenientValue_case.
Qed.

Lemma normalized_app (s t : jsstring) :
  length (Spec.normalized s) = 6%nat ->
  Spec.normalized (s ++ t) = Spec.normalized s.
Proof.
  destruct s as [|c rest]; [discriminate|].
  cbn [app Spec.normalized]. destruct (c =? 35); intros Hlen.
  - rewrite length_take in Hlen. apply take_app_le. lia.
  - rewrite length_take in Hlen.
    change (c :: rest ++ t) with ((c :: rest) ++ t). apply take_app_le. lia.
Qed.

(** X4: the parser reads six characters after the optional "#" and ignores
    whatever follows them. *)
Theorem X4_parseColor_ignores_the_rest (s t : jsstring) :
  length (Spec.normalized s) = 6%nat ->
  _parseColor (obj (s ++ t)) = _parseColor (obj s).
Proof.
  intros Hlen. rewrite !_parseColor_six; rewrite ?normalized_app by exact Hlen;
    [reflexivity | exact Hlen | exact Hlen].
Qed.

(** X4 on "#ff8000" followed by an alpha channel and a comment. *)
Lemma X4_parseColor_ignores_the_rest_witness :
  _parseColor (obj (lit "#ff8000" ++ lit "80 /* orange */"))
  = _parseColor (obj (lit "#ff8000")).
Proof.
  apply (X4_parseColor_ignores_the_rest (lit "#ff8000")). reflexivity.
Defined.

(** X5: whatever the input, missing, malformed or not hexadecimal, the
    parsed colour has integer channels between 0 and 255, and its
    serialization parses to the same colour again. *)
Theorem X5_parseColor_yields_byte_channels (color : ref jsstring) :
  (exists x y z : Z,
      (0 <= x <= 255 /\ 0 <= y <= 255 /\ 0 <= z <= 255)
      /\ _parseColor color
         = ParsedColor.new (inject_Z x) (inject_Z y) (inject_Z z))
  /\ _parseColor (obj (ParsedColor.toCSSHex (_parseColor color)))
     = _parseColor color.
Proof.
  split.
  - apply _parseColor_byte_channels.
  - apply _parseColor_toCSSHex_idempotent.
Qed.

(** ** The colour table *)

Lemma table_lookup {Color : Type} (toRGBA : Color -> RGBA)
    (colorMap : list Color) (i : nat) :
  (1 <= i)%nat ->
  Notion.table toRGBA colorMap !! i
  = option_map
      (fun entry =>
         obj (ParsedColor.new (inject_Z (rgba_r (toRGBA entry)))
                              (inject_Z (rgba_g (toRGBA entry)))
                              (inject_Z (rgba_b (toRGBA entry)))))
      (colorMap !! i).
Proof.
  intros Hi. destruct i as [|i]; [lia|].
  unfold Notion.table.
  change (colorMap !! S i) with (colorMap !! (1 + i)%nat).
  rewrite <- (lookup_drop colorMap 1 i), <- lookup_map. reflexivity.
Qed.

Lemma length_table {Color : Type} (toRGBA : Color -> RGBA) (colorMap : list Color) :
  length (Notion.table toRGBA colorMap) = Nat.max 1 (length colorMap).
Proof.
  unfold Notion.table. cbn [length]. rewrite length_map, length_drop. lia.
Qed.

(** X6: after _setColorMap(colorMap) the table has one entry for each entry
    of the colour map and at least one; the emitter has fired once more;
    getColor(id) is the colour of colorMap[id] for every id from 1 that the
    colour map has; and for every other id it is the colour of colorMap[2],
    which is undefined when the colour map has fewer than three entries. The
    table before the call plays no part. *)
Theorem X6_setColorMap_then_getColor {Color : Type} (toRGBA : Color -> RGBA)
    (this : MinimapTokensColorTracker.t) (colorMap : list Color) :
  let this' := _setColorMap toRGBA this colorMap in
  let colour (entry : Color) :=
    obj (ParsedColor.new (inject_Z (rgba_r (toRGBA entry)))
                         (inject_Z (rgba_g (toRGBA entry)))
                         (inject_Z (rgba_b (toRGBA entry)))) in
  length (_colors this') = Nat.max 1 (length colorMap)
  /\ _onDidChange_fired this' = S (_onDidChange_fired this)
  /\ (forall colorId entry,
         1 <= colorId -> colorMap !! Z.to_nat colorId = Some entry ->
         getColor this' colorId = colour entry)
  /\ (forall colorId,
         colorId < 1 \/ Z.of_nat (length colorMap) <= colorId ->
         getColor this' colorId
         = match colorMap !! 2%nat with
           | Some entry => colour entry
           | None => undefined
           end).
Proof.
  intros this' colour.
  assert (Htable : _colors this' = Notion.table toRGBA colorMap)
    by apply _setColorMap_table.
  split; [rewrite Htable; apply length_table|]. split; [reflexivity|].
  unfold getColor. rewrite Htable, length_table. split.
  - intros colorId entry Hid Hentry.
    pose proof (lookup_lt_Some _ _ _ Hentry) as Hlt.
    destruct (Nat.max_spec 1 (length colorMap)) as [[? ->]|[? ->]].
    all: replace ((colorId <? 1) || (colorId >=? Z.of_nat _))
      with false by (symmetry; apply orb_false_iff; split; lia).
    all: unfold index; replace (colorId <? 0) with false by lia.
    all: rewrite table_lookup by lia; now rewrite Hentry.
  - intros colorId Hout.
    replace ((colorId <? 1) || (colorId >=? Z.of_nat (Nat.max 1 (length colorMap))))
      with true.
    2:{ destruct (Z.ltb_spec colorId 1) as [Hlow|Hhigh]; [reflexivity|].
        cbn [orb]. symmetry.
        destruct (Nat.max_spec 1 (length colorMap)) as [[? ->]|[? ->]];
          apply Z.geb_le; lia. }
    unfold index. change (2 <? 0) with false. change (Z.to_nat 2) with 2%nat.
    rewrite table_lookup by lia. destruct (colorMap !! 2%nat); reflexivity.
Qed.

(** ** The tracker and the registry *)

Lemma listen_follows {Color : Type} (toRGBA : Color -> RGBA)
    (events : list (TokenizationRegistry Color * TokenizationRegistryChangedEvent))
    (this : MinimapTokensColorTracker.t) (current : list Color) :
  _colors this = Notion.table toRGBA current ->
  _colors (listen toRGBA this events)
  = Notion.table toRGBA (Notion.latestColorMap current events)
  /\ _onDidChange_fired (listen toRGBA this events)
     = (_onDidChange_fired this + Notion.announced events)%nat.
Proof.
  revert this current.
  induction events as [|[registry e] rest IH]; intros this current Hthis.
  - cbn. split; [exact Hthis | lia].
  - change (listen toRGBA this ((registry, e) :: rest))
      with (listen toRGBA (onRegistryChange toRGBA registry e this) rest).
    change (Notion.latestColorMap current ((registry, e) :: rest))
      with (Notion.latestColorMap
              (if changedColorMap e then getColorMap registry else current) rest).
    change (Notion.announced ((registry, e) :: rest))
      with (length (if changedColorMap e
                    then (registry, e)
                         :: List.filter (fun ev => changedColorMap (snd ev)) rest
                    else List.filter (fun ev => changedColorMap (snd ev)) rest)).
    unfold onRegistryChange. destruct (changedColorMap e).
    + destruct (IH (_setColorMap toRGBA this (getColorMap registry))
                  (getColorMap registry) (_setColorMap_table _ _ _))
        as [Hcolors Hfired].
      split; [exact Hcolors|]. rewrite Hfired. unfold Notion.announced. cbn. lia.
    + apply (IH this current Hthis).
Qed.

(** X7: a tracker follows the registry through the events that announce a
    change of the colour map, and through those only. After construction
    and any run of registry events, its table is the one of the colour map
    of the latest announcing event (of the construction when there is
    none), and its emitter has fired once for the construction and once for
    each announcing event. *)
Theorem X7_tracker_follows_announced_changes {Color : Type}
    (toRGBA : Color -> RGBA) (registry : TokenizationRegistry Color)
    (events : list (TokenizationRegistry Color * TokenizationRegistryChangedEvent)) :
  let this := listen toRGBA (MinimapTokensColorTracker.new toRGBA registry) events in
  _colors this
  = Notion.table toRGBA (Notion.latestColorMap (getColorMap registry) events)
  /\ _onDidChange_fired this = S (Notion.announced events).
Proof.
  intros this.
  destruct (listen_follows toRGBA events
              (MinimapTokensColorTracker.new toRGBA registry)
              (getColorMap registry) (_setColorMap_table _ _ _))
    as [Hcolors Hfired].
  split; [exact Hcolors | exact Hfired].
Qed.

(** ** Sequences of stores *)

Lemma length_applyStores (stores : list (Z * number)) (a : list Z) :
  length (Notion.applyStores a stores) = length a.
Proof.
  revert a. induction stores as [|store rest IH]; intros a; [reflexivity|].
  cbn [Notion.applyStores fold_left]. fold (Notion.applyStores (typedSet a (fst store) (snd store)) rest).
  rewrite IH. apply length_typedSet.
Qed.

(** A read after a sequence of stores gives the latest store at the offset,
    converted to a byte, or what the array held. *)
Lemma typedGet_applyStores (stores : list (Z * number)) (a : list Z) (k : Z) :
  typedGet (Notion.applyStores a stores) k
  = match Notion.lastStore (length a) stores k with
    | Some x => Some (toUint8Clamp x)
    | None => typedGet a k
    end.
Proof.
  revert a. induction stores as [|store rest IH]; intros a; [reflexivity|].
  cbn [Notion.applyStores fold_left Notion.lastStore].
  fold (Notion.applyStores (typedSet a (fst store) (snd store)) rest).
  rewrite IH, length_typedSet.
  destruct (Notion.lastStore (length a) rest k); [reflexivity|].
  rewrite typedGet_typedSet.
  destruct ((k =? fst store)
            && ((0 <=? fst store) && (fst store <? Z.of_nat (length a))));
    reflexivity.
Qed.

Lemma lastStore_In (len : nat) (stores : list (Z * number)) (k : Z) (x : number) :
  Notion.lastStore len stores k = Some x -> In (k, x) stores.
Proof.
  induction stores as [|[i y] rest IH]; cbn [Notion.lastStore fst snd];
    [discriminate|].
  destruct (Notion.lastStore len rest k) as [x'|].
  - intros [= ->]. right. now apply IH.
  - destruct (Z.eqb_spec k i) as [->|_]; cbn [andb]; [|discriminate].
    destruct ((0 <=? i) && (i <? Z.of_nat len)); [|discriminate].
    intros [= ->]. now left.
Qed.

(** Two sequences that store at different offsets can be run in either
    order. *)
Lemma applyStores_commute (l1 l2 : list (Z * number)) (a : list Z) :
  (forall i x j y, In (i, x) l1 -> In (j, y) l2 -> i <> j) ->
  Notion.applyStores (Notion.applyStores a l1) l2
  = Notion.applyStores (Notion.applyStores a l2) l1.
Proof.
  intros Hapart. apply typedGet_ext; [now rewrite !length_applyStores|].
  intros k. rewrite !typedGet_applyStores, !length_applyStores.
  destruct (Notion.lastStore (length a) l1 k) as [x|] eqn:H1;
    destruct (Notion.lastStore (length a) l2 k) as [y|] eqn:H2; try reflexivity.
  exfalso. apply lastStore_In in H1, H2. now apply (Hapart k x k y).
Qed.

(** Running a sequence of stores again changes nothing. *)
Lemma applyStores_idempotent (l : list (Z * number)) (a : list Z) :
  Notion.applyStores (Notion.applyStores a l) l = Notion.applyStores a l.
Proof.
  apply typedGet_ext; [now rewrite !length_applyStores|].
  intros k. rewrite !typedGet_applyStores, !length_applyStores.
  destruct (Notion.lastStore (length a) l k); reflexivity.
Qed.

Lemma applyStores_frame (l : list (Z * number)) (a : list Z) (k : Z) :
  (forall i x, In (i, x) l -> i <> k) ->
  typedGet (Notion.applyStores a l) k = typedGet a k.
Proof.
  intros Hk. rewrite typedGet_applyStores.
  destruct (Notion.lastStore (length a) l k) as [x|] eqn:Hlast; [|reflexivity].
  apply lastStore_In in Hlast. now apply Hk in Hlast.
Qed.

Lemma typedSet_congr (a a' : list Z) (i i' : Z) (x x' : number) :
  a = a' -> i = i' -> x = x' -> typedSet a i x = typedSet a' i' x'.
Proof. now intros -> -> ->. Qed.

Lemma interpolate_congr (background foreground : Q) (atlas : list Z) (n n' : Z) :
  n = n' ->
  Spec.interpolate background foreground (typedGet atlas n)
  = Spec.interpolate background foreground (typedGet atlas n').
Proof. now intros ->. Qed.

(** The stores of the two methods, as the source writes them. *)
Lemma x2RenderChar_applies (this : MinimapCharRenderer.t) (target : ImageData)
    (dx dy chCode : Z) (color backgroundColor : ParsedColor.t) :
  dx + 2 <= width target -> dy + 4 <= height target ->
  data (fst (x2RenderChar this target dx dy chCode color backgroundColor))
  = Notion.applyStores (data target)
      (Notion.x2Stores this target dx dy chCode color backgroundColor).
Proof.
  intros Hw Hh. rewrite x2RenderChar_data by assumption. cbv zeta.
  unfold Notion.x2Stores, Notion.applyStores, Spec.byteOffset.
  cbn [flat_map map app fold_left fst snd].
  replace (_getChIndex chCode * 4 * 2) with (_getChIndex chCode * 8) by ring.
  repeat (apply typedSet_congr; [ | ring | apply interpolate_congr; ring ]).
  reflexivity.
Qed.

Lemma x1RenderChar_applies (this : MinimapCharRenderer.t) (target : ImageData)
    (dx dy chCode : Z) (color backgroundColor : ParsedColor.t) :
  dx + 1 <= width target -> dy + 2 <= height target ->
  data (fst (x1RenderChar this target dx dy chCode color backgroundColor))
  = Notion.applyStores (data target)
      (Notion.x1Stores this target dx dy chCode color backgroundColor).
Proof.
  intros Hw Hh. rewrite x1RenderChar_data by assumption. cbv zeta.
  unfold Notion.x1Stores, Notion.applyStores, Spec.byteOffset.
  cbn [flat_map map app fold_left fst snd].
  replace (_getChIndex chCode * 2 * 1) with (_getChIndex chCode * 2) by ring.
  repeat (apply typedSet_congr; [ | ring | apply interpolate_congr; ring ]).
  reflexivity.
Qed.

(** ** What a rendering call touches *)

Lemma byteOffset_inj (target : ImageData) (x y ch x' y' ch' : Z) :
  0 <= x < width target -> 0 <= x' < width target ->
  0 <= ch < 4 -> 0 <= ch' < 4 ->
  Spec.byteOffset target x y ch = Spec.byteOffset target x' y' ch' ->
  x = x' /\ y = y' /\ ch = ch'.
Proof.
  unfold Spec.byteOffset. intros Hx Hx' Hch Hch' Heq.
  assert (Hpix : y * width target + x = y' * width target + x') by lia.
  assert (Hy : y = y') by nia.
  subst y'. lia.
Qed.

Lemma byteOffset_width (t1 t2 : ImageData) (x y ch : Z) :
  width t1 = width t2 -> Spec.byteOffset t1 x y ch = Spec.byteOffset t2 x y ch.
Proof. unfold Spec.byteOffset. now intros ->. Qed.

Lemma In_x2Stores (this : MinimapCharRenderer.t) (target : ImageData)
    (dx dy chCode : Z) (color backgroundColor : ParsedColor.t) (i : Z) (x : number) :
  In (i, x) (Notion.x2Stores this target dx dy chCode color backgroundColor) ->
  exists col row ch,
    0 <= col < 2 /\ 0 <= row < 4 /\ 0 <= ch < 3
    /\ i = Spec.byteOffset target (dx + col) (dy + row) ch.
Proof.
  unfold Notion.x2Stores. rewrite in_flat_map.
  intros (row & Hrow & Hin). rewrite in_flat_map in Hin.
  destruct Hin as (col & Hcol & Hin). rewrite in_map_iff in Hin.
  destruct Hin as (ch & [= <- _] & Hch).
  exists col, row, ch. cbn [In] in Hrow, Hcol, Hch. intuition lia.
Qed.

Lemma In_x1Stores (this : MinimapCharRenderer.t) (target : ImageData)
    (dx dy chCode : Z) (color backgroundColor : ParsedColor.t) (i : Z) (x : number) :
  In (i, x) (Notion.x1Stores this target dx dy chCode color backgroundColor) ->
  exists row ch,
    0 <= row < 2 /\ 0 <= ch < 3
    /\ i = Spec.byteOffset target dx (dy + row) ch.
Proof.
  unfold Notion.x1Stores. rewrite in_flat_map.
  intros (row & Hrow & Hin). rewrite in_map_iff in Hin.
  destruct Hin as (ch & [= <- _] & Hch).
  exists row, ch. cbn [In] in Hrow, Hch. intuition lia.
Qed.

Lemma x2Stores_width (this : MinimapCharRenderer.t) (t1 t2 : ImageData)
    (dx dy chCode : Z) (color backgroundColor : ParsedColor.t) :
  width t1 = width t2 ->
  Notion.x2Stores this t1 dx dy chCode color backgroundColor
  = Notion.x2Stores this t2 dx dy chCode color backgroundColor.
Proof.
  intros Hwidth. unfold Notion.x2Stores, Spec.byteOffset. now rewrite Hwidth.
Qed.

Lemma x1Stores_width (this : MinimapCharRenderer.t) (t1 t2 : ImageData)
    (dx dy chCode : Z) (color backgroundColor : ParsedColor.t) :
  width t1 = width t2 ->
  Notion.x1Stores this t1 dx dy chCode color backgroundColor
  = Notion.x1Stores this t2 dx dy chCode color backgroundColor.
Proof.
  intros Hwidth. unfold Notion.x1Stores, Spec.byteOffset. now rewrite Hwidth.
Qed.

Lemma ImageData_eq (t1 t2 : ImageData) :
  width t1 = width t2 -> height t1 = height t2 -> data t1 = data t2 -> t1 = t2.
Proof. destruct t1, t2; cbn. now intros -> -> ->. Qed.

(** X8: a call that lies inside the target (0 <= dx, dx + width <=
    target.width, dy + height <= target.height) keeps the size of the target
    and the length of its buffer, and changes no byte of any pixel outside
    the rectangle of the character: 2 by 4 pixels at (dx, dy) for
    x2RenderChar, 1 by 2 for x1RenderChar. *)
Theorem X8_render_touches_its_rectangle_only
    (this : MinimapCharRenderer.t) (target : ImageData)
    (dx dy chCode : Z) (color backgroundColor : ParsedColor.t) :
  0 <= dx ->
  (dx + 2 <= width target -> dy + 4 <= height target ->
   let out := fst (x2RenderChar this target dx dy chCode color backgroundColor) in
   width out = width target /\ height out = height target
   /\ length (data out) = length (data target)
   /\ forall x y ch,
        0 <= x < width target -> 0 <= ch < 4 ->
        ~ (dx <= x < dx + 2 /\ dy <= y < dy + 4) ->
        Spec.pixelByte out x y ch = Spec.pixelByte target x y ch)
  /\ (dx + 1 <= width target -> dy + 2 <= height target ->
      let out := fst (x1RenderChar this target dx dy chCode color backgroundColor) in
      width out = width target /\ height out = height target
      /\ length (data out) = length (data target)
      /\ forall x y ch,
           0 <= x < width target -> 0 <= ch < 4 ->
           ~ (x = dx /\ dy <= y < dy + 2) ->
           Spec.pixelByte out x y ch = Spec.pixelByte target x y ch).
Proof.
  intros Hdx. split; intros Hw Hh out.
  - destruct (x2RenderChar_accepts this target dx dy chCode color backgroundColor
                Hw Hh) as (_ & Hwidth & Hheight & Hlen).
    repeat (split; [assumption|]).
    intros x y ch Hx Hch Hout. now apply x2RenderChar_outside.
  - destruct (x1RenderChar_accepts this target dx dy chCode color backgroundColor
                Hw Hh) as (_ & Hwidth & Hheight & Hlen).
    repeat (split; [assumption|]).
    intros x y ch Hx Hch Hout. now apply x1RenderChar_outside.
Qed.

(** X8 on a target of 3 by 5 pixels filled with 7: drawing at (1, 1) at
    double size leaves the pixel at (0, 2) as it was. *)
Lemma X8_render_touches_its_rectangle_only_witness :
  Spec.pixelByte
    (fst (x2RenderChar Fixture.renderer (Fixture.canvas 3 5) 1 1 65
            Fixture.white Fixture.black)) 0 2 1
  = Some 7.
Proof.
  destruct (X8_render_touches_its_rectangle_only Fixture.renderer
              (Fixture.canvas 3 5) 1 1 65 Fixture.white Fixture.black)
    as [H2 _]; [lia|].
  destruct H2 as (_ & _ & _ & Hout); [vm_compute; discriminate ..|].
  refine (eq_trans (Hout 0 2 1 _ _ _) _); [| lia | lia | reflexivity].
  change (0 <= 0 < 3). lia.
Defined.

(** X9: drawing the same character again at the same place with the same
    colours changes nothing: the second call returns the target and the
    diagnostics of the first. *)
Theorem X9_render_twice_is_render_once
    (this : MinimapCharRenderer.t) (target : ImageData)
    (dx dy chCode : Z) (color backgroundColor : ParsedColor.t) :
  (let once := x2RenderChar this target dx dy chCode color backgroundColor in
   x2RenderChar this (fst once) dx dy chCode color backgroundColor = once)
  /\ (let once := x1RenderChar this target dx dy chCode color backgroundColor in
      x1RenderChar this (fst once) dx dy chCode color backgroundColor = once).
Proof.
  split; intros once.
  - destruct (Z_le_gt_dec (dx + 2) (width target)) as [Hw|Hw];
      [destruct (Z_le_gt_dec (dy + 4) (height target)) as [Hh|Hh]|].
    + destruct (x2RenderChar_accepts this target dx dy chCode color
                  backgroundColor Hw Hh) as (Hlog & Hwidth & Hheight & _).
      fold once in Hlog, Hwidth, Hheight.
      assert (Hw' : dx + 2 <= width (fst once)) by (rewrite Hwidth; exact Hw).
      assert (Hh' : dy + 4 <= height (fst once)) by (rewrite Hheight; exact Hh).
      destruct (x2RenderChar_accepts this (fst once) dx dy chCode color
                  backgroundColor Hw' Hh') as (Hlog' & Hwidth' & Hheight' & _).
      apply injective_projections; [|congruence].
      apply ImageData_eq; [congruence | congruence |].
      rewrite x2RenderChar_applies by assumption.
      rewrite (x2Stores_width this (fst once) target) by exact Hwidth.
      unfold once. rewrite x2RenderChar_applies by assumption.
      apply applyStores_idempotent.
    + unfold once. rewrite (x2RenderChar_rejects this target) by auto.
      apply x2RenderChar_rejects. auto.
    + unfold once. rewrite (x2RenderChar_rejects this target) by auto.
      apply x2RenderChar_rejects. auto.
  - destruct (Z_le_gt_dec (dx + 1) (width target)) as [Hw|Hw];
      [destruct (Z_le_gt_dec (dy + 2) (height target)) as [Hh|Hh]|].
    + destruct (x1RenderChar_accepts this target dx dy chCode color
                  backgroundColor Hw Hh) as (Hlog & Hwidth & Hheight & _).
      fold once in Hlog, Hwidth, Hheight.
      assert (Hw' : dx + 1 <= width (fst once)) by (rewrite Hwidth; exact Hw).
      assert (Hh' : dy + 2 <= height (fst once)) by (rewrite Hheight; exact Hh).
      destruct (x1RenderChar_accepts this (fst once) dx dy chCode color
                  backgroundColor Hw' Hh') as (Hlog' & Hwidth' & Hheight' & _).
      apply injective_projections; [|congruence].
      apply ImageData_eq; [congruence | congruence |].
      rewrite x1RenderChar_applies by assumption.
      rewrite (x1Stores_width this (fst once) target) by exact Hwidth.
      unfold once. rewrite x1RenderChar_applies by assumption.
      apply applyStores_idempotent.
    + unfold once. rewrite (x1RenderChar_rejects this target) by auto.
      apply x1RenderChar_rejects. auto.
    + unfold once. rewrite (x1RenderChar_rejects this target) by auto.
      apply x1RenderChar_rejects. auto.
Qed.

(** X10: two characters drawn into rectangles of the target that do not
    overlap can be drawn in either order: the target is the same after both
    calls, whatever the characters and the colours. *)
Theorem X10_render_apart_in_either_order
    (this : MinimapCharRenderer.t) (target : ImageData)
    (dx1 dy1 chCode1 : Z) (color1 backgroundColor1 : ParsedColor.t)
    (dx2 dy2 chCode2 : Z) (color2 backgroundColor2 : ParsedColor.t) :
  0 <= dx1 -> 0 <= dx2 ->
  (dx1 + 2 <= width target -> dy1 + 4 <= height target ->
   dx2 + 2 <= width target -> dy2 + 4 <= height target ->
   dx1 + 2 <= dx2 \/ dx2 + 2 <= dx1 \/ dy1 + 4 <= dy2 \/ dy2 + 4 <= dy1 ->
   fst (x2RenderChar this
          (fst (x2RenderChar this target dx1 dy1 chCode1 color1 backgroundColor1))
          dx2 dy2 chCode2 color2 backgroundColor2)
   = fst (x2RenderChar this
            (fst (x2RenderChar this target dx2 dy2 chCode2 color2 backgroundColor2))
            dx1 dy1 chCode1 color1 backgroundColor1))
  /\ (dx1 + 1 <= width target -> dy1 + 2 <= height target ->
      dx2 + 1 <= width target -> dy2 + 2 <= height target ->
      dx1 <> dx2 \/ dy1 + 2 <= dy2 \/ dy2 + 2 <= dy1 ->
      fst (x1RenderChar this
             (fst (x1RenderChar this target dx1 dy1 chCode1 color1 backgroundColor1))
             dx2 dy2 chCode2 color2 backgroundColor2)
      = fst (x1RenderChar this
               (fst (x1RenderChar this target dx2 dy2 chCode2 color2 backgroundColor2))
               dx1 dy1 chCode1 color1 backgroundColor1)).
Proof.
  intros Hdx1 Hdx2. split; intros Hw1 Hh1 Hw2 Hh2 Hapart.
  - destruct (x2RenderChar_accepts this target dx1 dy1 chCode1 color1
                backgroundColor1 Hw1 Hh1) as (_ & Hwidth1 & Hheight1 & _).
    destruct (x2RenderChar_accepts this target dx2 dy2 chCode2 color2
                backgroundColor2 Hw2 Hh2) as (_ & Hwidth2 & Hheight2 & _).
    set (out1 := fst (x2RenderChar this target dx1 dy1 chCode1 color1
                        backgroundColor1)) in *.
    set (out2 := fst (x2RenderChar this target dx2 dy2 chCode2 color2
                        backgroundColor2)) in *.
    assert (Hw12 : dx2 + 2 <= width out1) by (rewrite Hwidth1; exact Hw2).
    assert (Hh12 : dy2 + 4 <= height out1) by (rewrite Hheight1; exact Hh2).
    assert (Hw21 : dx1 + 2 <= width out2) by (rewrite Hwidth2; exact Hw1).
    assert (Hh21 : dy1 + 4 <= height out2) by (rewrite Hheight2; exact Hh1).
    destruct (x2RenderChar_accepts this out1 dx2 dy2 chCode2 color2
                backgroundColor2 Hw12 Hh12) as (_ & Hwidth12 & Hheight12 & _).
    destruct (x2RenderChar_accepts this out2 dx1 dy1 chCode1 color1
                backgroundColor1 Hw21 Hh21) as (_ & Hwidth21 & Hheight21 & _).
    apply ImageData_eq; [congruence | congruence |].
    rewrite !x2RenderChar_applies by assumption.
    rewrite (x2Stores_width this out1 target) by exact Hwidth1.
    rewrite (x2Stores_width this out2 target) by exact Hwidth2.
    unfold out1, out2. rewrite !x2RenderChar_applies by assumption.
    apply applyStores_commute.
    intros i x j y Hi Hj Heq.
    apply In_x2Stores in Hi, Hj.
    destruct Hi as (col1 & row1 & c1 & Hcol1 & Hrow1 & Hc1 & ->).
    destruct Hj as (col2 & row2 & c2 & Hcol2 & Hrow2 & Hc2 & Hj).
    rewrite Hj in Heq. apply byteOffset_inj in Heq; lia.
  - destruct (x1RenderChar_accepts this target dx1 dy1 chCode1 color1
                backgroundColor1 Hw1 Hh1) as (_ & Hwidth1 & Hheight1 & _).
    destruct (x1RenderChar_accepts this target dx2 dy2 chCode2 color2
                backgroundColor2 Hw2 Hh2) as (_ & Hwidth2 & Hheight2 & _).
    set (out1 := fst (x1RenderChar this target dx1 dy1 chCode1 color1
                        backgroundColor1)) in *.
    set (out2 := fst (x1RenderChar this target dx2 dy2 chCode2 color2
                        backgroundColor2)) in *.
    assert (Hw12 : dx2 + 1 <= width out1) by (rewrite Hwidth1; exact Hw2).
    assert (Hh12 : dy2 + 2 <= height out1) by (rewrite Hheight1; exact Hh2).
    assert (Hw21 : dx1 + 1 <= width out2) by (rewrite Hwidth2; exact Hw1).
    assert (Hh21 : dy1 + 2 <= height out2) by (rewrite Hheight2; exact Hh1).
    destruct (x1RenderChar_accepts this out1 dx2 dy2 chCode2 color2
                backgroundColor2 Hw12 Hh12) as (_ & Hwidth12 & Hheight12 & _).
    destruct (x1RenderChar_accepts this out2 dx1 dy1 chCode1 color1
                backgroundColor1 Hw21 Hh21) as (_ & Hwidth21 & Hheight21 & _).
    apply ImageData_eq; [congruence | congruence |].
    rewrite !x1RenderChar_applies by assumption.
    rewrite (x1Stores_width this out1 target) by exact Hwidth1.
    rewrite (x1Stores_width this out2 target) by exact Hwidth2.
    unfold out1, out2. rewrite !x1RenderChar_applies by assumption.
    apply applyStores_commute.
    intros i x j y Hi Hj Heq.
    apply In_x1Stores in Hi, Hj.
    destruct Hi as (row1 & c1 & Hrow1 & Hc1 & ->).
    destruct Hj as (row2 & c2 & Hrow2 & Hc2 & Hj).
    rewrite Hj in Heq. apply byteOffset_inj in Heq; lia.
Qed.

(** X10 on a target of 4 by 4 pixels: "A" at (0, 0) and "B" at (2, 0), at
    double size. *)
Lemma X10_render_apart_in_either_order_witness :
  let draw (t : ImageData) dx chCode :=
    fst (x2RenderChar Fixture.renderer t dx 0 chCode Fixture.white Fixture.black) in
  draw (draw (Fixture.canvas 4 4) 0 65) 2 66
  = draw (draw (Fixture.canvas 4 4) 2 66) 0 65.
Proof.
  intros draw.
  apply (proj1 (X10_render_apart_in_either_order Fixture.renderer
                  (Fixture.canvas 4 4) 0 0 65 Fixture.white Fixture.black
                  2 0 66 Fixture.white Fixture.black ltac:(lia) ltac:(lia)));
    cbn [width height Fixture.canvas]; lia.
Defined.

(** ** The bytes that a rendering call writes *)

Lemma Qle_bool_Qeq (x x' y y' : Q) :
  (x == x')%Q -> (y == y')%Q -> Qle_bool x y = Qle_bool x' y'.
Proof.
  intros Hx Hy. apply eq_true_iff_eq. rewrite !Qle_bool_iff, Hx, Hy. reflexivity.
Qed.

(** The conversion to a byte does not depend on how a rational is written. *)
Lemma toUint8Clamp_Qeq (q q' : Q) :
  (q == q')%Q -> toUint8Clamp (Finite q) = toUint8Clamp (Finite q').
Proof.
  intros Hq. unfold toUint8Clamp, Qgtb.
  rewrite (Qle_bool_Qeq q q' 0 0 Hq (Qeq_refl 0)).
  rewrite (Qle_bool_Qeq 255 255 q q' (Qeq_refl 255) Hq).
  rewrite (Qfloor_comp q q' Hq).
  rewrite (Qle_bool_Qeq q q' _ _ Hq (Qeq_refl _)).
  rewrite (Qle_bool_Qeq _ _ q q' (Qeq_refl _) Hq).
  reflexivity.
Qed.

(** A value between two bytes is stored as a byte between them. *)
Lemma toUint8Clamp_between (a b : Z) (q : Q) :
  0 <= a -> b <= 255 ->
  (inject_Z a <= q <= inject_Z b)%Q ->
  a <= toUint8Clamp (Finite q) <= b.
Proof.
  intros Ha Hb [Hlo Hhi].
  assert (Hq : (0 <= q <= 255)%Q).
  { split.
    - apply Qle_trans with (inject_Z a); [|exact Hlo].
      change 0%Q with (inject_Z 0). now rewrite <- Zle_Qle.
    - apply Qle_trans with (inject_Z b); [exact Hhi|].
      change 255%Q with (inject_Z 255). now rewrite <- Zle_Qle. }
  pose proof (toUint8Clamp_nearest q Hq) as Hnear.
  apply Qabs_Qle_condition in Hnear. destruct Hnear as [Hn1 Hn2].
  set (r := toUint8Clamp (Finite q)) in *.
  split.
  - destruct (Z_le_gt_dec a r) as [Hle|Hgt]; [exact Hle|exfalso].
    assert (Hr : (inject_Z r <= inject_Z a - 1)%Q).
    { change 1%Q with (inject_Z 1). unfold Qminus.
      rewrite <- inject_Z_opp, <- inject_Z_plus, <- Zle_Qle. lia. }
    lra.
  - destruct (Z_le_gt_dec r b) as [Hle|Hgt]; [exact Hle|exfalso].
    assert (Hr : (inject_Z b + 1 <= inject_Z r)%Q).
    { change 1%Q with (inject_Z 1). rewrite <- inject_Z_plus, <- Zle_Qle. lia. }
    lra.
Qed.

(** The byte stored for a sample between two byte channels. *)
Lemma interpolated_byte (cb cf v : Z) :
  0 <= cb <= 255 -> 0 <= cf <= 255 -> 0 <= v <= 255 ->
  let byte := toUint8Clamp
                (Spec.interpolate (inject_Z cb) (inject_Z cf) (Some v)) in
  Z.min cb cf <= byte <= Z.max cb cf
  /\ (v = 0 -> byte = cb) /\ (v = 255 -> byte = cf).
Proof.
  intros Hb Hf Hv byte. unfold byte, Spec.interpolate. split; [|split].
  - apply toUint8Clamp_between; [lia | lia | now apply interpolate_within].
  - intros ->.
    enough (cb <= toUint8Clamp
                    (Finite (inject_Z cb
                             + (inject_Z cf - inject_Z cb) * (inject_Z 0 / 255)))
            <= cb) by lia.
    apply toUint8Clamp_between; [lia | lia |].
    unfold Qle, Qplus, Qminus, Qmult, Qdiv, Qinv, Qopp, inject_Z. cbn. lia.
  - intros ->.
    enough (cf <= toUint8Clamp
                    (Finite (inject_Z cb
                             + (inject_Z cf - inject_Z cb) * (inject_Z 255 / 255)))
            <= cf) by lia.
    apply toUint8Clamp_between; [lia | lia |].
    unfold Qle, Qplus, Qminus, Qmult, Qdiv, Qinv, Qopp, inject_Z. cbn. lia.
Qed.

(** The sample behind a written byte is an entry of the atlas selected by
    the background. *)
Lemma x2RenderChar_sampled (x2CharData x1CharData : list Z)
    (this : MinimapCharRenderer.t) (target : ImageData)
    (dx dy chCode : Z) (color backgroundColor : ParsedColor.t) (col row ch : Z) :
  MinimapCharRenderer.new x2CharData x1CharData = Normal this ->
  Spec.wellFormed target -> 0 <= dx -> 0 <= dy -> 0 <= chCode ->
  dx + 2 <= width target -> dy + 4 <= height target ->
  0 <= col < 2 -> 0 <= row < 4 -> 0 <= ch < 3 ->
  exists intensity,
    typedGet (if ParsedColor.isLight backgroundColor
              then soften x2CharData (12 / 15) else x2CharData)
             (Spec.glyphIndex chCode * 8 + (row * 2 + col)) = Some intensity
    /\ Spec.pixelByte
         (fst (x2RenderChar this target dx dy chCode color backgroundColor))
         (dx + col) (dy + row) ch
       = Some (toUint8Clamp
                 (Spec.interpolate (Spec.channel ch backgroundColor)
                    (Spec.channel ch color) (Some intensity))).
Proof.
  intros Hnew Htarget Hdx Hdy Hc Hw Hh Hcol Hrow Hch.
  destruct (new_Normal _ _ _ Hnew) as (Hlen2 & Hlen1 & ->).
  destruct (atlas_sample_defined
              (if ParsedColor.isLight backgroundColor
               then soften x2CharData (12 / 15) else x2CharData)
              chCode 8 (row * 2 + col)) as [intensity Hsample]; [|lia|lia|].
  { destruct (ParsedColor.isLight backgroundColor);
      rewrite ?length_soften, Hlen2; reflexivity. }
  exists intensity. split; [exact Hsample|].
  rewrite x2RenderChar_pixel by assumption.
  cbn [x2charData x2charDataLight].
  rewrite (_getChIndex_wraps chCode Hc).
  replace (Spec.glyphIndex chCode * 4 * 2) with (Spec.glyphIndex chCode * 8)
    by ring.
  now rewrite Hsample.
Qed.

Lemma x1RenderChar_sampled (x2CharData x1CharData : list Z)
    (this : MinimapCharRenderer.t) (target : ImageData)
    (dx dy chCode : Z) (color backgroundColor : ParsedColor.t) (row ch : Z) :
  MinimapCharRenderer.new x2CharData x1CharData = Normal this ->
  Spec.wellFormed target -> 0 <= dx -> 0 <= dy -> 0 <= chCode ->
  dx + 1 <= width target -> dy + 2 <= height target ->
  0 <= row < 2 -> 0 <= ch < 3 ->
  exists intensity,
    typedGet (if ParsedColor.isLight backgroundColor
              then soften x1CharData (50 / 60) else x1CharData)
             (Spec.glyphIndex chCode * 2 + row) = Some intensity
    /\ Spec.pixelByte
         (fst (x1RenderChar this target dx dy chCode color backgroundColor))
         dx (dy + row) ch
       = Some (toUint8Clamp
                 (Spec.interpolate (Spec.channel ch backgroundColor)
                    (Spec.channel ch color) (Some intensity))).
Proof.
  intros Hnew Htarget Hdx Hdy Hc Hw Hh Hrow Hch.
  destruct (new_Normal _ _ _ Hnew) as (Hlen2 & Hlen1 & ->).
  destruct (atlas_sample_defined
              (if ParsedColor.isLight backgroundColor
               then soften x1CharData (50 / 60) else x1CharData)
              chCode 2 row) as [intensity Hsample]; [|lia|lia|].
  { destruct (ParsedColor.isLight backgroundColor);
      rewrite ?length_soften, Hlen1; reflexivity. }
  exists intensity. split; [exact Hsample|].
  rewrite x1RenderChar_pixel by assumption.
  cbn [x1charData x1charDataLight].
  rewrite (_getChIndex_wraps chCode Hc).
  replace (Spec.glyphIndex chCode * 2 * 1) with (Spec.glyphIndex chCode * 2)
    by ring.
  now rewrite Hsample.
Qed.

(** Both atlases of a renderer built from byte arrays hold bytes. *)
Lemma atlas_bytes (a : list Z) (ratio : Q) (light : bool) (i v : Z) :
  Notion.bytes a -> typedGet (if light then soften a ratio else a) i = Some v ->
  0 <= v <= 255.
Proof.
  intros Ha Hget.
  assert (Hin : In v (if light then soften a ratio else a)).
  { unfold typedGet in Hget. destruct (i <? 0); [discriminate|].
    apply list_elem_of_In. eapply list_elem_of_lookup_2. exact Hget. }
  clear Hget. destruct light.
  - rewrite soften_maps in Hin. apply in_map_iff in Hin.
    destruct Hin as (u & <- & _). apply toUint8Clamp_byte.
  - unfold Notion.bytes in Ha. rewrite Forall_forall in Ha.
    apply Ha. apply list_elem_of_In. exact Hin.
Qed.

Lemma same_colour_byte (c : Q) (intensity : Z) :
  toUint8Clamp (Spec.interpolate c c (Some intensity))
  = toUint8Clamp (Finite c).
Proof. unfold Spec.interpolate. apply toUint8Clamp_Qeq. ring. Qed.

(** X11: on a constructed renderer, drawing a character whose foreground
    colour is the background colour paints plain background: whatever the
    character (code not negative), every red, green and blue byte of its
    rectangle holds the background channel, stored as a byte. *)
Theorem X11_render_without_contrast_paints_background
    (x2CharData x1CharData : list Z) (this : MinimapCharRenderer.t)
    (target : ImageData) (dx dy chCode : Z) (backgroundColor : ParsedColor.t) :
  MinimapCharRenderer.new x2CharData x1CharData = Normal this ->
  Spec.wellFormed target -> 0 <= dx -> 0 <= dy -> 0 <= chCode ->
  (dx + 2 <= width target -> dy + 4 <= height target ->
   forall col row ch, 0 <= col < 2 -> 0 <= row < 4 -> 0 <= ch < 3 ->
     Spec.pixelByte
       (fst (x2RenderChar this target dx dy chCode backgroundColor backgroundColor))
       (dx + col) (dy + row) ch
     = Some (toUint8Clamp (Finite (Spec.channel ch backgroundColor))))
  /\ (dx + 1 <= width target -> dy + 2 <= height target ->
      forall row ch, 0 <= row < 2 -> 0 <= ch < 3 ->
        Spec.pixelByte
          (fst (x1RenderChar this target dx dy chCode backgroundColor backgroundColor))
          dx (dy + row) ch
        = Some (toUint8Clamp (Finite (Spec.channel ch backgroundColor)))).
Proof.
  intros Hnew Htarget Hdx Hdy Hc. split.
  - intros Hw Hh col row ch Hcol Hrow Hch.
    destruct (x2RenderChar_sampled x2CharData x1CharData this target dx dy chCode
                backgroundColor backgroundColor col row ch)
      as (intensity & _ & ->); try assumption.
    now rewrite same_colour_byte.
  - intros Hw Hh row ch Hrow Hch.
    destruct (x1RenderChar_sampled x2CharData x1CharData this target dx dy chCode
                backgroundColor backgroundColor row ch)
      as (intensity & _ & ->); try assumption.
    now rewrite same_colour_byte.
Qed.

(** X11 for "A" drawn grey on grey at the origin of a 4 by 4 canvas: the
    red byte of the top left pixel becomes 100. *)
Lemma X11_render_without_contrast_paints_background_witness :
  let grey := ParsedColor.new 100 100 100 in
  Spec.pixelByte
    (fst (x2RenderChar Fixture.renderer (Fixture.canvas 4 4) 0 0 65 grey grey))
    0 0 0
  = Some 100.
Proof.
  intros grey.
  assert (Hnew : MinimapCharRenderer.new Fixture.x2CharData Fixture.x1CharData
                 = Normal Fixture.renderer) by reflexivity.
  assert (Htarget : Spec.wellFormed (Fixture.canvas 4 4))
    by (repeat split; vm_compute; congruence).
  exact (proj1 (X11_render_without_contrast_paints_background
                  Fixture.x2CharData Fixture.x1CharData Fixture.renderer
                  (Fixture.canvas 4 4) 0 0 65 grey Hnew Htarget
                  ltac:(lia) ltac:(lia) ltac:(lia))
           ltac:(vm_compute; congruence) ltac:(vm_compute; congruence)
           0 0 0 ltac:(lia) ltac:(lia) ltac:(lia)).
Defined.

(** The byte written for a sample, between byte colours. *)
Lemma rendered_byte (color backgroundColor : ParsedColor.t) (ch intensity : Z) :
  Notion.byteColor color -> Notion.byteColor backgroundColor ->
  0 <= intensity <= 255 ->
  let byte := toUint8Clamp
                (Spec.interpolate (Spec.channel ch backgroundColor)
                   (Spec.channel ch color) (Some intensity)) in
  ((Spec.channel ch backgroundColor <= inject_Z byte <= Spec.channel ch color)%Q
   \/ (Spec.channel ch color <= inject_Z byte <= Spec.channel ch backgroundColor)%Q)
  /\ (intensity = 0 -> inject_Z byte = Spec.channel ch backgroundColor)
  /\ (intensity = 255 -> inject_Z byte = Spec.channel ch color).
Proof.
  intros Hcolor Hbackground Hv.
  destruct (byteColor_channel color ch Hcolor) as (cf & Hcf & ->).
  destruct (byteColor_channel backgroundColor ch Hbackground) as (cb & Hcb & ->).
  intros byte.
  destruct (interpolated_byte cb cf intensity Hcb Hcf Hv) as (Hbetween & H0 & H255).
  fold byte in Hbetween, H0, H255.
  split; [|split].
  - rewrite <- !Zle_Qle. lia.
  - intros Hi. now rewrite (H0 Hi).
  - intros Hi. now rewrite (H255 Hi).
Qed.

(** X12: on a renderer constructed from byte arrays, with byte colours and a
    character code that is not negative, every red, green and blue byte
    written lies between the background channel and the foreground channel;
    where the atlas sample of the pixel is 0 the byte is the background
    channel, and where it is 255 the byte is the foreground channel. *)
Theorem X12_rendered_byte_between_the_colours
    (x2CharData x1CharData : list Z) (this : MinimapCharRenderer.t)
    (target : ImageData) (dx dy chCode : Z)
    (color backgroundColor : ParsedColor.t) :
  MinimapCharRenderer.new x2CharData x1CharData = Normal this ->
  Notion.bytes x2CharData -> Notion.bytes x1CharData ->
  Notion.byteColor color -> Notion.byteColor backgroundColor ->
  Spec.wellFormed target -> 0 <= dx -> 0 <= dy -> 0 <= chCode ->
  let between (byte ch : Z) :=
    ((Spec.channel ch backgroundColor <= inject_Z byte <= Spec.channel ch color)%Q
     \/ (Spec.channel ch color <= inject_Z byte
         <= Spec.channel ch backgroundColor)%Q) in
  (dx + 2 <= width target -> dy + 4 <= height target ->
   forall col row ch, 0 <= col < 2 -> 0 <= row < 4 -> 0 <= ch < 3 ->
     exists intensity byte,
       typedGet (if ParsedColor.isLight backgroundColor
                 then x2charDataLight this else x2charData this)
                (Spec.glyphIndex chCode * 8 + (row * 2 + col)) = Some intensity
       /\ Spec.pixelByte
            (fst (x2RenderChar this target dx dy chCode color backgroundColor))
            (dx + col) (dy + row) ch = Some byte
       /\ between byte ch
       /\ (intensity = 0 -> inject_Z byte = Spec.channel ch backgroundColor)
       /\ (intensity = 255 -> inject_Z byte = Spec.channel ch color))
  /\ (dx + 1 <= width target -> dy + 2 <= height target ->
      forall row ch, 0 <= row < 2 -> 0 <= ch < 3 ->
        exists intensity byte,
          typedGet (if ParsedColor.isLight backgroundColor
                    then x1charDataLight this else x1charData this)
                   (Spec.glyphIndex chCode * 2 + row) = Some intensity
          /\ Spec.pixelByte
               (fst (x1RenderChar this target dx dy chCode color backgroundColor))
               dx (dy + row) ch = Some byte
          /\ between byte ch
          /\ (intensity = 0 -> inject_Z byte = Spec.channel ch backgroundColor)
          /\ (intensity = 255 -> inject_Z byte = Spec.channel ch color)).
Proof.
  intros Hnew Hb2 Hb1 Hcolor Hbackground Htarget Hdx Hdy Hc between.
  pose proof (new_Normal _ _ _ Hnew) as (_ & _ & Hthis).
  split.
  - intros Hw Hh col row ch Hcol Hrow Hch.
    destruct (x2RenderChar_sampled x2CharData x1CharData this target dx dy chCode
                color backgroundColor col row ch)
      as (intensity & Hsample & Hbyte); try assumption.
    exists intensity, (toUint8Clamp
                         (Spec.interpolate (Spec.channel ch backgroundColor)
                            (Spec.channel ch color) (Some intensity))).
    split; [rewrite Hthis; exact Hsample|]. split; [exact Hbyte|].
    apply rendered_byte; try assumption.
    exact (atlas_bytes _ _ _ _ _ Hb2 Hsample).
  - intros Hw Hh row ch Hrow Hch.
    destruct (x1RenderChar_sampled x2CharData x1CharData this target dx dy chCode
                color backgroundColor row ch)
      as (intensity & Hsample & Hbyte); try assumption.
    exists intensity, (toUint8Clamp
                         (Spec.interpolate (Spec.channel ch backgroundColor)
                            (Spec.channel ch color) (Some intensity))).
    split; [rewrite Hthis; exact Hsample|]. split; [exact Hbyte|].
    apply rendered_byte; try assumption.
    exact (atlas_bytes _ _ _ _ _ Hb1 Hsample).
Qed.

(** X12 for "A" drawn white on black at the origin of a 4 by 4 canvas: the
    red byte of the top left pixel. *)
Lemma X12_rendered_byte_between_the_colours_witness :
  exists intensity byte,
    typedGet (if ParsedColor.isLight Fixture.black
              then x2charDataLight Fixture.renderer
              else x2charData Fixture.renderer)
             (Spec.glyphIndex 65 * 8 + (0 * 2 + 0)) = Some intensity
    /\ Spec.pixelByte
         (fst (x2RenderChar Fixture.renderer (Fixture.canvas 4 4) 0 0 65
                 Fixture.white Fixture.black))
         (0 + 0) (0 + 0) 0 = Some byte
    /\ ((Spec.channel 0 Fixture.black <= inject_Z byte
         <= Spec.channel 0 Fixture.white)%Q
        \/ (Spec.channel 0 Fixture.white <= inject_Z byte
            <= Spec.channel 0 Fixture.black)%Q)
    /\ (intensity = 0 -> inject_Z byte = Spec.channel 0 Fixture.black)
    /\ (intensity = 255 -> inject_Z byte = Spec.channel 0 Fixture.white).
Proof.
  assert (Hnew : MinimapCharRenderer.new Fixture.x2CharData Fixture.x1CharData
                 = Normal Fixture.renderer) by reflexivity.
  assert (Htarget : Spec.wellFormed (Fixture.canvas 4 4))
    by (repeat split; vm_compute; congruence).
  exact (proj1 (X12_rendered_byte_between_the_colours
                  Fixture.x2CharData Fixture.x1CharData Fixture.renderer
                  (Fixture.canvas 4 4) 0 0 65 Fixture.white Fixture.black
                  Hnew (Fixture_bytes 760) (Fixture_bytes 190)
                  (byteColor_new 255 255 255 ltac:(lia) ltac:(lia) ltac:(lia))
                  (byteColor_new 0 0 0 ltac:(lia) ltac:(lia) ltac:(lia))
                  Htarget ltac:(lia) ltac:(lia) ltac:(lia))
           ltac:(vm_compute; congruence) ltac:(vm_compute; congruence)
           0 0 0 ltac:(lia) ltac:(lia) ltac:(lia)).
Defined.

(** ** The atlases of a light background *)

(** A byte sample scaled by the two ratios of the constructor. *)
Lemma softened_sample (v : Z) :
  0 <= v <= 255 ->
  let l2 := toUint8Clamp (Finite (inject_Z v * (12 / 15))) in
  let l1 := toUint8Clamp (Finite (inject_Z v * (50 / 60))) in
  (Z.abs (5 * l2 - 4 * v) <= 2 /\ 0 <= l2 <= v /\ (l2 = 0 <-> v = 0))
  /\ (Z.abs (6 * l1 - 5 * v) <= 3 /\ 0 <= l1 <= v /\ (l1 = 0 <-> v = 0)).
Proof.
  intros Hv l2 l1.
  pose (p := fun z : Z =>
               let m2 := toUint8Clamp (Finite (inject_Z z * (12 / 15))) in
               let m1 := toUint8Clamp (Finite (inject_Z z * (50 / 60))) in
               (Z.abs (5 * m2 - 4 * z) <=? 2) && (0 <=? m2) && (m2 <=? z)
               && Bool.eqb (m2 =? 0) (z =? 0)
               && (Z.abs (6 * m1 - 5 * z) <=? 3) && (0 <=? m1) && (m1 <=? z)
               && Bool.eqb (m1 =? 0) (z =? 0)).
  assert (Hp : p v = true).
  { apply (Z_range_forallb p 0 256); [vm_compute; reflexivity | lia]. }
  unfold p in Hp. cbv zeta in Hp. fold l2 l1 in Hp.
  repeat (apply andb_true_iff in Hp; destruct Hp as [Hp ?]).
  repeat match goal with
         | H : (_ <=? _) = true |- _ => apply Z.leb_le in H
         | H : Bool.eqb _ _ = true |- _ => apply Bool.eqb_prop in H
         end.
  apply Z.leb_le in Hp.
  assert (E2 : l2 = 0 <-> v = 0).
  { rewrite <- !Z.eqb_eq. now match goal with H : (l2 =? 0) = _ |- _ => rewrite H end. }
  assert (E1 : l1 = 0 <-> v = 0).
  { rewrite <- !Z.eqb_eq. now match goal with H : (l1 =? 0) = _ |- _ => rewrite H end. }
  repeat split; try lia; try apply E2; try apply E1.
Qed.

(** X13: a renderer constructed from byte arrays holds, beside each atlas, a
    dimmed atlas of the same length for light backgrounds: at every index
    the dimmed sample is the plain sample times 4/5 (double size) or 5/6
    (single size) rounded to a nearest integer, so it is never brighter than
    the plain sample and is 0 exactly where the plain sample is 0. *)
Theorem X13_light_atlases_are_dimmed
    (x2CharData x1CharData : list Z) (this : MinimapCharRenderer.t) :
  MinimapCharRenderer.new x2CharData x1CharData = Normal this ->
  Notion.bytes x2CharData -> Notion.bytes x1CharData ->
  (x2charData this = x2CharData /\ x1charData this = x1CharData)
  /\ (length (x2charDataLight this) = 760%nat
      /\ length (x1charDataLight this) = 190%nat)
  /\ (forall (i : nat) (v : Z),
         x2charData this !! i = Some v ->
         exists l, x2charDataLight this !! i = Some l
                   /\ Z.abs (5 * l - 4 * v) <= 2
                   /\ 0 <= l <= v /\ (l = 0 <-> v = 0))
  /\ (forall (i : nat) (v : Z),
         x1charData this !! i = Some v ->
         exists l, x1charDataLight this !! i = Some l
                   /\ Z.abs (6 * l - 5 * v) <= 3
                   /\ 0 <= l <= v /\ (l = 0 <-> v = 0)).
Proof.
  intros Hnew Hb2 Hb1.
  destruct (new_Normal _ _ _ Hnew) as (Hlen2 & Hlen1 & ->).
  cbn [x2charData x1charData x2charDataLight x1charDataLight].
  split; [now split|]. split; [now rewrite !length_soften|].
  unfold Notion.bytes in Hb2, Hb1. rewrite Forall_forall in Hb2, Hb1.
  split; intros i v Hv.
  - exists (toUint8Clamp (Finite (inject_Z v * (12 / 15)))). split.
    + now rewrite soften_maps, lookup_map, Hv.
    + apply (softened_sample v). apply Hb2.
      eapply list_elem_of_lookup_2. exact Hv.
  - exists (toUint8Clamp (Finite (inject_Z v * (50 / 60)))). split.
    + now rewrite soften_maps, lookup_map, Hv.
    + apply (softened_sample v). apply Hb1.
      eapply list_elem_of_lookup_2. exact Hv.
Qed.

(** X13 on the atlases whose sample at index [i] is [i mod 256]: the
    sample 255 of the double-size atlas is dimmed to 204, the sample 127 of
    the single-size atlas to 106. *)
Lemma X13_light_atlases_are_dimmed_witness :
  x2charDataLight Fixture.renderer !! 255%nat = Some 204
  /\ x1charDataLight Fixture.renderer !! 127%nat = Some 106
  /\ length (x2charDataLight Fixture.renderer) = 760%nat.
Proof.
  assert (Hnew : MinimapCharRenderer.new Fixture.x2CharData Fixture.x1CharData
                 = Normal Fixture.renderer) by reflexivity.
  destruct (X13_light_atlases_are_dimmed Fixture.x2CharData Fixture.x1CharData
              Fixture.renderer Hnew (Fixture_bytes 760) (Fixture_bytes 190))
    as (_ & (Hlen & _) & H2 & H1).
  split; [|split; [|exact Hlen]].
  - destruct (H2 255%nat 255 eq_refl) as (l & -> & Hl & _). f_equal. lia.
  - destruct (H1 127%nat 127 eq_refl) as (l & -> & Hl & _). f_equal. lia.
Defined.

(** ** What the constructor accepts *)

(** X14: the constructor accepts exactly a double-size atlas of 760 samples
    (95 glyphs of 2 by 4) with a single-size atlas of 190 samples (95 glyphs
    of 1 by 2). A double-size atlas of another length throws "Invalid
    x2CharData" whatever the single-size atlas is; "Invalid x1CharData" is
    thrown only when the double-size atlas is right. *)
Theorem X14_constructor_checks_the_atlas_lengths (x2CharData x1CharData : list Z) :
  (length x2CharData <> 760%nat
   <-> MinimapCharRenderer.new x2CharData x1CharData = Throw "Invalid x2CharData")
  /\ (length x2CharData = 760%nat /\ length x1CharData <> 190%nat
      <-> MinimapCharRenderer.new x2CharData x1CharData
          = Throw "Invalid x1CharData")
  /\ (length x2CharData = 760%nat /\ length x1CharData = 190%nat
      <-> exists this, MinimapCharRenderer.new x2CharData x1CharData = Normal this).
Proof.
  unfold MinimapCharRenderer.new.
  change (Constants.x2_CHAR_HEIGHT * Constants.x2_CHAR_WIDTH * Constants.CHAR_COUNT)
    with 760.
  change (Constants.x1_CHAR_HEIGHT * Constants.x1_CHAR_WIDTH * Constants.CHAR_COUNT)
    with 190.
  destruct (Z.eqb_spec (Z.of_nat (length x2CharData)) 760) as [H2|H2];
    destruct (Z.eqb_spec (Z.of_nat (length x1CharData)) 190) as [H1|H1];
    cbn [negb].
  - split; [|split].
    + split; [lia | discriminate].
    + split; [lia | discriminate].
    + split; [eauto | intros _; lia].
  - split; [|split].
    + split; [lia | discriminate].
    + split; [reflexivity | intros _; lia].
    + split; [lia | intros [this [=]]].
  - split; [|split].
    + split; [reflexivity | intros _; lia].
    + split; [lia | discriminate].
    + split; [lia | intros [this [=]]].
  - split; [|split].
    + split; [reflexivity | intros _; lia].
    + split; [lia | discriminate].
    + split; [lia | intros [this [=]]].
Qed.

(** ** Character codes outside the supported range *)

Lemma _getChIndex_below (c : Z) :
  c < -63 -> _getChIndex c = - ((-63 - c) mod 95).
Proof.
  intros Hc.
  change (_getChIndex c)
    with (Z.rem (if c - 32 <? 0 then c - 32 + 95 else c - 32) 95).
  destruct (Z.ltb_spec (c - 32) 0) as [_|Hge]; [|lia].
  replace (c - 32 + 95) with (- (-63 - c)) by lia.
  rewrite Z.rem_opp_l by lia. f_equal.
  apply Z.rem_mod_nonneg; lia.
Qed.

(** X15: [_getChIndex] is [c - 32] on the supported codes 32..126, so
    distinct supported characters have distinct glyphs; from -63 on it is
    (c - 32) modulo 95, in 0..94; below -63 the remainder keeps the sign of
    the shifted code, and the index is -((-63 - c) modulo 95), never
    positive. *)
Theorem X15_getChIndex_by_range :
  (forall c, 32 <= c <= 126 -> _getChIndex c = c - 32)
  /\ (forall c c', 32 <= c <= 126 -> 32 <= c' <= 126 ->
        _getChIndex c = _getChIndex c' -> c = c')
  /\ (forall c, -63 <= c ->
        _getChIndex c = (c - 32) mod 95 /\ 0 <= _getChIndex c < 95)
  /\ (forall c, c < -63 ->
        _getChIndex c = - ((-63 - c) mod 95) /\ -95 < _getChIndex c <= 0).
Proof.
  assert (Hdef : forall c,
             _getChIndex c
             = Z.rem (if c - 32 <? 0 then c - 32 + 95 else c - 32) 95)
    by reflexivity.
  assert (Hsupported : forall c, 32 <= c <= 126 -> _getChIndex c = c - 32).
  { intros c Hc. rewrite Hdef.
    destruct (Z.ltb_spec (c - 32) 0) as [Hlt|_]; [lia|].
    rewrite Z.rem_mod_nonneg by lia. apply Z.mod_small. lia. }
  split; [exact Hsupported|]. split; [|split].
  - intros c c' Hc Hc'. rewrite (Hsupported c Hc), (Hsupported c' Hc'). lia.
  - intros c Hc.
    assert (Heq : _getChIndex c = (c - 32) mod 95).
    { rewrite Hdef. destruct (Z.ltb_spec (c - 32) 0) as [Hlt|Hge].
      - rewrite Z.rem_mod_nonneg by lia.
        rewrite <- (Z_mod_plus_full (c - 32) 1 95). f_equal; lia.
      - now rewrite Z.rem_mod_nonneg by lia. }
    rewrite Heq. split; [reflexivity|]. apply Z.mod_pos_bound. lia.
  - intros c Hc.
    rewrite (_getChIndex_below c Hc). split; [reflexivity|].
    pose proof (Z.mod_pos_bound (-63 - c) 95). lia.
Qed.

(** X16: a character code below -63 whose index is not 0 reads no sample:
    the index is negative, the read outside the atlas gives undefined, the
    interpolated value is NaN, and every red, green and blue byte of the
    rectangle is stored as 0, whatever the colours are. *)
Theorem X16_render_below_the_range_stores_zero
    (this : MinimapCharRenderer.t) (target : ImageData) (dx dy chCode : Z)
    (color backgroundColor : ParsedColor.t) :
  Spec.wellFormed target -> 0 <= dx -> 0 <= dy ->
  chCode < -63 -> (-63 - chCode) mod 95 <> 0 ->
  (dx + 2 <= width target -> dy + 4 <= height target ->
   forall col row ch, 0 <= col < 2 -> 0 <= row < 4 -> 0 <= ch < 3 ->
     Spec.pixelByte
       (fst (x2RenderChar this target dx dy chCode color backgroundColor))
       (dx + col) (dy + row) ch = Some 0)
  /\ (dx + 1 <= width target -> dy + 2 <= height target ->
      forall row ch, 0 <= row < 2 -> 0 <= ch < 3 ->
        Spec.pixelByte
          (fst (x1RenderChar this target dx dy chCode color backgroundColor))
          dx (dy + row) ch = Some 0).
Proof.
  intros Htarget Hdx Hdy Hc Hrem.
  assert (Hindex : _getChIndex chCode <= -1).
  { rewrite (_getChIndex_below chCode Hc).
    pose proof (Z.mod_pos_bound (-63 - chCode) 95). lia. }
  split.
  - intros Hw Hh col row ch Hcol Hrow Hch.
    rewrite x2RenderChar_pixel by assumption.
    unfold typedGet.
    destruct (Z.ltb_spec (_getChIndex chCode * 4 * 2 + (row * 2 + col)) 0)
      as [_|Hge]; [reflexivity | lia].
  - intros Hw Hh row ch Hrow Hch.
    rewrite x1RenderChar_pixel by assumption.
    unfold typedGet.
    destruct (Z.ltb_spec (_getChIndex chCode * 2 * 1 + row) 0)
      as [_|Hge]; [reflexivity | lia].
Qed.

(** X16 for the code -64 drawn white on white at the origin of a 4 by 4
    canvas: the red byte of the top left pixel becomes 0. *)
Lemma X16_render_below_the_range_stores_zero_witness :
  Spec.pixelByte
    (fst (x2RenderChar Fixture.renderer (Fixture.canvas 4 4) 0 0 (-64)
            Fixture.white Fixture.white))
    (0 + 0) (0 + 0) 0
  = Some 0.
Proof.
  assert (Htarget : Spec.wellFormed (Fixture.canvas 4 4))
    by (repeat split; vm_compute; congruence).
  exact (proj1 (X16_render_below_the_range_stores_zero
                  Fixture.renderer (Fixture.canvas 4 4) 0 0 (-64)
                  Fixture.white Fixture.white Htarget
                  ltac:(lia) ltac:(lia) ltac:(lia)
                  ltac:(vm_compute; congruence))
           ltac:(vm_compute; congruence) ltac:(vm_compute; congruence)
           0 0 0 ltac:(lia) ltac:(lia) ltac:(lia)).
Defined.

(** ** Runs of the content provider *)

Section GitContentProviderRuns.
Import GitContentProvider.
Context {Uri : Type} `{UriApi Uri} `{Workspace Uri}.

Lemma Set_add_idempotent (x : Uri) (s : list Uri) :
  Set_add x (Set_add x s) = Set_add x s.
Proof.
  unfold Set_add at 1.
  destruct (decide (x ∈ Set_add x s)) as [_|Hnot]; [reflexivity|].
  exfalso. apply Hnot, elem_of_Set_add. now left.
Qed.

Lemma Set_delete_absent (x : Uri) (s : list Uri) :
  x ∉ s -> Set_delete x s = s.
Proof.
  unfold Set_delete. induction s as [|y s IH]; intros Hnot; [reflexivity|].
  rewrite filter_cons. rewrite not_elem_of_cons in Hnot. destruct Hnot as [Hne Hs].
  destruct (decide (y <> x)) as [_|Heq]; [|exfalso; apply Heq; congruence].
  now rewrite IH.
Qed.

Lemma Set_delete_idempotent (x : Uri) (s : list Uri) :
  Set_delete x (Set_delete x s) = Set_delete x s.
Proof.
  apply Set_delete_absent. rewrite elem_of_Set_delete. intros [Hne _].
  now apply Hne.
Qed.

(** What an action adds to the notifications fired so far. *)
Lemma onDidChange_fired_step (this : t Uri) (a : action) :
  onDidChange_fired (step this a)
  = onDidChange_fired this
    ++ match a with
       | FileChanged uri =>
           if startsWith (lit ".git/") (asRelativePath uri)
              && negb (endsWith (lit "/.git/index.lock") (fsPath uri))
           then uris this else []
       | _ => []
       end.
Proof.
  destruct a as [uri|uri|m]; cbn [step].
  - rewrite subscription_filters. destruct (_ && _).
    + now rewrite fireChangeEvents_fires.
    + now rewrite app_nil_r.
  - unfold provideTextDocumentContent.
    destruct (show (model this) (query uri) uri); cbn; now rewrite app_nil_r.
  - cbn. now rewrite app_nil_r.
Qed.

Lemma run_snoc (this : t Uri) (actions : list action) (a : action) :
  run this (actions ++ [a]) = step (run this actions) a.
Proof. unfold run. now rewrite fold_left_app. Qed.

(** A member of the refresh set was a member at the start or has been
    requested. *)
Lemma uris_run_requested (actions : list action) (this : t Uri) (u : Uri) :
  u ∈ uris (run this actions) ->
  u ∈ uris this \/ In (ContentRequested u) actions.
Proof.
  revert this. induction actions as [|a rest IH]; intros this Hu; [now left|].
  change (run this (a :: rest)) with (run (step this a) rest) in Hu.
  destruct (IH _ Hu) as [Hstep|Hrest]; [|right; now right].
  rewrite uris_step in Hstep. destruct a as [uri|uri|m]; try (now left).
  destruct (show (model this) (query uri) uri).
  - apply elem_of_Set_add in Hstep. destruct Hstep as [->|Hin];
      [right; now left | now left].
  - apply elem_of_Set_delete in Hstep. left. tauto.
Qed.

(** X17: a provider notifies only what was asked of it. In every run of a
    new provider, a member of the refresh set is a URI of an earlier content
    request; every change notification fired is for a URI requested before
    the file event that fired it; and a run without file events fires
    nothing. *)
Theorem X17_provider_notifies_requested_uris_only
    (m : Model Uri) (actions : list action) :
  (forall u, u ∈ uris (run (new m) actions) -> In (ContentRequested u) actions)
  /\ (forall u, u ∈ onDidChange_fired (run (new m) actions) ->
        exists before uri after,
          actions = before ++ FileChanged uri :: after
          /\ In (ContentRequested u) before
          /\ startsWith (lit ".git/") (asRelativePath uri) = true
          /\ endsWith (lit "/.git/index.lock") (fsPath uri) = false)
  /\ ((forall uri, ~ In (FileChanged uri) actions) ->
      onDidChange_fired (run (new m) actions) = []).
Proof.
  assert (Hmember : forall l u,
             u ∈ uris (run (new m) l) -> In (ContentRequested u) l).
  { intros l u Hu. destruct (uris_run_requested l (new m) u Hu) as [Hnew|Hin];
      [|exact Hin].
    cbn in Hnew. now apply elem_of_nil in Hnew. }
  split; [apply Hmember|]. split.
  - induction actions as [|a l IH] using rev_ind; intros u Hu.
    + cbn in Hu. now apply elem_of_nil in Hu.
    + rewrite run_snoc, onDidChange_fired_step, elem_of_app in Hu.
      destruct Hu as [Hold|Hnow].
      * destruct (IH u Hold) as (before & uri & after & -> & Hreq & Hgit & Hlock).
        exists before, uri, (after ++ [a]). rewrite <- app_assoc.
        now repeat split.
      * destruct a as [uri|uri|m']; try (now apply elem_of_nil in Hnow).
        destruct (startsWith (lit ".git/") (asRelativePath uri)) eqn:Hgit;
          cbn [andb] in Hnow; [|now apply elem_of_nil in Hnow].
        destruct (endsWith (lit "/.git/index.lock") (fsPath uri)) eqn:Hlock;
          cbn [negb] in Hnow; [now apply elem_of_nil in Hnow|].
        exists l, uri, []. split; [reflexivity|]. split; [|now split].
        now apply Hmember.
  - induction actions as [|a l IH] using rev_ind; intros Hnone; [reflexivity|].
    rewrite run_snoc, onDidChange_fired_step, IH.
    + destruct a as [uri|uri|m']; try reflexivity.
      exfalso. apply (Hnone uri), in_or_app. right. now left.
    + intros uri Hin. apply (Hnone uri), in_or_app. now left.
Qed.

(** X18: a content request is silent, local and idempotent: it fires no
    change notification and keeps the model; it changes the membership of no
    other URI; and repeated at once, it settles the same way and leaves the
    provider as the first request left it. *)
Theorem X18_content_request_is_local_and_idempotent
    (this : t Uri) (uri : Uri) :
  let first := provideTextDocumentContent this uri in
  (onDidChange_fired (snd first) = onDidChange_fired this
   /\ model (snd first) = model this)
  /\ (forall v, v <> uri -> v ∈ uris (snd first) <-> v ∈ uris this)
  /\ provideTextDocumentContent (snd first) uri = first.
Proof.
  unfold provideTextDocumentContent.
  destruct (show (model this) (query uri) uri) as [content|reason] eqn:Hshow;
    cbn [fst snd model uris onDidChange_fired]; rewrite Hshow.
  - split; [now split|]. split.
    + intros v Hv. rewrite elem_of_Set_add. tauto.
    + now rewrite Set_add_idempotent.
  - split; [now split|]. split.
    + intros v Hv. rewrite elem_of_Set_delete. tauto.
    + now rewrite Set_delete_idempotent.
Qed.

End GitContentProviderRuns.
